(** * A retrieval-augmented question-answering script (app/app/main.py)

    Shallow embedding of the Python script and the properties of its
    orchestration code.  The script's own functions ([init_bnb_config],
    [init_model], [user_documents], [pre_rerank], [rerank], [llm], [query]
    and the command-line loop) are transcribed statement by statement.
    Calls into code outside the script (transformers, langchain, FAISS,
    the cross-encoder, [glob], the console, and the subscripts of the loop
    of [rerank]) are calls to an environment [Lib] or to a model of the
    routine; every such call is logged in a trace together with the
    exception it raised, if any.  The small, documented library routines
    whose behaviour the properties below depend on ([glob.glob] on a
    [dir/*ext] pattern, [os.path.join], [os.path.split],
    [os.path.splitext], list slicing) are modelled concretely. *)

From Stdlib Require Import List String Ascii ZArith Lia Bool.
From Stdlib Require Import Permutation Sorted.
Import ListNotations.

Local Open Scope string_scope.
Local Open Scope list_scope.

(** ** Python values and exceptions *)

(** The dynamically typed values that can be handed to [init_bnb_config].
    [VType] is a class object (an instance of [type]); [VObj] is an instance
    of any other class, named by its class. *)
Inductive PyVal : Type :=
| VNone
| VBool (b : bool)
| VInt (z : Z)
| VStr (s : string)
| VType (name : string)
| VObj (cls : string).

(** Exceptions.  [LibraryError] stands for whatever a library raises. *)
Inductive Exn : Type :=
| ValueError (msg : string)
| IndexError
| EOFError
| LibraryError (what : string).

Inductive Result (A : Type) : Type :=
| Ok (a : A)
| Raise (e : Exn).
Arguments Ok {A} a.
Arguments Raise {A} e.

(** An opaque library object, identified by its address. *)
Inductive PyObj : Type := Obj (id : nat).

(** A langchain document. *)
Record Document : Type := mkDocument {
  page_content : string;
  metadata : list (string * string)
}.

(** [transformers.BitsAndBytesConfig], as far as the script fills it: the
    object holds the four values it is built from.  Its constructor is a
    library call: it stores the values or raises (see [Lib]). *)
Record BitsAndBytesConfig : Type := mkBnb {
  load_in_4bit : bool;
  bnb_4bit_quant_type : string;
  bnb_4bit_use_double_quant : bool;
  bnb_4bit_compute_dtype : PyVal
}.

(** The document loader classes of the [loaders] dictionary. *)
Inductive Loader : Type :=
| PyPDFLoader
| Docx2txtLoader
| TextLoader
| UnstructuredExcelLoader
| UnstructuredPowerPointLoader.

(** ** The type tests of [init_bnb_config] (lines 36-43) *)

Definition isinstance_bool (v : PyVal) : bool :=
  match v with VBool _ => true | _ => false end.

Definition isinstance_str (v : PyVal) : bool :=
  match v with VStr _ => true | _ => false end.

(** [isinstance(v, (type, str))] *)
Definition isinstance_type_or_str (v : PyVal) : bool :=
  match v with VType _ | VStr _ => true | _ => false end.

(** All four arguments have an accepted type. *)
Definition well_typed_args (a b c d : PyVal) : bool :=
  isinstance_bool a && isinstance_str b && isinstance_bool c
  && isinstance_type_or_str d.

(** ** Library calls and traces *)

(** The keyword arguments of [transformers.pipeline] (lines 87-96);
    the two floating-point literals are kept as written. *)
Record PipelineArgs : Type := mkPipelineArgs {
  pa_model : PyObj;
  pa_tokenizer : PyObj;
  pa_return_full_text : bool;
  pa_task : string;
  pa_temperature : string;
  pa_max_new_tokens : nat;
  pa_repetition_penalty : string;
  pa_do_sample : bool
}.

(** One constructor per library call the script makes, with its arguments. *)
Inductive Call : Type :=
| CBitsAndBytesConfig (config : BitsAndBytesConfig)
| CEnvironGet (name : string)
| CAutoConfigFromPretrained (model_id : string) (auth : option string)
| CCausalLMFromPretrained (model_id : string) (trust_remote_code : bool)
    (config : PyObj) (quantization_config : BitsAndBytesConfig)
    (device_map : string) (auth : option string)
| CModelEval (model : PyObj)
| CAutoTokenizerFromPretrained (model_id : string) (auth : option string)
| CPipeline (args : PipelineArgs)
| CHuggingFacePipeline (pipeline : PyObj)
| CHuggingFaceEmbeddings (model_name : string)
| CGlob (pathname : string)
| CLoaderLoad (loader : Loader) (file : string)
| CSplitDocuments (chunk_size chunk_overlap : nat) (documents : list Document)
| CFaissFromDocuments (docs : list Document) (embeddings : PyObj)
| CSimilaritySearch (data_base : PyObj) (question : string) (k : nat)
| CSeqClsFromPretrained (name : string)
| CTokenize (tokenizer : PyObj) (contents : list (list string))
    (max_length : nat)
| CLogits (model : PyObj) (inputs : PyObj)
| CSubscripts (indices : list nat)
| CFromTemplate (template : string)
| CPromptInvoke (prompt : PyObj) (question : string)
| CModelInvoke (model : PyObj) (prompt_text : string)
| CParseOutput (text : string)
| CInput (prompt : string)
| CPrintLine (text : string).

(** A logged call and the exception it raised, if it raised one. *)
Record Event : Type := mkEvent {
  ev_call : Call;
  ev_raised : option Exn
}.

Definition Trace : Type := list Event.

(** Computations: the trace of library calls made, and the outcome. *)
Definition M (A : Type) : Type := (Trace * Result A)%type.

Definition ret {A} (a : A) : M A := ([], Ok a).

Definition bind {A B} (m : M A) (k : A -> M B) : M B :=
  match m with
  | (t, Ok a) => let (t', r) := k a in (t ++ t', r)
  | (t, Raise e) => (t, Raise e)
  end.

Definition outcome {A} (r : Result A) : option Exn :=
  match r with Ok _ => None | Raise e => Some e end.

(** A library call [c] that answered [r]. *)
Definition lib {A} (c : Call) (r : Result A) : M A :=
  ([mkEvent c (outcome r)], r).

(** Python's [try: m except Exception: h]; the script never uses it. *)
Definition try_except {A} (m : M A) (h : Exn -> M A) : M A :=
  match m with
  | (t, Ok a) => (t, Ok a)
  | (t, Raise e) => let (t', r) := h e in (t ++ t', r)
  end.

Declare Scope m_scope.
Delimit Scope m_scope with M.
Notation "x <- m ;; k" := (bind m (fun x => k))
  (at level 100, m at next level, right associativity) : m_scope.
Notation "m ;;; k" := (bind m (fun _ => k))
  (at level 100, right associativity) : m_scope.
Local Open Scope m_scope.

Definition calls (t : Trace) : list Call := map ev_call t.

Arguments bind : simpl never.
Arguments lib : simpl never.

(** ** The environment: what each library call answers *)

Record Lib : Type := mkLib {
  (** the exception that [transformers.BitsAndBytesConfig] raises on these
      four values, if it raises; otherwise it returns the object holding
      them *)
  bits_and_bytes_config_error : BitsAndBytesConfig -> option Exn;
  environ_get : string -> option string;
  auto_config_from_pretrained : string -> option string -> Result PyObj;
  causal_lm_from_pretrained :
    string -> bool -> PyObj -> BitsAndBytesConfig -> string ->
    option string -> Result PyObj;
  model_eval : PyObj -> Result unit;
  auto_tokenizer_from_pretrained : string -> option string -> Result PyObj;
  pipeline : PipelineArgs -> Result PyObj;
  hugging_face_pipeline : PyObj -> Result PyObj;
  hugging_face_embeddings : string -> Result PyObj;
  (** [glob]'s listing of a directory: the names of its entries, none when
      the operating system refuses to list it (an [OSError], which [glob]
      swallows), or any other exception of the listing, such as the
      [ValueError] for a name holding a null byte, which [glob] lets
      through *)
  listdir : string -> Result (list string);
  (** the directories matched by a directory name holding wildcards *)
  glob_dirs : string -> Result (list string);
  loader_load : Loader -> string -> Result (list Document);
  split_documents : nat -> nat -> list Document -> Result (list Document);
  faiss_from_documents : list Document -> PyObj -> Result PyObj;
  similarity_search : PyObj -> string -> nat -> Result (list Document);
  seq_cls_from_pretrained : string -> Result PyObj;
  tokenize : PyObj -> list (list string) -> nat -> Result PyObj;
  (** the cross-encoder's forward pass on the tokenized inputs, its logits
      flattened and turned into a list; only the order of the scores is ever
      used, so they are exact numbers here (no NaN) *)
  logits : PyObj -> PyObj -> Result (list Z);
  argsort : list Z -> list nat;
  from_template : string -> Result PyObj;
  (** the prompt object run on the question: the text of the prompt *)
  format_prompt : PyObj -> string -> Result string;
  (** the language model run on the text of a prompt *)
  model_invoke : PyObj -> string -> Result string;
  (** [StrOutputParser] *)
  parse_output : string -> Result string;
  print_line : string -> Result unit
}.

(** ** [init_bnb_config] (lines 21-51) *)

(** The call [transformers.BitsAndBytesConfig(...)] of lines 45-50. *)
Definition construct_config (L : Lib) (config : BitsAndBytesConfig)
  : Result BitsAndBytesConfig :=
  match bits_and_bytes_config_error L config with
  | Some e => Raise e
  | None => Ok config
  end.

Definition init_bnb_config (L : Lib)
  (load_in_4bit_arg bnb_4bit_quant_type_arg
   bnb_4bit_use_double_quant_arg bnb_4bit_compute_dtype_arg : PyVal)
  : M BitsAndBytesConfig :=
  match load_in_4bit_arg with
  | VBool l4 =>
    match bnb_4bit_quant_type_arg with
    | VStr qt =>
      match bnb_4bit_use_double_quant_arg with
      | VBool dq =>
        if isinstance_type_or_str bnb_4bit_compute_dtype_arg then
          let values := mkBnb l4 qt dq bnb_4bit_compute_dtype_arg in
          lib (CBitsAndBytesConfig values) (construct_config L values)
        else ([], Raise (ValueError
                           "bnb_4bit_compute_dtype must be a valid data type."))
      | _ => ([], Raise (ValueError
                           "bnb_4bit_use_double_quant must be a boolean value."))
      end
    | _ => ([], Raise (ValueError "bnb_4bit_quant_type must be a string."))
    end
  | _ => ([], Raise (ValueError "load_in_4bit must be a boolean value."))
  end.

(** The call [init_bnb_config()] with every default. *)
Definition init_bnb_config_defaults (L : Lib) : M BitsAndBytesConfig :=
  init_bnb_config L (VBool true) (VStr "nf4") (VBool true) (VStr "bfloat16").

(** The values of the defaults. *)
Definition default_config : BitsAndBytesConfig :=
  mkBnb true "nf4" true (VStr "bfloat16").

(** ** [init_model] (lines 54-99) *)

Definition init_model (L : Lib) (bnb_config : BitsAndBytesConfig)
  (model_id : string) : M PyObj :=
  hf_auth <- lib (CEnvironGet "HF_AUTH") (Ok (environ_get L "HF_AUTH")) ;;
  model_config <- lib (CAutoConfigFromPretrained model_id hf_auth)
                      (auto_config_from_pretrained L model_id hf_auth) ;;
  model <- lib (CCausalLMFromPretrained model_id true model_config bnb_config
                  "auto" hf_auth)
               (causal_lm_from_pretrained L model_id true model_config
                  bnb_config "auto" hf_auth) ;;
  lib (CModelEval model) (model_eval L model) ;;;
  tokenizer <- lib (CAutoTokenizerFromPretrained model_id hf_auth)
                   (auto_tokenizer_from_pretrained L model_id hf_auth) ;;
  let args := mkPipelineArgs model tokenizer true "text-generation" "0.01"
                512 "1.1" true in
  generate_text <- lib (CPipeline args) (pipeline L args) ;;
  lib (CHuggingFacePipeline generate_text)
      (hugging_face_pipeline L generate_text).

Definition default_model_id : string := "meta-llama/Llama-2-13b-chat-hf".

(** [init_model(init_bnb_config())], as [query] and the main block call it. *)
Definition init_default_model (L : Lib) : M PyObj :=
  bnb_config <- init_bnb_config_defaults L ;;
  init_model L bnb_config default_model_id.

(** ** Strings and POSIX paths *)

Definition sep : ascii := "/"%char.
Definition extsep : ascii := "."%char.

(** [s[:n]] and [s[n:]] for [0 <= n]. *)
Fixpoint str_take (n : nat) (s : string) : string :=
  match n, s with
  | S n', String c s' => String c (str_take n' s')
  | _, _ => EmptyString
  end.

Fixpoint str_drop (n : nat) (s : string) : string :=
  match n, s with
  | S n', String _ s' => str_drop n' s'
  | _, _ => s
  end.

(** [s.rfind(c)]: the index of the last [c] in [s], or [-1]. *)
Fixpoint rfind (c : ascii) (s : string) : Z :=
  match s with
  | EmptyString => (-1)%Z
  | String d s' =>
    let r := rfind c s' in
    if (0 <=? r)%Z then (r + 1)%Z
    else if Ascii.eqb d c then 0%Z else (-1)%Z
  end.

Definition startswith_char (s : string) (c : ascii) : bool :=
  match s with
  | String d _ => Ascii.eqb d c
  | EmptyString => false
  end.

(** [s.endswith(suffix)] *)
Fixpoint endswith (s suffix : string) : bool :=
  String.eqb s suffix ||
  match s with
  | EmptyString => false
  | String _ s' => endswith s' suffix
  end.

(** [c in s] *)
Fixpoint contains_char (c : ascii) (s : string) : bool :=
  match s with
  | EmptyString => false
  | String d s' => Ascii.eqb d c || contains_char c s'
  end.

(** [s == c * len(s)] *)
Fixpoint all_char (c : ascii) (s : string) : bool :=
  match s with
  | EmptyString => true
  | String d s' => Ascii.eqb d c && all_char c s'
  end.

(** [s.rstrip(c)] *)
Fixpoint rstrip (c : ascii) (s : string) : string :=
  match s with
  | EmptyString => EmptyString
  | String d s' =>
    match rstrip c s' with
    | EmptyString => if Ascii.eqb d c then EmptyString else String d EmptyString
    | r => String d r
    end
  end.

Definition is_empty (s : string) : bool :=
  match s with EmptyString => true | _ => false end.

(** [os.path.join(a, b)] (posixpath) *)
Definition path_join (a b : string) : string :=
  if startswith_char b sep then b
  else if is_empty a || endswith a "/" then a ++ b
  else a ++ "/" ++ b.

(** [os.path.split(p)] (posixpath) *)
Definition path_split (p : string) : string * string :=
  let i := Z.to_nat (rfind sep p + 1) in
  let head := str_take i p in
  let tail := str_drop i p in
  if negb (is_empty head) && negb (all_char sep head)
  then (rstrip sep head, tail)
  else (head, tail).

(** The loop of [genericpath._splitext] over [p[filenameIndex:dotIndex]]:
    it leaves at the first character that is not a dot. *)
Fixpoint has_non_dot (s : string) : bool :=
  match s with
  | EmptyString => false
  | String c s' => if Ascii.eqb c extsep then has_non_dot s' else true
  end.

(** [os.path.splitext(p)] (posixpath) *)
Definition splitext (p : string) : string * string :=
  let sepIndex := rfind sep p in
  let dotIndex := rfind extsep p in
  if (sepIndex <? dotIndex)%Z then
    let filenameIndex := Z.to_nat (sepIndex + 1) in
    if has_non_dot (str_take (Z.to_nat dotIndex - filenameIndex)
                             (str_drop filenameIndex p))
    then (str_take (Z.to_nat dotIndex) p, str_drop (Z.to_nat dotIndex) p)
    else (p, EmptyString)
  else (p, EmptyString).

(** ** [glob.glob] *)

Definition is_magic_char (c : ascii) : bool :=
  Ascii.eqb c "*" || Ascii.eqb c "?" || Ascii.eqb c "[".

(** [glob.has_magic]: the name holds one of the characters [*], [?], [[]. *)
Fixpoint has_magic (s : string) : bool :=
  match s with
  | EmptyString => false
  | String c s' => is_magic_char c || has_magic s'
  end.

(** [glob._ishidden]: the name starts with a dot. *)
Definition ishidden (name : string) : bool := startswith_char name extsep.

(** [fnmatch] on POSIX for a pattern of [*], [?] and literal characters
    (no bracket set); the patterns of the script have this form. *)
Fixpoint fnmatch (name pat : string) : bool :=
  match pat with
  | EmptyString => is_empty name
  | String p pat' =>
    if Ascii.eqb p "*" then
      (fix star (s : string) : bool :=
         fnmatch s pat' ||
         match s with
         | EmptyString => false
         | String _ s' => star s'
         end) name
    else
      match name with
      | EmptyString => false
      | String c name' =>
        (Ascii.eqb p "?" || Ascii.eqb p c) && fnmatch name' pat'
      end
  end.

(** [glob._glob1(dirname, pattern)]: the entries of the directory (of the
    current directory for an empty [dirname]) that are not hidden, unless
    the pattern itself starts with a dot, and that match the pattern; an
    exception of the listing goes through. *)
Definition glob1 (L : Lib) (dirname pattern : string)
  : Result (list string) :=
  match listdir L (if is_empty dirname then "." else dirname) with
  | Raise e => Raise e
  | Ok names =>
    let names := if ishidden pattern then names
                 else filter (fun x => negb (ishidden x)) names in
    Ok (filter (fun x => fnmatch x pattern) names)
  end.

(** The loop of [glob._iglob] over the directories. *)
Fixpoint glob_in_dirs (L : Lib) (dirs : list string) (basename : string)
  : Result (list string) :=
  match dirs with
  | [] => Ok []
  | d :: rest =>
    match glob1 L d basename with
    | Raise e => Raise e
    | Ok names =>
      match glob_in_dirs L rest basename with
      | Raise e => Raise e
      | Ok more => Ok (map (path_join d) names ++ more)
      end
    end
  end.

(** [glob.glob(pathname)] for a [pathname] whose last component holds a
    wildcard (not recursive, hidden entries not included). *)
Definition glob (L : Lib) (pathname : string) : Result (list string) :=
  let (dirname, basename) := path_split pathname in
  if is_empty dirname then glob1 L dirname basename
  else
    match (if negb (String.eqb dirname pathname) && has_magic dirname
           then glob_dirs L dirname else Ok [dirname]) with
    | Raise e => Raise e
    | Ok dirs => glob_in_dirs L dirs basename
    end.

(** ** [user_documents] (lines 102-135) *)

(** The dictionary [loaders]. *)
Definition loaders (ext : string) : option Loader :=
  if String.eqb ext ".pdf" then Some PyPDFLoader
  else if String.eqb ext ".docx" then Some Docx2txtLoader
  else if String.eqb ext ".doc" then Some Docx2txtLoader
  else if String.eqb ext ".txt" then Some TextLoader
  else if String.eqb ext ".xlsx" then Some UnstructuredExcelLoader
  else if String.eqb ext ".pptx" then Some UnstructuredPowerPointLoader
  else None.

Definition file_extensions : list string :=
  [".pdf"; ".docx"; ".doc"; ".txt"; ".xlsx"; ".pptx"].

(** The first loop: [files.extend(glob.glob(os.path.join(directory, '*' +
    extension)))] for each extension. *)
Fixpoint discover (L : Lib) (directory : string) (extensions : list string)
  (files : list string) : M (list string) :=
  match extensions with
  | [] => ret files
  | extension :: rest =>
    let pathname := path_join directory ("*" ++ extension) in
    found <- lib (CGlob pathname) (glob L pathname) ;;
    discover L directory rest (files ++ found)
  end.

(** The second loop: each file is loaded by the loader of its extension. *)
Fixpoint load_files (L : Lib) (files : list string)
  (documents : list Document) : M (list Document) :=
  match files with
  | [] => ret documents
  | file :: rest =>
    let file_extension := snd (splitext file) in
    match loaders file_extension with
    | Some loader =>
      loaded <- lib (CLoaderLoad loader file) (loader_load L loader file) ;;
      load_files L rest (documents ++ loaded)
    | None => load_files L rest documents
    end
  end.

Definition user_documents (L : Lib) (directory : string)
  : M (list Document) :=
  files <- discover L directory file_extensions [] ;;
  documents <- load_files L files [] ;;
  lib (CSplitDocuments 1000 0 documents) (split_documents L 1000 0 documents).

(** ** [pre_rerank] (lines 138-147) *)

(** The list comprehension [[[question, data.page_content] for data in
    docs]] as the list iterator runs it: the list object [docs] is read at
    the current index until the index reaches its length, and each element
    read contributes one fresh two-element list.  The list object is
    threaded through, so that what the loop leaves of it can be stated. *)
Fixpoint comprehension (fuel index : nat) (docs : list Document)
  (question : string) (contents : list (list string))
  : list Document * list (list string) :=
  match fuel with
  | O => (docs, contents)
  | S fuel' =>
    match nth_error docs index with
    | None => (docs, contents)
    | Some data =>
      comprehension fuel' (S index) docs question
        (contents ++ [[question; page_content data]])
    end
  end.

(** Running [pre_rerank]: the list object afterwards, and the value
    returned.  The iterator makes at most [len(docs) + 1] steps. *)
Definition pre_rerank_run (docs : list Document) (question : string)
  : list Document * list (list string) :=
  comprehension (S (List.length docs)) 0 docs question [].

Definition pre_rerank (docs : list Document) (question : string)
  : list (list string) :=
  snd (pre_rerank_run docs question).

(** ** [rerank] (lines 150-169) *)

(** The slice [l[start:]] of a Python sequence, for any integer [start]. *)
Definition slice_from {A} (start : Z) (l : list A) : list A :=
  let n := Z.of_nat (List.length l) in
  let lower := if (start <? 0)%Z then Z.max (start + n) 0
               else Z.min start n in
  skipn (Z.to_nat lower) l.

(** [sorted_indices[-3:][::-1]] *)
Definition top3 (sorted_indices : list nat) : list nat :=
  rev (slice_from (-3) sorted_indices).

(** The loop [for index in top3_indices: context += str(contents[index][1])];
    indexing past the end of a list raises [IndexError].  In [rerank] the
    subscripts of the loop are logged as one call, [CSubscripts]. *)
Fixpoint build_context (contents : list (list string)) (indices : list nat)
  (context : string) : Result string :=
  match indices with
  | [] => Ok context
  | index :: rest =>
    match nth_error contents index with
    | None => Raise IndexError
    | Some item =>
      match nth_error item 1 with
      | None => Raise IndexError
      | Some content => build_context contents rest (context ++ content)
      end
    end
  end.

Definition reranker_name : string := "BAAI/bge-reranker-large".

Definition rerank (L : Lib) (contents : list (list string)) : M string :=
  tokenizer <- lib (CAutoTokenizerFromPretrained reranker_name None)
                   (auto_tokenizer_from_pretrained L reranker_name None) ;;
  model <- lib (CSeqClsFromPretrained reranker_name)
               (seq_cls_from_pretrained L reranker_name) ;;
  lib (CModelEval model) (model_eval L model) ;;;
  inputs <- lib (CTokenize tokenizer contents 512)
                (tokenize L tokenizer contents 512) ;;
  scores <- lib (CLogits model inputs) (logits L model inputs) ;;
  let sorted_indices := argsort L scores in
  let top3_indices := top3 sorted_indices in
  lib (CSubscripts top3_indices) (build_context contents top3_indices "").

(** ** [llm] (lines 172-191) *)

Definition nl : string := String (ascii_of_nat 10) EmptyString.

Definition template_head : string :=
  "Answer the question based only on the context," ++ nl ++ " ".

Definition template_middle : string :=
  " " ++ nl ++ "        " ++ nl ++ "        Question: ".

Definition template_tail : string :=
  " " ++ nl ++ "        Answer in French:" ++ nl ++ "        ".

Definition make_template (context question : string) : string :=
  template_head ++ context ++ template_middle ++ question ++ template_tail.

(** The chain [{"question": RunnablePassthrough()} | prompt | model |
    StrOutputParser()] run on the question: the prompt object makes the
    text of the prompt of it, the model answers that text, the parser
    reads the answer. *)
Definition run_chain (L : Lib) (prompt model : PyObj) (question : string)
  : M string :=
  prompt_text <- lib (CPromptInvoke prompt question)
                     (format_prompt L prompt question) ;;
  raw <- lib (CModelInvoke model prompt_text)
             (model_invoke L model prompt_text) ;;
  lib (CParseOutput raw) (parse_output L raw).

Definition llm (L : Lib) (question : string) (data_base model : PyObj)
  : M string :=
  docs <- lib (CSimilaritySearch data_base question 25)
              (similarity_search L data_base question 25) ;;
  let contents := pre_rerank docs question in
  context <- rerank L contents ;;
  let template := make_template context question in
  prompt <- lib (CFromTemplate template) (from_template L template) ;;
  run_chain L prompt model question.

(** ** [query] (lines 194-199) *)

Definition embeddings_name : string :=
  "sentence-transformers/all-MiniLM-L6-v2".

Definition query (L : Lib) (query_arg docs_path : string) : M string :=
  model <- init_default_model L ;;
  embeddings <- lib (CHuggingFaceEmbeddings embeddings_name)
                    (hugging_face_embeddings L embeddings_name) ;;
  docs <- user_documents L docs_path ;;
  db <- lib (CFaissFromDocuments docs embeddings)
            (faiss_from_documents L docs embeddings) ;;
  llm L query_arg db model.

(** ** The command-line loop (lines 202-211) *)

Definition path_prompt : string := "Enter the path to the documents dir".

Definition query_prompt : string :=
  "Type in your query (type 'exit' to quit):" ++ nl.

(** [input(prompt)] on a standard input holding the lines [stdin]: the next
    line and the lines left, or [EOFError] at the end of the input. *)
Definition input_line (prompt : string) (stdin : list string)
  : M (string * list string) :=
  match stdin with
  | [] => lib (CInput prompt) (Raise EOFError)
  | line :: rest => lib (CInput prompt) (Ok (line, rest))
  end.

(** The [while] loop, entered with the query just read and the lines not
    yet read; the [input] that ends its body is written out so that the
    recursion follows the lines left. *)
Fixpoint repl (L : Lib) (db model : PyObj) (query_var : string)
  (stdin : list string) {struct stdin} : M unit :=
  if String.eqb query_var "exit" then ret tt
  else
    result <- llm L query_var db model ;;
    lib (CPrintLine result) (print_line L result) ;;;
    match stdin with
    | [] => lib (CInput query_prompt) (Raise EOFError)
    | line :: rest =>
      lib (CInput query_prompt) (Ok tt) ;;; repl L db model line rest
    end.

Definition main (L : Lib) (stdin : list string) : M unit :=
  model <- init_default_model L ;;
  embeddings <- lib (CHuggingFaceEmbeddings embeddings_name)
                    (hugging_face_embeddings L embeddings_name) ;;
  path_in <- input_line path_prompt stdin ;;
  docs <- user_documents L (fst path_in) ;;
  db <- lib (CFaissFromDocuments docs embeddings)
            (faiss_from_documents L docs embeddings) ;;
  query_in <- input_line query_prompt (snd path_in) ;;
  repl L db model (fst query_in) (snd query_in).

(** ** Specifications *)

(** *** Sorting by score *)

Definition score_at (scores : list Z) (i : nat) : Z := nth i scores 0%Z.

(** What [np.argsort(scores)] promises for scores that are numbers: the
    indices of [scores], each once, in ascending order of score.  The
    default sort is not stable, so nothing is said of the order of ties. *)
Definition is_argsort (scores : list Z) (indices : list nat) : Prop :=
  Permutation indices (seq 0 (List.length scores)) /\
  StronglySorted (fun i j => (score_at scores i <= score_at scores j)%Z)
                 indices.

(** A reference implementation of [argsort], by insertion. *)
Fixpoint insert_index (scores : list Z) (i : nat) (sorted : list nat)
  : list nat :=
  match sorted with
  | [] => [i]
  | j :: rest =>
    if (score_at scores i <=? score_at scores j)%Z then i :: j :: rest
    else j :: insert_index scores i rest
  end.

Definition insertion_argsort (scores : list Z) : list nat :=
  fold_right (insert_index scores) [] (seq 0 (List.length scores)).

(** The strings of a list, one after the other. *)
Definition concat_all (l : list string) : string :=
  fold_right String.append "" l.

(** [contents[i][1]] *)
Definition content_at (contents : list (list string)) (i : nat) : string :=
  nth 1 (nth i contents []) "".

(** [result] is the concatenation of the contents of [k] distinct entries
    of [contents], in descending order of score, none of which is beaten by
    an entry left out. *)
Definition is_top_concat (k : nat) (contents : list (list string))
  (scores : list Z) (result : string) : Prop :=
  exists selected : list nat,
    List.length selected = k /\
    NoDup selected /\
    Forall (fun i => i < List.length contents) selected /\
    StronglySorted (fun i j => (score_at scores j <= score_at scores i)%Z)
                   selected /\
    (forall i m, In i selected -> m < List.length contents ->
                 ~ In m selected ->
                 (score_at scores m <= score_at scores i)%Z) /\
    result = concat_all (map (content_at contents) selected).

(** *** Exceptions *)

(** Whenever a library call of the run raised, it was the last call the
    run made, and the run ended in that very exception. *)
Definition propagates {A} (m : M A) : Prop :=
  forall before c e after,
    fst m = before ++ mkEvent c (Some e) :: after ->
    after = [] /\ snd m = Raise e.

(** A run that ends in an exception ends in the exception that its last
    call raised: the run raises nothing of its own and changes no
    exception on the way. *)
Definition fails_with_last_call {A} (m : M A) : Prop :=
  forall e,
    snd m = Raise e ->
    exists before c, fst m = before ++ [mkEvent c (Some e)].

(** *** File discovery *)

(** The part of the path that [os.path.join] puts before the name. *)
Definition join_prefix (a : string) : string :=
  if is_empty a || endswith a "/" then a else (a ++ "/")%string.

(** The directory name [os.path.split] leaves of a prefix. *)
Definition split_head (head : string) : string :=
  if negb (is_empty head) && negb (all_char sep head)
  then rstrip sep head else head.

(** The directory name that [glob] lists for the patterns of
    [user_documents]. *)
Definition glob_dirname (directory : string) : string :=
  fst (path_split (path_join directory "*")).

(** The listing of that directory: its entries, or the exception that
    [glob] lets through. *)
Definition listing (L : Lib) (directory : string) : Result (list string) :=
  let dirname := glob_dirname directory in
  listdir L (if is_empty dirname then "." else dirname).

(** No entry of a directory has a slash in its name. *)
Definition names_without_sep (L : Lib) : Prop :=
  forall d names name,
    listdir L d = Ok names -> In name names ->
    contains_char sep name = false.

(** [files] are exactly those of the entries [names] of the directory
    whose names end in one of the six extensions. *)
Definition selects_by_extension (names : list string) (directory : string)
  (files : list string) : Prop :=
  forall file,
    In file files <->
    exists name extension,
      In name names /\
      In extension file_extensions /\
      endswith name extension = true /\
      file = path_join (glob_dirname directory) name.

(** The same, of the entries that are not hidden. *)
Definition selects_visible_by_extension (names : list string)
  (directory : string) (files : list string) : Prop :=
  forall file,
    In file files <->
    exists name extension,
      In name names /\
      ishidden name = false /\
      In extension file_extensions /\
      endswith name extension = true /\
      file = path_join (glob_dirname directory) name.

(** The files picked among the entries [names] of a directory: for each
    extension in turn, the entries that are not hidden and whose name ends
    in it, as paths. *)
Definition selected_files (names : list string) (directory : string)
  : list string :=
  flat_map
    (fun extension =>
       map (path_join (glob_dirname directory))
           (filter (fun name => endswith name extension)
                   (filter (fun name => negb (ishidden name)) names)))
    file_extensions.

(** [file] has been loaded into [docs], by the loader of its extension. *)
Definition loaded_by_extension (L : Lib) (file : string)
  (docs : list Document) : Prop :=
  exists loader,
    loaders (snd (splitext file)) = Some loader /\
    loader_load L loader file = Ok docs.

(** *** The session *)

(** The queries handed to the vector store, with the store they went to. *)
Fixpoint submitted (cs : list Call) : list (PyObj * string) :=
  match cs with
  | [] => []
  | CSimilaritySearch db q _ :: rest => (db, q) :: submitted rest
  | _ :: rest => submitted rest
  end.

(** The texts printed. *)
Fixpoint printed (cs : list Call) : list string :=
  match cs with
  | [] => []
  | CPrintLine s :: rest => s :: printed rest
  | _ :: rest => printed rest
  end.

Definition is_model_build (c : Call) : bool :=
  match c with CCausalLMFromPretrained _ _ _ _ _ _ => true | _ => false end.

Definition is_index_build (c : Call) : bool :=
  match c with CFaissFromDocuments _ _ => true | _ => false end.

Definition is_search (c : Call) : bool :=
  match c with CSimilaritySearch _ _ _ => true | _ => false end.

Definition is_query_prompt (c : Call) : bool :=
  match c with CInput p => String.eqb p query_prompt | _ => false end.

(** The lines typed before the first [exit]. *)
Fixpoint until_exit (lines : list string) : list string :=
  match lines with
  | [] => []
  | line :: rest =>
    if String.eqb line "exit" then [] else line :: until_exit rest
  end.

(** [l1] is an initial segment of [l2]. *)
Definition prefix_of {A} (l1 l2 : list A) : Prop :=
  exists rest, l2 = l1 ++ rest.

(** What a run of [llm] meets on its way: the documents retrieved, the
    cross-encoder's tokenizer and model, the tokenized pairs, the indices
    selected, the context built, the prompt object, the text of the prompt
    and the raw answer of the model. *)
Record LlmRun : Type := mkLlmRun {
  run_docs : list Document;
  run_tokenizer : PyObj;
  run_reranker : PyObj;
  run_inputs : PyObj;
  run_indices : list nat;
  run_context : string;
  run_prompt : PyObj;
  run_prompt_text : string;
  run_raw : string
}.

(** The calls of a complete run of [llm], in order: retrieval, the calls
    of [rerank], the prompt, then the model and the parser. *)
Definition llm_calls (question : string) (data_base model : PyObj)
  (r : LlmRun) : list Call :=
  [ CSimilaritySearch data_base question 25;
    CAutoTokenizerFromPretrained reranker_name None;
    CSeqClsFromPretrained reranker_name;
    CModelEval (run_reranker r);
    CTokenize (run_tokenizer r) (pre_rerank (run_docs r) question) 512;
    CLogits (run_reranker r) (run_inputs r);
    CSubscripts (run_indices r);
    CFromTemplate (make_template (run_context r) question);
    CPromptInvoke (run_prompt r) question;
    CModelInvoke model (run_prompt_text r);
    CParseOutput (run_raw r) ].

(** Every call of [r] answered in the environment [L], up to the model. *)
Definition llm_answers (L : Lib) (question : string)
  (data_base model : PyObj) (r : LlmRun) : Prop :=
  similarity_search L data_base question 25 = Ok (run_docs r) /\
  auto_tokenizer_from_pretrained L reranker_name None
  = Ok (run_tokenizer r) /\
  seq_cls_from_pretrained L reranker_name = Ok (run_reranker r) /\
  model_eval L (run_reranker r) = Ok tt /\
  tokenize L (run_tokenizer r) (pre_rerank (run_docs r) question) 512
  = Ok (run_inputs r) /\
  (exists scores,
      logits L (run_reranker r) (run_inputs r) = Ok scores /\
      run_indices r = top3 (argsort L scores)) /\
  build_context (pre_rerank (run_docs r) question) (run_indices r) ""
  = Ok (run_context r) /\
  from_template L (make_template (run_context r) question)
  = Ok (run_prompt r) /\
  format_prompt L (run_prompt r) question = Ok (run_prompt_text r) /\
  model_invoke L model (run_prompt_text r) = Ok (run_raw r).

(** The text that the prompt library makes of a template and of the
    question, the only two things it is given. *)
Definition rendered_prompt (L : Lib) (template question : string)
  : Result string :=
  match from_template L template with
  | Ok prompt => format_prompt L prompt question
  | Raise e => Raise e
  end.

(** What the main block does before its loop: the objects it builds and
    the first query read, with the lines left. *)
Definition main_setup (L : Lib) (stdin : list string)
  : M (PyObj * PyObj * (string * list string)) :=
  model <- init_default_model L ;;
  embeddings <- lib (CHuggingFaceEmbeddings embeddings_name)
                    (hugging_face_embeddings L embeddings_name) ;;
  path_in <- input_line path_prompt stdin ;;
  docs <- user_documents L (fst path_in) ;;
  db <- lib (CFaissFromDocuments docs embeddings)
            (faiss_from_documents L docs embeddings) ;;
  query_in <- input_line query_prompt (snd path_in) ;;
  ret (db, model, query_in).

(** A call that neither queries the vector store nor builds the model or
    the index. *)
Definition is_quiet (c : Call) : bool :=
  negb (is_search c) && negb (is_model_build c) && negb (is_index_build c).

(** A call of the loop working on the index [db] with the model [model]:
    nothing is built, a search goes to [db] and does not ask for [exit],
    the chain runs on [model]. *)
Definition session_call (db model : PyObj) (c : Call) : Prop :=
  is_model_build c = false /\ is_index_build c = false /\
  match c with
  | CSimilaritySearch d q k => d = db /\ q <> "exit" /\ k = 25
  | CModelInvoke m _ => m = model
  | _ => True
  end.

(** *** An environment to run the script in *)

Definition doc (text : string) : Document := mkDocument text [].

(** Every call succeeds; the directory [docs] holds the entries [names],
    a loaded file yields one document holding its own path, the vector
    store answers with four documents and the cross-encoder with
    [scores]. *)
Definition demo_lib (names : list string) (scores : list Z) : Lib :=
  {| bits_and_bytes_config_error := fun _ => None;
     environ_get := fun _ => None;
     auto_config_from_pretrained := fun _ _ => Ok (Obj 1);
     causal_lm_from_pretrained := fun _ _ _ _ _ _ => Ok (Obj 2);
     model_eval := fun _ => Ok tt;
     auto_tokenizer_from_pretrained := fun _ _ => Ok (Obj 3);
     pipeline := fun _ => Ok (Obj 4);
     hugging_face_pipeline := fun _ => Ok (Obj 5);
     hugging_face_embeddings := fun _ => Ok (Obj 6);
     listdir := fun d => if String.eqb d "docs" then Ok names else Ok [];
     glob_dirs := fun _ => Ok [];
     loader_load := fun _ file => Ok [doc file];
     split_documents := fun _ _ documents => Ok documents;
     faiss_from_documents := fun _ _ => Ok (Obj 7);
     similarity_search := fun _ _ _ =>
       Ok [doc "alpha"; doc "beta"; doc "gamma"; doc "delta"];
     seq_cls_from_pretrained := fun _ => Ok (Obj 8);
     tokenize := fun _ _ _ => Ok (Obj 9);
     logits := fun _ _ => Ok scores;
     argsort := insertion_argsort;
     from_template := fun _ => Ok (Obj 10);
     format_prompt := fun _ q => Ok q;
     model_invoke := fun _ text => Ok ("answer to " ++ text)%string;
     parse_output := fun raw => Ok raw;
     print_line := fun _ => Ok tt |}.

(** [L] with another answer for directory names that hold wildcards. *)
Definition with_glob_dirs (L : Lib)
  (dirs : string -> Result (list string)) : Lib :=
  {| bits_and_bytes_config_error := bits_and_bytes_config_error L;
     environ_get := environ_get L;
     auto_config_from_pretrained := auto_config_from_pretrained L;
     causal_lm_from_pretrained := causal_lm_from_pretrained L;
     model_eval := model_eval L;
     auto_tokenizer_from_pretrained := auto_tokenizer_from_pretrained L;
     pipeline := pipeline L;
     hugging_face_pipeline := hugging_face_pipeline L;
     hugging_face_embeddings := hugging_face_embeddings L;
     listdir := listdir L;
     glob_dirs := dirs;
     loader_load := loader_load L;
     split_documents := split_documents L;
     faiss_from_documents := faiss_from_documents L;
     similarity_search := similarity_search L;
     seq_cls_from_pretrained := seq_cls_from_pretrained L;
     tokenize := tokenize L;
     logits := logits L;
     argsort := argsort L;
     from_template := from_template L;
     format_prompt := format_prompt L;
     model_invoke := model_invoke L;
     parse_output := parse_output L;
     print_line := print_line L |}.

(** [L] with another listing of directories. *)
Definition with_listdir (L : Lib)
  (entries : string -> Result (list string)) : Lib :=
  {| bits_and_bytes_config_error := bits_and_bytes_config_error L;
     environ_get := environ_get L;
     auto_config_from_pretrained := auto_config_from_pretrained L;
     causal_lm_from_pretrained := causal_lm_from_pretrained L;
     model_eval := model_eval L;
     auto_tokenizer_from_pretrained := auto_tokenizer_from_pretrained L;
     pipeline := pipeline L;
     hugging_face_pipeline := hugging_face_pipeline L;
     hugging_face_embeddings := hugging_face_embeddings L;
     listdir := entries;
     glob_dirs := glob_dirs L;
     loader_load := loader_load L;
     split_documents := split_documents L;
     faiss_from_documents := faiss_from_documents L;
     similarity_search := similarity_search L;
     seq_cls_from_pretrained := seq_cls_from_pretrained L;
     tokenize := tokenize L;
     logits := logits L;
     argsort := argsort L;
     from_template := from_template L;
     format_prompt := format_prompt L;
     model_invoke := model_invoke L;
     parse_output := parse_output L;
     print_line := print_line L |}.

(** [L] with a constructor of [BitsAndBytesConfig] that turns down a class
    given as compute dtype, as the library does. *)
Definition with_strict_config (L : Lib) : Lib :=
  {| bits_and_bytes_config_error := fun config =>
       match bnb_4bit_compute_dtype config with
       | VType _ =>
         Some (ValueError
                 "bnb_4bit_compute_dtype must be a string or a torch.dtype")
       | _ => None
       end;
     environ_get := environ_get L;
     auto_config_from_pretrained := auto_config_from_pretrained L;
     causal_lm_from_pretrained := causal_lm_from_pretrained L;
     model_eval := model_eval L;
     auto_tokenizer_from_pretrained := auto_tokenizer_from_pretrained L;
     pipeline := pipeline L;
     hugging_face_pipeline := hugging_face_pipeline L;
     hugging_face_embeddings := hugging_face_embeddings L;
     listdir := listdir L;
     glob_dirs := glob_dirs L;
     loader_load := loader_load L;
     split_documents := split_documents L;
     faiss_from_documents := faiss_from_documents L;
     similarity_search := similarity_search L;
     seq_cls_from_pretrained := seq_cls_from_pretrained L;
     tokenize := tokenize L;
     logits := logits L;
     argsort := argsort L;
     from_template := from_template L;
     format_prompt := format_prompt L;
     model_invoke := model_invoke L;
     parse_output := parse_output L;
     print_line := print_line L |}.

Definition demo_names : list string :=
  ["a.pdf"; ".notes.txt"; "b.txt"; "c.md"; "d.tar.docx"].

Definition demo_scores : list Z := [2; 7; 1; 5]%Z.

(** *** Further vocabulary for runs *)

(** What [query] does before it asks: the index and the model it builds. *)
Definition build_index (L : Lib) (docs_path : string) : M (PyObj * PyObj) :=
  model <- init_default_model L ;;
  embeddings <- lib (CHuggingFaceEmbeddings embeddings_name)
                    (hugging_face_embeddings L embeddings_name) ;;
  docs <- user_documents L docs_path ;;
  db <- lib (CFaissFromDocuments docs embeddings)
            (faiss_from_documents L docs embeddings) ;;
  ret (db, model).

(** The files handed to a loader, in the order of the calls. *)
Fixpoint loaded_files (cs : list Call) : list string :=
  match cs with
  | [] => []
  | CLoaderLoad _ file :: rest => file :: loaded_files rest
  | _ :: rest => loaded_files rest
  end.

Definition is_reranker_load (c : Call) : bool :=
  match c with CSeqClsFromPretrained _ => true | _ => false end.

Definition is_split (c : Call) : bool :=
  match c with CSplitDocuments _ _ _ => true | _ => false end.

Definition is_input (c : Call) : bool :=
  match c with CInput _ => true | _ => false end.

(** A call that neither queries the vector store nor prints. *)
Definition is_silent (c : Call) : bool :=
  match c with
  | CSimilaritySearch _ _ _ | CPrintLine _ => false
  | _ => true
  end.

(** The calls of a complete run of [init_model], in order. *)
Definition init_model_calls_list (model_id : string) (auth : option string)
  (bnb_config : BitsAndBytesConfig)
  (model_config model tokenizer generate_text : PyObj) : list Call :=
  [ CEnvironGet "HF_AUTH";
    CAutoConfigFromPretrained model_id auth;
    CCausalLMFromPretrained model_id true model_config bnb_config "auto" auth;
    CModelEval model;
    CAutoTokenizerFromPretrained model_id auth;
    CPipeline (mkPipelineArgs model tokenizer true "text-generation" "0.01"
                 512 "1.1" true);
    CHuggingFacePipeline generate_text ].

(** Some index of [indices] cannot be read: it lies past the end of
    [contents], or the entry there has no second element. *)
Definition bad_index (contents : list (list string)) (indices : list nat)
  : Prop :=
  exists index,
    In index indices /\
    (List.length contents <= index \/
     List.length (nth index contents []) < 2).


(** * Properties *)

(** ** The script at work *)

Example splitext_examples :
  splitext "docs/report.v2.pdf" = ("docs/report.v2", ".pdf") /\
  splitext "docs/.bashrc" = ("docs/.bashrc", "") /\
  splitext "archive.d/readme" = ("archive.d/readme", "").
Proof. repeat split. Qed.

Example path_split_examples :
  path_split "docs//*.pdf" = ("docs", "*.pdf") /\
  path_split "/*.pdf" = ("/", "*.pdf") /\
  path_split "*.pdf" = ("", "*.pdf").
Proof. repeat split. Qed.

Example glob_example :
  glob (demo_lib demo_names demo_scores) (path_join "docs/" "*.doc")
  = Ok [] /\
  glob (demo_lib demo_names demo_scores) (path_join "docs" "*.docx")
  = Ok ["docs/d.tar.docx"] /\
  glob (with_listdir (demo_lib demo_names demo_scores)
          (fun _ => Raise (ValueError "embedded null byte")))
       (path_join "docs" "*.pdf")
  = Raise (ValueError "embedded null byte").
Proof. repeat split. Qed.

Example user_documents_example :
  snd (user_documents (demo_lib demo_names demo_scores) "docs")
  = Ok [doc "docs/a.pdf"; doc "docs/d.tar.docx"; doc "docs/b.txt"].
Proof. reflexivity. Qed.

Example top3_examples :
  top3 [2; 0; 3; 1] = [1; 3; 0] /\ top3 [1; 0] = [0; 1] /\ top3 [] = [].
Proof. repeat split. Qed.

Example rerank_example :
  snd (rerank (demo_lib demo_names demo_scores)
              (pre_rerank [doc "alpha"; doc "beta"; doc "gamma"; doc "delta"]
                          "q"))
  = Ok "betadeltaalpha".
Proof. reflexivity. Qed.

Example init_bnb_config_examples :
  let L := with_strict_config (demo_lib demo_names demo_scores) in
  snd (init_bnb_config L (VInt 1) (VStr "nf4") (VBool true) (VStr "bfloat16"))
  = Raise (ValueError "load_in_4bit must be a boolean value.") /\
  snd (init_bnb_config L (VBool true) (VStr "nf4") (VBool true)
                       (VObj "torch.dtype"))
  = Raise (ValueError "bnb_4bit_compute_dtype must be a valid data type.") /\
  snd (init_bnb_config L (VBool false) (VStr "fp4") (VBool false)
                       (VType "float"))
  = Raise (ValueError
             "bnb_4bit_compute_dtype must be a string or a torch.dtype") /\
  snd (init_bnb_config L (VBool false) (VStr "fp4") (VBool false)
                       (VStr "float16"))
  = Ok (mkBnb false "fp4" false (VStr "float16")).
Proof. repeat split. Qed.

Example main_example :
  snd (main (demo_lib demo_names demo_scores)
            ["docs"; "hello"; "exit"; "never read"]) = Ok tt /\
  submitted (calls (fst (main (demo_lib demo_names demo_scores)
                              ["docs"; "hello"; "exit"; "never read"])))
  = [(Obj 7, "hello")] /\
  printed (calls (fst (main (demo_lib demo_names demo_scores)
                            ["docs"; "hello"; "exit"; "never read"])))
  = ["answer to hello"] /\
  snd (main (demo_lib demo_names demo_scores) ["docs"; "hello"])
  = Raise EOFError.
Proof. repeat split. Qed.

(** ** [init_bnb_config] *)

Lemma ill_typed_iff (a b c d : PyVal) :
  well_typed_args a b c d = false <->
  (isinstance_bool a = false \/ isinstance_str b = false \/
   isinstance_bool c = false \/ isinstance_type_or_str d = false).
Proof.
  unfold well_typed_args. rewrite !andb_false_iff. tauto.
Qed.

(** The two ways of [init_bnb_config]: one of its own four errors, without
    a library call, on ill-typed arguments; otherwise the call of the
    constructor on the four values. *)
Lemma init_bnb_config_cases (L : Lib) (a b c d : PyVal) :
  (well_typed_args a b c d = false /\
   exists msg, init_bnb_config L a b c d = ([], Raise (ValueError msg))) \/
  (well_typed_args a b c d = true /\
   exists l4 qt dq,
     a = VBool l4 /\ b = VStr qt /\ c = VBool dq /\
     init_bnb_config L a b c d
     = lib (CBitsAndBytesConfig (mkBnb l4 qt dq d))
           (construct_config L (mkBnb l4 qt dq d))).
Proof.
  unfold init_bnb_config, well_typed_args.
  destruct a; try (left; split; [reflexivity | eexists; reflexivity]).
  destruct b; try (left; split; [reflexivity | eexists; reflexivity]).
  destruct c; try (left; split; [reflexivity | eexists; reflexivity]).
  cbn [isinstance_bool isinstance_str andb].
  destruct (isinstance_type_or_str d).
  - right. split; [reflexivity |]. do 3 eexists. repeat split.
  - left. split; [reflexivity | eexists; reflexivity].
Qed.

(** C7, as amended.  [init_bnb_config] raises a [ValueError] of its own,
    before any call of the library, exactly when one of its four arguments
    has a type it does not accept.  When the four are well typed it calls
    the constructor of [BitsAndBytesConfig] on them, and ends as that call
    ends: in the object holding the four values, or in the exception the
    constructor raised; it ends in no other exception.  With the defaults
    the constructor is called on 4-bit loading, [nf4], double
    quantization and [bfloat16]. *)
Theorem init_bnb_config_raises_iff_ill_typed (L : Lib) (a b c d : PyVal) :
  ((exists msg, init_bnb_config L a b c d = ([], Raise (ValueError msg))) <->
   (isinstance_bool a = false \/ isinstance_str b = false \/
    isinstance_bool c = false \/ isinstance_type_or_str d = false)) /\
  (forall l4 qt dq, a = VBool l4 -> b = VStr qt -> c = VBool dq ->
     isinstance_type_or_str d = true ->
     init_bnb_config L a b c d
     = lib (CBitsAndBytesConfig (mkBnb l4 qt dq d))
           (construct_config L (mkBnb l4 qt dq d))) /\
  (forall cfg,
     snd (init_bnb_config L a b c d) = Ok cfg <->
     well_typed_args a b c d = true /\
     a = VBool (load_in_4bit cfg) /\ b = VStr (bnb_4bit_quant_type cfg) /\
     c = VBool (bnb_4bit_use_double_quant cfg) /\
     d = bnb_4bit_compute_dtype cfg /\
     bits_and_bytes_config_error L cfg = None) /\
  (forall e,
     snd (init_bnb_config L a b c d) = Raise e ->
     (well_typed_args a b c d = false /\ exists msg, e = ValueError msg) \/
     (well_typed_args a b c d = true /\
      exists cfg, bits_and_bytes_config_error L cfg = Some e /\
                  fst (init_bnb_config L a b c d)
                  = [mkEvent (CBitsAndBytesConfig cfg) (Some e)])) /\
  init_bnb_config_defaults L
  = lib (CBitsAndBytesConfig default_config)
        (construct_config L default_config).
Proof.
  split; [| split; [| split; [| split]]].
  - rewrite <- ill_typed_iff. split.
    + intros [msg H].
      destruct (init_bnb_config_cases L a b c d)
        as [[W _] | [_ (l4 & qt & dq & _ & _ & _ & E)]]; [exact W |].
      rewrite E in H. discriminate H.
    + intro W.
      destruct (init_bnb_config_cases L a b c d)
        as [[_ H] | [W' _]]; [exact H |].
      rewrite W in W'. discriminate W'.
  - intros l4 qt dq -> -> -> Hd. unfold init_bnb_config. rewrite Hd.
    reflexivity.
  - intro cfg.
    destruct (init_bnb_config_cases L a b c d)
      as [[W [msg E]] | [W (l4 & qt & dq & -> & -> & -> & E)]];
      rewrite E; cbn [snd lib].
    + split; [discriminate | intros [W' _]; rewrite W in W'; discriminate].
    + unfold construct_config.
      destruct (bits_and_bytes_config_error L (mkBnb l4 qt dq d))
        as [e |] eqn:Ee.
      * split; [discriminate |].
        intros (_ & Ha & Hb & Hc & Hd & Hn).
        inversion Ha; inversion Hb; inversion Hc.
        destruct cfg as [l4' qt' dq' d']. cbn in *. subst.
        rewrite Ee in Hn. discriminate Hn.
      * split.
        -- intro H. unfold lib in H. cbn [snd] in H. inversion H; subst cfg.
           cbn. repeat split; first [reflexivity | exact W | exact Ee].
        -- intros (_ & Ha & Hb & Hc & Hd & _).
           inversion Ha; inversion Hb; inversion Hc.
           destruct cfg as [l4' qt' dq' d']. cbn in *. subst. reflexivity.
  - intros e.
    destruct (init_bnb_config_cases L a b c d)
      as [[W [msg E]] | [W (l4 & qt & dq & -> & -> & -> & E)]];
      rewrite E; cbn [fst snd lib]; intro H.
    + left. split; [exact W |]. inversion H. eexists; reflexivity.
    + right. split; [exact W |]. exists (mkBnb l4 qt dq d).
      unfold construct_config in *.
      destruct (bits_and_bytes_config_error L (mkBnb l4 qt dq d));
        inversion H; subst. split; reflexivity.
  - reflexivity.
Qed.

(** C7 as stated fails on well-typed arguments that the constructor of
    the library turns down, such as a class given as compute dtype:
    [init_bnb_config] then ends in a [ValueError] although none of its
    arguments has a wrong type. *)
Lemma init_bnb_config_well_typed_can_raise :
  well_typed_args (VBool false) (VStr "fp4") (VBool false) (VType "float")
  = true /\
  snd (init_bnb_config (with_strict_config (demo_lib demo_names demo_scores))
         (VBool false) (VStr "fp4") (VBool false) (VType "float"))
  = Raise (ValueError
             "bnb_4bit_compute_dtype must be a string or a torch.dtype").
Proof. split; reflexivity. Qed.

(** ** Computations *)

Lemma bind_pure {A B} (a : A) (k : A -> M B) : bind ([], Ok a) k = k a.
Proof. unfold bind. destruct (k a); reflexivity. Qed.

Lemma bind_ok {A B} (t : Trace) (a : A) (k : A -> M B) :
  bind (t, Ok a) k = (t ++ fst (k a), snd (k a)).
Proof. unfold bind. destruct (k a); reflexivity. Qed.

Lemma bind_raise {A B} (t : Trace) (e : Exn) (k : A -> M B) :
  bind (t, Raise e) k = (t, Raise e).
Proof. reflexivity. Qed.

Lemma bind_lib_ok {A B} (c : Call) (a : A) (k : A -> M B) :
  bind (lib c (Ok a)) k = (mkEvent c None :: fst (k a), snd (k a)).
Proof. unfold lib. rewrite bind_ok. reflexivity. Qed.

Lemma bind_lib_raise {A B} (c : Call) (e : Exn) (k : A -> M B) :
  bind (lib c (Raise e)) k = ([mkEvent c (Some e)], Raise e).
Proof. reflexivity. Qed.

Lemma bind_assoc {A B C} (m : M A) (f : A -> M B) (g : B -> M C) :
  bind (bind m f) g = bind m (fun x => bind (f x) g).
Proof.
  destruct m as [t [a | e]]; [| reflexivity].
  rewrite !bind_ok. destruct (f a) as [t' [b | e]]; simpl.
  - rewrite !bind_ok. simpl. rewrite app_assoc. reflexivity.
  - rewrite !bind_raise. reflexivity.
Qed.

Lemma bind_ext {A B} (m : M A) (f g : A -> M B) :
  (forall a, f a = g a) -> bind m f = bind m g.
Proof.
  intro H. destruct m as [t [a | e]]; [| reflexivity].
  rewrite !bind_ok, H. reflexivity.
Qed.

(** Case analysis on the answer of every library call of a run. *)
Ltac answer_cases :=
  repeat match goal with
         | |- context [bind (lib ?c ?r) _] =>
           let E := fresh "E" in
           destruct r eqn:E;
           [ rewrite bind_lib_ok | rewrite bind_lib_raise ]; cbn [fst snd]
         | |- context [bind (@pair _ _ (@nil _) ?r) _] =>
           let E := fresh "E" in
           destruct r eqn:E;
           [ rewrite bind_pure | rewrite bind_raise ]; cbn [fst snd]
         end.

Ltac in_cases H :=
  simpl in H;
  repeat match type of H with
         | _ \/ _ => destruct H as [H | H]
         | False => destruct H
         end;
  try discriminate H.

(** ** [init_model] *)

Lemma init_model_loader_config (L : Lib) (cfg : BitsAndBytesConfig)
  (model_id mid : string) trc conf q dm auth :
  In (CCausalLMFromPretrained mid trc conf q dm auth)
     (calls (fst (init_model L cfg model_id))) ->
  q = cfg.
Proof.
  unfold init_model, calls.
  rewrite bind_lib_ok. cbn [fst snd].
  answer_cases; unfold lib; intro H; in_cases H; inversion H; reflexivity.
Qed.

(** [init_model(init_bnb_config())]: the constructor is called on the
    defaults; if it raises, that is the end; otherwise [init_model] runs on
    the object holding the defaults. *)
Lemma init_default_model_cases (L : Lib) :
  (exists e,
      bits_and_bytes_config_error L default_config = Some e /\
      init_default_model L
      = ([mkEvent (CBitsAndBytesConfig default_config) (Some e)], Raise e)) \/
  (bits_and_bytes_config_error L default_config = None /\
   init_default_model L
   = (mkEvent (CBitsAndBytesConfig default_config) None
        :: fst (init_model L default_config default_model_id),
      snd (init_model L default_config default_model_id))).
Proof.
  unfold init_default_model, init_bnb_config_defaults.
  cbn [init_bnb_config isinstance_type_or_str]. fold default_config.
  unfold construct_config.
  destruct (bits_and_bytes_config_error L default_config) as [e |].
  - left. exists e. split; [reflexivity |].
    rewrite bind_lib_raise. reflexivity.
  - right. split; [reflexivity |]. rewrite bind_lib_ok. reflexivity.
Qed.

(** C6. Quantization is left to the configuration object: whatever
    configuration [init_model] is given, every call it makes to the model
    loader carries that configuration unchanged, and the loader is called
    with it as soon as the model's own configuration is loaded; with the
    defaults, [init_bnb_config] calls the constructor on 4-bit loading,
    type [nf4], double quantization, compute dtype [bfloat16], the object
    it returns holds these, and it is the configuration of every loader
    call of [init_model(init_bnb_config())], which makes that call once
    the constructor and the load of the model's configuration have
    answered. *)
Theorem init_model_delegates_quantization (L : Lib)
  (bnb_config : BitsAndBytesConfig) (model_id : string) :
  (forall mid trc conf q dm auth,
      In (CCausalLMFromPretrained mid trc conf q dm auth)
         (calls (fst (init_model L bnb_config model_id))) ->
      q = bnb_config) /\
  (forall conf,
      auto_config_from_pretrained L model_id (environ_get L "HF_AUTH")
        = Ok conf ->
      In (CCausalLMFromPretrained model_id true conf bnb_config "auto"
            (environ_get L "HF_AUTH"))
         (calls (fst (init_model L bnb_config model_id)))) /\
  (init_bnb_config_defaults L
   = lib (CBitsAndBytesConfig (mkBnb true "nf4" true (VStr "bfloat16")))
         (construct_config L (mkBnb true "nf4" true (VStr "bfloat16"))) /\
   (bits_and_bytes_config_error L (mkBnb true "nf4" true (VStr "bfloat16"))
    = None ->
    snd (init_bnb_config_defaults L)
    = Ok (mkBnb true "nf4" true (VStr "bfloat16"))) /\
   (forall cfg,
       snd (init_bnb_config_defaults L) = Ok cfg ->
       cfg = mkBnb true "nf4" true (VStr "bfloat16"))) /\
  (forall mid trc conf q dm auth,
      In (CCausalLMFromPretrained mid trc conf q dm auth)
         (calls (fst (init_default_model L))) ->
      q = mkBnb true "nf4" true (VStr "bfloat16")) /\
  (forall conf,
      bits_and_bytes_config_error L (mkBnb true "nf4" true (VStr "bfloat16"))
      = None ->
      auto_config_from_pretrained L default_model_id
        (environ_get L "HF_AUTH") = Ok conf ->
      In (CCausalLMFromPretrained default_model_id true conf
            (mkBnb true "nf4" true (VStr "bfloat16")) "auto"
            (environ_get L "HF_AUTH"))
         (calls (fst (init_default_model L)))).
Proof.
  assert (Hloader : forall cfg mid conf,
             auto_config_from_pretrained L mid (environ_get L "HF_AUTH")
             = Ok conf ->
             In (CCausalLMFromPretrained mid true conf cfg "auto"
                   (environ_get L "HF_AUTH"))
                (calls (fst (init_model L cfg mid)))).
  { intros cfg mid conf Hc. unfold init_model, calls.
    rewrite bind_lib_ok. cbn [fst snd]. rewrite Hc.
    rewrite bind_lib_ok. cbn [fst snd].
    answer_cases; unfold lib; simpl; right; right; left; reflexivity. }
  split; [| split; [| split; [| split]]].
  - intros mid trc conf q dm auth. apply init_model_loader_config.
  - apply Hloader.
  - split; [reflexivity |]. fold default_config.
    unfold init_bnb_config_defaults.
    cbn [init_bnb_config isinstance_type_or_str]. fold default_config.
    unfold lib, construct_config. cbn [snd]. split.
    + intros ->. reflexivity.
    + intro cfg.
      destruct (bits_and_bytes_config_error L default_config);
        intro H; inversion H; reflexivity.
  - intros mid trc conf q dm auth. fold default_config.
    destruct (init_default_model_cases L) as [(e & _ & ->) | (_ & ->)];
      cbn [fst calls map ev_call]; intro H.
    + in_cases H.
    + destruct H as [H | H]; [discriminate H |].
      apply (init_model_loader_config _ _ _ _ _ _ _ _ _ H).
  - intros conf Hn Hc. fold default_config in *.
    destruct (init_default_model_cases L) as [(e & He & _) | (_ & ->)].
    + rewrite Hn in He. discriminate He.
    + cbn [fst calls map ev_call]. right. apply (Hloader _ _ _ Hc).
Qed.

(** ** [pre_rerank] *)

Lemma skipn_nth_error_cons {A} (l : list A) (i : nat) (x : A) :
  nth_error l i = Some x -> skipn i l = x :: skipn (S i) l.
Proof.
  revert i. induction l as [| y l IH]; intros [| i] H; simpl in *;
    try discriminate.
  - inversion H; reflexivity.
  - apply IH; assumption.
Qed.

Lemma comprehension_spec (question : string) (docs : list Document) :
  forall fuel index contents,
    List.length docs < fuel + index ->
    comprehension fuel index docs question contents =
    (docs, contents ++
           map (fun data => [question; page_content data]) (skipn index docs)).
Proof.
  induction fuel as [| fuel IH]; intros index contents Hlt; simpl.
  - rewrite skipn_all2 by lia. simpl. rewrite app_nil_r. reflexivity.
  - destruct (nth_error docs index) as [data |] eqn:E.
    + rewrite IH by lia.
      rewrite (skipn_nth_error_cons _ _ _ E). simpl.
      rewrite <- app_assoc. reflexivity.
    + apply nth_error_None in E. rewrite skipn_all2 by lia. simpl.
      rewrite app_nil_r. reflexivity.
Qed.

Lemma pre_rerank_map (docs : list Document) (question : string) :
  pre_rerank docs question =
  map (fun data => [question; page_content data]) docs.
Proof.
  unfold pre_rerank, pre_rerank_run.
  rewrite comprehension_spec by lia. reflexivity.
Qed.

(** C8. [pre_rerank] returns a list as long as [docs], in the same order,
    whose i-th element is the two-element list of the question and of the
    page content of the i-th document, and it leaves the list [docs] as it
    was. *)
Theorem pre_rerank_pairs_in_order (docs : list Document) (question : string) :
  List.length (pre_rerank docs question) = List.length docs /\
  (forall i, i < List.length docs ->
     exists data, nth_error docs i = Some data /\
       nth_error (pre_rerank docs question) i
       = Some [question; page_content data]) /\
  pre_rerank docs question
  = map (fun data => [question; page_content data]) docs /\
  fst (pre_rerank_run docs question) = docs.
Proof.
  split; [| split; [| split]].
  - rewrite pre_rerank_map. apply length_map.
  - intros i Hi. rewrite pre_rerank_map.
    destruct (nth_error docs i) as [data |] eqn:E.
    + exists data. split; [reflexivity |].
      rewrite nth_error_map, E. reflexivity.
    + apply nth_error_None in E. lia.
  - apply pre_rerank_map.
  - unfold pre_rerank_run. rewrite comprehension_spec by lia. reflexivity.
Qed.

(** ** Exceptions travel unchanged *)

Section Propagation.

Context {A B : Type}.

Lemma propagates_pure (r : Result A) : propagates (([], r) : M A).
Proof.
  intros before c e after H. simpl in H.
  destruct before; discriminate H.
Qed.

Lemma propagates_lib (c : Call) (r : Result A) : propagates (lib c r).
Proof.
  intros before c' e after H. unfold lib in H. simpl in H.
  destruct before as [| x before].
  - inversion H as [[Hc Ho]]. split; [reflexivity |].
    destruct r; simpl in Ho; [discriminate Ho | inversion Ho; reflexivity].
  - inversion H as [[Hx Hrest]]. destruct before; discriminate Hrest.
Qed.

Lemma propagates_bind (m : M A) (k : A -> M B) :
  propagates m -> (forall a, propagates (k a)) -> propagates (bind m k).
Proof.
  intros Hm Hk before c e after H.
  destruct m as [t [a | e0]].
  - rewrite bind_ok in *. simpl in *.
    apply app_eq_app in H. destruct H as [l [[H1 H2] | [H1 H2]]].
    + destruct l as [| x l].
      * apply (Hk a [] c e after). symmetry. exact H2.
      * (* the raising call would lie in the trace of [m], which
           returned *)
        inversion H2; subst x after.
        destruct (Hm before c e l H1) as [_ Hr]. discriminate Hr.
    + apply (Hk a l c e after). exact H2.
  - rewrite bind_raise in *.
    destruct (Hm before c e after H) as [H1 H2].
    split; [exact H1 |]. simpl in *. inversion H2; reflexivity.
Qed.

Lemma fails_pure_ok (a : A) : fails_with_last_call (([], Ok a) : M A).
Proof. intros e H. discriminate H. Qed.

Lemma fails_lib (c : Call) (r : Result A) : fails_with_last_call (lib c r).
Proof.
  intros e H. unfold lib in *. cbn [fst snd] in *. subst r.
  exists [], c. reflexivity.
Qed.

Lemma fails_bind (m : M A) (k : A -> M B) :
  fails_with_last_call m -> (forall a, fails_with_last_call (k a)) ->
  fails_with_last_call (bind m k).
Proof.
  intros Hm Hk e H. destruct m as [t [a | e0]].
  - rewrite bind_ok in *. cbn [fst snd] in *.
    destruct (Hk a e H) as (before & c & ->).
    exists (t ++ before), c. apply app_assoc.
  - rewrite bind_raise in *. cbn [fst snd] in *. inversion H; subst e0.
    apply (Hm e eq_refl).
Qed.

End Propagation.

Ltac propagate :=
  repeat first
    [ apply propagates_lib
    | apply propagates_pure
    | apply propagates_bind; [| intro] ].

Lemma init_model_propagates (L : Lib) cfg model_id :
  propagates (init_model L cfg model_id).
Proof. unfold init_model. propagate. Qed.

Lemma init_bnb_config_defaults_propagates (L : Lib) :
  propagates (init_bnb_config_defaults L).
Proof. apply propagates_lib. Qed.

Lemma init_default_model_propagates (L : Lib) :
  propagates (init_default_model L).
Proof.
  unfold init_default_model. apply propagates_bind.
  - apply init_bnb_config_defaults_propagates.
  - intro cfg. apply init_model_propagates.
Qed.

Lemma discover_propagates (L : Lib) directory extensions :
  forall files, propagates (discover L directory extensions files).
Proof.
  induction extensions as [| extension rest IH]; intro files; simpl.
  - apply propagates_pure.
  - apply propagates_bind; [apply propagates_lib | intro found]. apply IH.
Qed.

Lemma load_files_propagates (L : Lib) files :
  forall documents, propagates (load_files L files documents).
Proof.
  induction files as [| file rest IH]; intro documents; simpl.
  - apply propagates_pure.
  - destruct (loaders (snd (splitext file))); [| apply IH].
    apply propagates_bind; [apply propagates_lib | intro loaded]. apply IH.
Qed.

Lemma user_documents_propagates (L : Lib) directory :
  propagates (user_documents L directory).
Proof.
  unfold user_documents.
  apply propagates_bind; [apply discover_propagates | intro files].
  apply propagates_bind; [apply load_files_propagates | intro documents].
  apply propagates_lib.
Qed.

Lemma rerank_propagates (L : Lib) contents : propagates (rerank L contents).
Proof. unfold rerank. propagate. Qed.

Lemma run_chain_propagates (L : Lib) prompt model question :
  propagates (run_chain L prompt model question).
Proof. unfold run_chain. propagate. Qed.

Lemma llm_propagates (L : Lib) question data_base model :
  propagates (llm L question data_base model).
Proof.
  unfold llm.
  apply propagates_bind; [apply propagates_lib | intro docs].
  apply propagates_bind; [apply rerank_propagates | intro context].
  apply propagates_bind; [apply propagates_lib | intro prompt].
  apply run_chain_propagates.
Qed.

Lemma query_propagates (L : Lib) query_arg docs_path :
  propagates (query L query_arg docs_path).
Proof.
  unfold query.
  apply propagates_bind; [apply init_default_model_propagates | intro model].
  apply propagates_bind; [apply propagates_lib | intro embeddings].
  apply propagates_bind; [apply user_documents_propagates | intro docs].
  apply propagates_bind; [apply propagates_lib | intro db].
  apply llm_propagates.
Qed.

Lemma input_line_propagates prompt stdin :
  propagates (input_line prompt stdin).
Proof. destruct stdin; simpl; apply propagates_lib. Qed.

Lemma repl_propagates (L : Lib) db model stdin :
  forall query_var, propagates (repl L db model query_var stdin).
Proof.
  induction stdin as [| line rest IH]; intro query_var; simpl;
    (destruct (String.eqb query_var "exit"); [apply propagates_pure |]);
    (apply propagates_bind; [apply llm_propagates | intro result]);
    (apply propagates_bind; [apply propagates_lib | intros _]).
  - apply propagates_lib.
  - apply propagates_bind; [apply propagates_lib | intros _]. apply IH.
Qed.

Lemma main_propagates (L : Lib) stdin : propagates (main L stdin).
Proof.
  unfold main.
  apply propagates_bind; [apply init_default_model_propagates | intro model].
  apply propagates_bind; [apply propagates_lib | intro embeddings].
  apply propagates_bind; [apply input_line_propagates | intro path_in].
  apply propagates_bind; [apply user_documents_propagates | intro docs].
  apply propagates_bind; [apply propagates_lib | intro db].
  apply propagates_bind; [apply input_line_propagates | intro query_in].
  apply repl_propagates.
Qed.

(** The same operations raise nothing of their own. *)

Ltac fail_through :=
  repeat first
    [ apply fails_lib
    | apply fails_pure_ok
    | apply fails_bind; [| intro] ].

Lemma init_model_fails (L : Lib) cfg model_id :
  fails_with_last_call (init_model L cfg model_id).
Proof. unfold init_model. fail_through. Qed.

Lemma init_default_model_fails (L : Lib) :
  fails_with_last_call (init_default_model L).
Proof.
  unfold init_default_model. apply fails_bind.
  - apply fails_lib.
  - intro cfg. apply init_model_fails.
Qed.

Lemma discover_fails (L : Lib) directory extensions :
  forall files, fails_with_last_call (discover L directory extensions files).
Proof.
  induction extensions as [| extension rest IH]; intro files; simpl.
  - apply fails_pure_ok.
  - apply fails_bind; [apply fails_lib | intro found]. apply IH.
Qed.

Lemma load_files_fails (L : Lib) files :
  forall documents, fails_with_last_call (load_files L files documents).
Proof.
  induction files as [| file rest IH]; intro documents; simpl.
  - apply fails_pure_ok.
  - destruct (loaders (snd (splitext file))); [| apply IH].
    apply fails_bind; [apply fails_lib | intro loaded]. apply IH.
Qed.

Lemma user_documents_fails (L : Lib) directory :
  fails_with_last_call (user_documents L directory).
Proof.
  unfold user_documents.
  apply fails_bind; [apply discover_fails | intro files].
  apply fails_bind; [apply load_files_fails | intro documents].
  apply fails_lib.
Qed.

Lemma rerank_fails (L : Lib) contents :
  fails_with_last_call (rerank L contents).
Proof. unfold rerank. fail_through. Qed.

Lemma llm_fails (L : Lib) question data_base model :
  fails_with_last_call (llm L question data_base model).
Proof.
  unfold llm.
  apply fails_bind; [apply fails_lib | intro docs].
  apply fails_bind; [apply rerank_fails | intro context].
  apply fails_bind; [apply fails_lib | intro prompt].
  unfold run_chain. fail_through.
Qed.

Lemma query_fails (L : Lib) query_arg docs_path :
  fails_with_last_call (query L query_arg docs_path).
Proof.
  unfold query.
  apply fails_bind; [apply init_default_model_fails | intro model].
  apply fails_bind; [apply fails_lib | intro embeddings].
  apply fails_bind; [apply user_documents_fails | intro docs].
  apply fails_bind; [apply fails_lib | intro db].
  apply llm_fails.
Qed.

Lemma input_line_fails prompt stdin :
  fails_with_last_call (input_line prompt stdin).
Proof. destruct stdin; simpl; apply fails_lib. Qed.

Lemma repl_fails (L : Lib) db model stdin :
  forall query_var, fails_with_last_call (repl L db model query_var stdin).
Proof.
  induction stdin as [| line rest IH]; intro query_var; simpl;
    (destruct (String.eqb query_var "exit"); [apply fails_pure_ok |]);
    (apply fails_bind; [apply llm_fails | intro result]);
    (apply fails_bind; [apply fails_lib | intros _]).
  - apply fails_lib.
  - apply fails_bind; [apply fails_lib | intros _]. apply IH.
Qed.

Lemma main_fails (L : Lib) stdin : fails_with_last_call (main L stdin).
Proof.
  unfold main.
  apply fails_bind; [apply init_default_model_fails | intro model].
  apply fails_bind; [apply fails_lib | intro embeddings].
  apply fails_bind; [apply input_line_fails | intro path_in].
  apply fails_bind; [apply user_documents_fails | intro docs].
  apply fails_bind; [apply fails_lib | intro db].
  apply fails_bind; [apply input_line_fails | intro query_in].
  apply repl_fails.
Qed.

(** The outcome of [rerank] once the cross-encoder has answered is the
    outcome of its loop over the selected indices, error included. *)
Lemma rerank_outcome (L : Lib) contents tokenizer model inputs scores :
  auto_tokenizer_from_pretrained L reranker_name None = Ok tokenizer ->
  seq_cls_from_pretrained L reranker_name = Ok model ->
  model_eval L model = Ok tt ->
  tokenize L tokenizer contents 512 = Ok inputs ->
  logits L model inputs = Ok scores ->
  snd (rerank L contents)
  = build_context contents (top3 (argsort L scores)) "".
Proof.
  intros E1 E2 E3 E4 E5. unfold rerank.
  rewrite E1, bind_lib_ok; cbn [fst snd].
  rewrite E2, bind_lib_ok; cbn [fst snd].
  rewrite E3, bind_lib_ok; cbn [fst snd].
  rewrite E4, bind_lib_ok; cbn [fst snd].
  rewrite E5, bind_lib_ok; cbn [fst snd].
  reflexivity.
Qed.

(** A handler is what [propagates] rules out: a run that catches the
    exception of a call and answers with a fallback returns, although a
    call of its trace raised. *)
Lemma try_except_does_not_propagate :
  ~ propagates
      (try_except (lib (CPrintLine "x") (Raise (LibraryError "io")))
                  (fun _ => ret tt)) /\
  ~ propagates
      (try_except (lib (CSubscripts [1]) (build_context [["q"; "a"]] [1] ""))
                  (fun _ => ret "")).
Proof.
  split; intro H.
  - destruct (H [] (CPrintLine "x") (LibraryError "io") [] eq_refl)
      as [_ Hr].
    discriminate Hr.
  - destruct (H [] (CSubscripts [1]) IndexError [] eq_refl) as [_ Hr].
    discriminate Hr.
Qed.

(** C5. No operation recovers from a failure.  In every run of
    [user_documents], [rerank], [llm], [query] and of the command-line
    program, a call that raises (a library call, [glob], the constructor
    of the configuration, [input], or a subscript of the loop of [rerank])
    is the last call of the run: nothing is retried, nothing is called in
    its place, and the operation ends in the exception the call raised.
    Conversely an operation that ends in an exception ends in the one its
    last call raised: it raises none of its own and changes none.  And
    [rerank] hands on the outcome of its loop over [contents] as it is,
    its [IndexError] included. *)
Theorem exceptions_propagate_unchanged (L : Lib) :
  (forall directory, propagates (user_documents L directory)) /\
  (forall contents, propagates (rerank L contents)) /\
  (forall question data_base model,
      propagates (llm L question data_base model)) /\
  (forall query_arg docs_path, propagates (query L query_arg docs_path)) /\
  (forall stdin, propagates (main L stdin)) /\
  (forall directory, fails_with_last_call (user_documents L directory)) /\
  (forall contents, fails_with_last_call (rerank L contents)) /\
  (forall question data_base model,
      fails_with_last_call (llm L question data_base model)) /\
  (forall query_arg docs_path,
      fails_with_last_call (query L query_arg docs_path)) /\
  (forall stdin, fails_with_last_call (main L stdin)) /\
  (forall contents tokenizer model inputs scores,
      auto_tokenizer_from_pretrained L reranker_name None = Ok tokenizer ->
      seq_cls_from_pretrained L reranker_name = Ok model ->
      model_eval L model = Ok tt ->
      tokenize L tokenizer contents 512 = Ok inputs ->
      logits L model inputs = Ok scores ->
      snd (rerank L contents)
      = build_context contents (top3 (argsort L scores)) "").
Proof.
  split; [intro; apply user_documents_propagates |].
  split; [intro; apply rerank_propagates |].
  split; [intros; apply llm_propagates |].
  split; [intros; apply query_propagates |].
  split; [intro; apply main_propagates |].
  split; [intro; apply user_documents_fails |].
  split; [intro; apply rerank_fails |].
  split; [intros; apply llm_fails |].
  split; [intros; apply query_fails |].
  split; [intro; apply main_fails |].
  intros contents tokenizer model inputs scores.
  apply rerank_outcome.
Qed.

(** ** [llm] *)

Lemma str_app_assoc (a b c : string) : ((a ++ b) ++ c = a ++ (b ++ c))%string.
Proof. induction a as [| x a IH]; simpl; [| rewrite IH]; reflexivity. Qed.

Lemma str_app_nil_r (a : string) : (a ++ "" = a)%string.
Proof. induction a as [| x a IH]; simpl; [| rewrite IH]; reflexivity. Qed.

Lemma content_at_nth_error contents i item content :
  nth_error contents i = Some item ->
  nth_error item 1 = Some content ->
  content_at contents i = content.
Proof.
  intros Hi Hc. unfold content_at.
  rewrite (nth_error_nth _ _ _ Hi). apply (nth_error_nth _ _ _ Hc).
Qed.

(** What the loop of [rerank] builds when it does not fail. *)
Lemma build_context_ok contents :
  forall indices context result,
    build_context contents indices context = Ok result ->
    Forall (fun i => i < List.length contents) indices /\
    result = (context ++ concat_all (map (content_at contents) indices))%string.
Proof.
  induction indices as [| index rest IH]; intros context result H;
    cbn [build_context] in H.
  - inversion H. split; [constructor |]. simpl. rewrite str_app_nil_r.
    reflexivity.
  - destruct (nth_error contents index) as [item |] eqn:Ei;
      [| discriminate H].
    destruct (nth_error item 1) as [content |] eqn:Ec; [| discriminate H].
    destruct (IH _ _ H) as [Hall Hres].
    split.
    + constructor; [| exact Hall].
      apply nth_error_Some. rewrite Ei. discriminate.
    + rewrite Hres. simpl.
      rewrite (content_at_nth_error _ _ _ _ Ei Ec).
      apply str_app_assoc.
Qed.

Lemma content_at_pre_rerank docs question i :
  i < List.length docs ->
  content_at (pre_rerank docs question) i
  = page_content (nth i docs (doc "")).
Proof.
  intro Hi. rewrite pre_rerank_map. unfold content_at.
  rewrite (nth_indep _ [] [question; page_content (doc "")])
    by (rewrite length_map; exact Hi).
  rewrite (map_nth (fun data => [question; page_content data])).
  reflexivity.
Qed.

(** The context that [rerank] returns for the pairs made by [pre_rerank]
    is made of page contents of the documents given, and of nothing else. *)
Lemma rerank_context_from_docs (L : Lib) docs question context :
  snd (rerank L (pre_rerank docs question)) = Ok context ->
  exists selected,
    incl selected docs /\
    context = concat_all (map page_content selected).
Proof.
  unfold rerank. answer_cases; try discriminate.
  unfold lib; cbn [snd]. intro H.
  apply build_context_ok in H. destruct H as [Hall Hres].
  match goal with
  | E : logits L _ _ = Ok ?scores |- _ =>
    exists (map (fun i => nth i docs (doc "")) (top3 (argsort L scores)))
  end.
  assert (Hlen : List.length (pre_rerank docs question) = List.length docs)
    by (rewrite pre_rerank_map; apply length_map).
  rewrite Hlen in Hall.
  split.
  - intros d Hd. apply in_map_iff in Hd. destruct Hd as [i [<- Hi]].
    apply nth_In. rewrite Forall_forall in Hall. apply Hall. exact Hi.
  - rewrite Hres. simpl. rewrite map_map. f_equal.
    apply map_ext_in. intros i Hi.
    apply content_at_pre_rerank.
    rewrite Forall_forall in Hall. apply Hall. exact Hi.
Qed.

Lemma prefix_of_refl {A} (l : list A) : prefix_of l l.
Proof. exists []. symmetry. apply app_nil_r. Qed.

Lemma prefix_of_cons {A} (x : A) (l1 l2 : list A) :
  prefix_of l1 l2 -> prefix_of (x :: l1) (x :: l2).
Proof. intros [rest ->]. exists rest. reflexivity. Qed.

Lemma prefix_of_nil {A} (l : list A) : prefix_of [] l.
Proof. exists l. reflexivity. Qed.

(** [llm] with the bodies of [rerank] and of the chain in place, as one
    sequence of calls. *)
Lemma llm_unfold (L : Lib) question data_base model :
  llm L question data_base model =
  (docs <- lib (CSimilaritySearch data_base question 25)
               (similarity_search L data_base question 25) ;;
   tokenizer <- lib (CAutoTokenizerFromPretrained reranker_name None)
                    (auto_tokenizer_from_pretrained L reranker_name None) ;;
   reranker <- lib (CSeqClsFromPretrained reranker_name)
                   (seq_cls_from_pretrained L reranker_name) ;;
   lib (CModelEval reranker) (model_eval L reranker) ;;;
   inputs <- lib (CTokenize tokenizer (pre_rerank docs question) 512)
                 (tokenize L tokenizer (pre_rerank docs question) 512) ;;
   scores <- lib (CLogits reranker inputs) (logits L reranker inputs) ;;
   context <- lib (CSubscripts (top3 (argsort L scores)))
                  (build_context (pre_rerank docs question)
                                 (top3 (argsort L scores)) "") ;;
   prompt <- lib (CFromTemplate (make_template context question))
                 (from_template L (make_template context question)) ;;
   prompt_text <- lib (CPromptInvoke prompt question)
                      (format_prompt L prompt question) ;;
   raw <- lib (CModelInvoke model prompt_text)
              (model_invoke L model prompt_text) ;;
   lib (CParseOutput raw) (parse_output L raw)).
Proof.
  unfold llm, rerank, run_chain.
  apply bind_ext; intro docs.
  do 5 (rewrite bind_assoc; apply bind_ext; intro).
  reflexivity.
Qed.

Ltac lib_step r x E :=
  let e := fresh "e" in
  destruct r as [x | e] eqn:E;
  [ rewrite ?bind_lib_ok, ?bind_pure
  | rewrite ?bind_lib_raise, ?bind_raise ];
  cbn [fst snd].

Ltac no_such_call :=
  let H := fresh "H" in
  intros; match goal with H : In _ _ |- _ => in_cases H end.

Ltac stops_at r :=
  exists r; unfold llm_calls; cbn [run_docs run_tokenizer run_reranker
    run_inputs run_indices run_context run_prompt run_prompt_text run_raw
    map]; repeat apply prefix_of_cons; apply prefix_of_nil.

(** The calls of [llm] come in the order of [llm_calls], whatever fails. *)
Lemma llm_calls_in_order (L : Lib) question data_base model :
  exists r,
    prefix_of (calls (fst (llm L question data_base model)))
              (llm_calls question data_base model r).
Proof.
  rewrite llm_unfold. unfold calls.
  lib_step (similarity_search L data_base question 25) docs E1;
    [| stops_at (mkLlmRun [] (Obj 0) (Obj 0) (Obj 0) [] "" (Obj 0) "" "")].
  lib_step (auto_tokenizer_from_pretrained L reranker_name None) tokenizer E2;
    [| stops_at (mkLlmRun [] (Obj 0) (Obj 0) (Obj 0) [] "" (Obj 0) "" "")].
  lib_step (seq_cls_from_pretrained L reranker_name) reranker E3;
    [| stops_at (mkLlmRun [] (Obj 0) (Obj 0) (Obj 0) [] "" (Obj 0) "" "")].
  lib_step (model_eval L reranker) u E4;
    [| stops_at (mkLlmRun [] (Obj 0) reranker (Obj 0) [] "" (Obj 0) "" "")].
  lib_step (tokenize L tokenizer (pre_rerank docs question) 512) inputs E5;
    [| stops_at (mkLlmRun docs tokenizer reranker (Obj 0) [] "" (Obj 0)
                          "" "")].
  lib_step (logits L reranker inputs) scores E6;
    [| stops_at (mkLlmRun docs tokenizer reranker inputs [] "" (Obj 0)
                          "" "")].
  lib_step (build_context (pre_rerank docs question)
                          (top3 (argsort L scores)) "") ctx E7;
    [| stops_at (mkLlmRun docs tokenizer reranker inputs
                          (top3 (argsort L scores)) "" (Obj 0) "" "")].
  lib_step (from_template L (make_template ctx question)) prompt E8;
    [| stops_at (mkLlmRun docs tokenizer reranker inputs
                          (top3 (argsort L scores)) ctx (Obj 0) "" "")].
  lib_step (format_prompt L prompt question) text E9;
    [| stops_at (mkLlmRun docs tokenizer reranker inputs
                          (top3 (argsort L scores)) ctx prompt "" "")].
  lib_step (model_invoke L model text) raw E10;
    [| stops_at (mkLlmRun docs tokenizer reranker inputs
                          (top3 (argsort L scores)) ctx prompt text "")].
  exists (mkLlmRun docs tokenizer reranker inputs (top3 (argsort L scores))
                   ctx prompt text raw).
  apply prefix_of_refl.
Qed.

(** Progress: when every call answers, [llm] makes all the calls of
    [llm_calls] and returns what the parser makes of the model's answer. *)
Lemma llm_runs_to_the_end (L : Lib) question data_base model r :
  llm_answers L question data_base model r ->
  calls (fst (llm L question data_base model))
  = llm_calls question data_base model r /\
  snd (llm L question data_base model) = parse_output L (run_raw r).
Proof.
  intros (H1 & H2 & H3 & H4 & H5 & (scores & H6 & Hi) & H7 & H8 & H9 & H10).
  rewrite llm_unfold. unfold calls, llm_calls.
  rewrite H1, !bind_lib_ok; cbn [fst snd].
  rewrite H2, !bind_lib_ok; cbn [fst snd].
  rewrite H3, !bind_lib_ok; cbn [fst snd].
  rewrite H4, !bind_lib_ok; cbn [fst snd].
  rewrite H5, !bind_lib_ok; cbn [fst snd].
  rewrite H6, !bind_lib_ok; cbn [fst snd].
  rewrite <- Hi, H7, !bind_lib_ok; cbn [fst snd].
  rewrite H8, !bind_lib_ok; cbn [fst snd].
  rewrite H9, !bind_lib_ok; cbn [fst snd].
  rewrite H10, !bind_lib_ok; cbn [fst snd].
  split; reflexivity.
Qed.

(** A run of [llm] that returns made every call of [llm_calls], each of
    which answered. *)
Lemma llm_complete_run (L : Lib) question data_base model answer :
  snd (llm L question data_base model) = Ok answer ->
  exists r,
    llm_answers L question data_base model r /\
    parse_output L (run_raw r) = Ok answer /\
    calls (fst (llm L question data_base model))
    = llm_calls question data_base model r.
Proof.
  rewrite llm_unfold. unfold calls.
  lib_step (similarity_search L data_base question 25) docs E1;
    [| discriminate].
  lib_step (auto_tokenizer_from_pretrained L reranker_name None) tokenizer E2;
    [| discriminate].
  lib_step (seq_cls_from_pretrained L reranker_name) reranker E3;
    [| discriminate].
  lib_step (model_eval L reranker) u E4; [| discriminate].
  lib_step (tokenize L tokenizer (pre_rerank docs question) 512) inputs E5;
    [| discriminate].
  lib_step (logits L reranker inputs) scores E6; [| discriminate].
  lib_step (build_context (pre_rerank docs question)
                          (top3 (argsort L scores)) "") ctx E7;
    [| discriminate].
  lib_step (from_template L (make_template ctx question)) prompt E8;
    [| discriminate].
  lib_step (format_prompt L prompt question) text E9; [| discriminate].
  lib_step (model_invoke L model text) raw E10; [| discriminate].
  intro H. unfold lib in *. cbn [fst snd] in *. destruct u.
  exists (mkLlmRun docs tokenizer reranker inputs (top3 (argsort L scores))
                   ctx prompt text raw).
  split; [| split; [exact H | reflexivity]].
  unfold llm_answers; cbn.
  repeat (split; [assumption |]).
  split; [exists scores; split; [assumption | reflexivity] |].
  repeat (split; [assumption |]). assumption.
Qed.

(** The outcome of [rerank] in a run whose calls answered. *)
Lemma rerank_returns (L : Lib) contents tokenizer model u inputs scores
  context :
  auto_tokenizer_from_pretrained L reranker_name None = Ok tokenizer ->
  seq_cls_from_pretrained L reranker_name = Ok model ->
  model_eval L model = Ok u ->
  tokenize L tokenizer contents 512 = Ok inputs ->
  logits L model inputs = Ok scores ->
  build_context contents (top3 (argsort L scores)) "" = Ok context ->
  snd (rerank L contents) = Ok context.
Proof.
  intros E2 E3 E4 E5 E6 E7. destruct u.
  rewrite (rerank_outcome L _ _ _ _ _ E2 E3 E4 E5 E6). exact E7.
Qed.

(** What [llm] hands to the prompt library. *)
Lemma llm_templates (L : Lib) question data_base model template :
  In (CFromTemplate template)
     (calls (fst (llm L question data_base model))) ->
  exists docs context,
    similarity_search L data_base question 25 = Ok docs /\
    snd (rerank L (pre_rerank docs question)) = Ok context /\
    template = make_template context question.
Proof.
  rewrite llm_unfold. unfold calls.
  lib_step (similarity_search L data_base question 25) docs E1;
    [| no_such_call].
  lib_step (auto_tokenizer_from_pretrained L reranker_name None) tokenizer E2;
    [| no_such_call].
  lib_step (seq_cls_from_pretrained L reranker_name) reranker E3;
    [| no_such_call].
  lib_step (model_eval L reranker) u E4; [| no_such_call].
  lib_step (tokenize L tokenizer (pre_rerank docs question) 512) inputs E5;
    [| no_such_call].
  lib_step (logits L reranker inputs) scores E6; [| no_such_call].
  lib_step (build_context (pre_rerank docs question)
                          (top3 (argsort L scores)) "") ctx E7;
    [| no_such_call].
  pose proof (rerank_returns L _ _ _ _ _ _ _ E2 E3 E4 E5 E6 E7) as Hr.
  lib_step (from_template L (make_template ctx question)) prompt E8;
    [| intro H; in_cases H; inversion H; exists docs, ctx; auto].
  lib_step (format_prompt L prompt question) text E9;
    [| intro H; in_cases H; inversion H; exists docs, ctx; auto].
  lib_step (model_invoke L model text) raw E10;
    [| intro H; in_cases H; inversion H; exists docs, ctx; auto].
  unfold lib. intro H. in_cases H; inversion H; exists docs, ctx; auto.
Qed.

(** What [llm] hands to the prompt object: the question. *)
Lemma llm_prompt_inputs (L : Lib) question data_base model prompt input :
  In (CPromptInvoke prompt input)
     (calls (fst (llm L question data_base model))) ->
  input = question /\
  exists template,
    In (CFromTemplate template)
       (calls (fst (llm L question data_base model))) /\
    from_template L template = Ok prompt.
Proof.
  rewrite llm_unfold. unfold calls.
  lib_step (similarity_search L data_base question 25) docs E1;
    [| no_such_call].
  lib_step (auto_tokenizer_from_pretrained L reranker_name None) tokenizer E2;
    [| no_such_call].
  lib_step (seq_cls_from_pretrained L reranker_name) reranker E3;
    [| no_such_call].
  lib_step (model_eval L reranker) u E4; [| no_such_call].
  lib_step (tokenize L tokenizer (pre_rerank docs question) 512) inputs E5;
    [| no_such_call].
  lib_step (logits L reranker inputs) scores E6; [| no_such_call].
  lib_step (build_context (pre_rerank docs question)
                          (top3 (argsort L scores)) "") ctx E7;
    [| no_such_call].
  lib_step (from_template L (make_template ctx question)) p E8;
    [| no_such_call].
  assert (Hfin : forall trace : list Call,
             prompt = p /\ input = question ->
             In (CFromTemplate (make_template ctx question)) trace ->
             input = question /\
             exists template,
               In (CFromTemplate template) trace /\
               from_template L template = Ok prompt).
  { intros trace [-> ->] Hin. split; [reflexivity |].
    exists (make_template ctx question). split; [exact Hin | exact E8]. }
  lib_step (format_prompt L p question) text E9;
    [| intro H; apply Hfin;
       [in_cases H; inversion H; auto | simpl; do 7 right; left; reflexivity]].
  lib_step (model_invoke L model text) raw E10;
    [| intro H; apply Hfin;
       [in_cases H; inversion H; auto | simpl; do 7 right; left; reflexivity]].
  unfold lib. intro H. apply Hfin;
    [in_cases H; inversion H; auto | simpl; do 7 right; left; reflexivity].
Qed.

(** What [llm] hands to the model: the text that the prompt library makes
    of the template and of the question. *)
Lemma llm_model_inputs (L : Lib) question data_base model m text :
  In (CModelInvoke m text)
     (calls (fst (llm L question data_base model))) ->
  m = model /\
  exists docs context,
    similarity_search L data_base question 25 = Ok docs /\
    snd (rerank L (pre_rerank docs question)) = Ok context /\
    rendered_prompt L (make_template context question) question = Ok text.
Proof.
  rewrite llm_unfold. unfold calls.
  lib_step (similarity_search L data_base question 25) docs E1;
    [| no_such_call].
  lib_step (auto_tokenizer_from_pretrained L reranker_name None) tokenizer E2;
    [| no_such_call].
  lib_step (seq_cls_from_pretrained L reranker_name) reranker E3;
    [| no_such_call].
  lib_step (model_eval L reranker) u E4; [| no_such_call].
  lib_step (tokenize L tokenizer (pre_rerank docs question) 512) inputs E5;
    [| no_such_call].
  lib_step (logits L reranker inputs) scores E6; [| no_such_call].
  lib_step (build_context (pre_rerank docs question)
                          (top3 (argsort L scores)) "") ctx E7;
    [| no_such_call].
  pose proof (rerank_returns L _ _ _ _ _ _ _ E2 E3 E4 E5 E6 E7) as Hr.
  lib_step (from_template L (make_template ctx question)) p E8;
    [| no_such_call].
  lib_step (format_prompt L p question) t E9; [| no_such_call].
  assert (Hfin : m = model /\ text = t ->
                 m = model /\
                 exists docs0 context,
                   Ok docs = Ok docs0 /\
                   snd (rerank L (pre_rerank docs0 question)) = Ok context /\
                   rendered_prompt L (make_template context question) question
                   = Ok text).
  { intros [-> ->]. split; [reflexivity |].
    exists docs, ctx. split; [reflexivity |]. split; [exact Hr |].
    unfold rendered_prompt. rewrite E8. exact E9. }
  lib_step (model_invoke L model t) raw E10.
  - unfold lib. intro H. apply Hfin. in_cases H; inversion H; auto.
  - intro H. apply Hfin. in_cases H; inversion H; auto.
Qed.

(** What [llm] hands to the parser: the answer of the model. *)
Lemma llm_parser_inputs (L : Lib) question data_base model raw :
  In (CParseOutput raw) (calls (fst (llm L question data_base model))) ->
  exists text,
    In (CModelInvoke model text)
       (calls (fst (llm L question data_base model))) /\
    model_invoke L model text = Ok raw.
Proof.
  rewrite llm_unfold. unfold calls.
  lib_step (similarity_search L data_base question 25) docs E1;
    [| no_such_call].
  lib_step (auto_tokenizer_from_pretrained L reranker_name None) tokenizer E2;
    [| no_such_call].
  lib_step (seq_cls_from_pretrained L reranker_name) reranker E3;
    [| no_such_call].
  lib_step (model_eval L reranker) u E4; [| no_such_call].
  lib_step (tokenize L tokenizer (pre_rerank docs question) 512) inputs E5;
    [| no_such_call].
  lib_step (logits L reranker inputs) scores E6; [| no_such_call].
  lib_step (build_context (pre_rerank docs question)
                          (top3 (argsort L scores)) "") ctx E7;
    [| no_such_call].
  lib_step (from_template L (make_template ctx question)) p E8;
    [| no_such_call].
  lib_step (format_prompt L p question) t E9; [| no_such_call].
  lib_step (model_invoke L model t) r E10; [| no_such_call].
  unfold lib. intro H. in_cases H. inversion H; subst raw.
  exists t. split; [| exact E10].
  simpl. do 9 right. left. reflexivity.
Qed.

(** A run in which every call answers: the three best of the four
    documents reach the template, in the order of their scores. *)
Example llm_answers_example :
  let L := demo_lib demo_names demo_scores in
  let r := mkLlmRun [doc "alpha"; doc "beta"; doc "gamma"; doc "delta"]
                    (Obj 3) (Obj 8) (Obj 9) [1; 3; 0] "betadeltaalpha"
                    (Obj 10) "hello" "answer to hello" in
  llm_answers L "hello" (Obj 7) (Obj 5) r /\
  calls (fst (llm L "hello" (Obj 7) (Obj 5)))
  = llm_calls "hello" (Obj 7) (Obj 5) r /\
  snd (llm L "hello" (Obj 7) (Obj 5)) = Ok "answer to hello".
Proof.
  cbv zeta. split; [| split; reflexivity].
  unfold llm_answers. cbn.
  repeat (split; [reflexivity |]).
  split; [exists demo_scores; split; reflexivity |].
  repeat split.
Qed.

(** C2. [llm] works in this order: it retrieves the candidate documents
    from the vector store, reranks them (loading the cross-encoder, scoring
    the pairs, reading the selected ones), and only then builds the prompt,
    asks the model and parses its answer.  The calls of any run are an
    initial segment of that sequence; when every call answers, the run
    makes all of them and returns what the parser makes of the model's
    answer; and a run that returns made all of them.  The template handed
    to the prompt library is the fixed text around the context returned by
    [rerank] and around the question; that context is made of page contents
    of retrieved documents only.  The prompt object is run on the question;
    the model is the one given, and the text it receives is what the prompt
    library makes of that template and of the question: nothing else is
    handed to the library or to the model.  The parser reads the answer of
    the model. *)
Theorem llm_retrieves_reranks_then_asks (L : Lib) (question : string)
  (data_base model : PyObj) :
  (exists r,
      prefix_of (calls (fst (llm L question data_base model)))
                (llm_calls question data_base model r)) /\
  (forall r,
      llm_answers L question data_base model r ->
      calls (fst (llm L question data_base model))
      = llm_calls question data_base model r /\
      snd (llm L question data_base model) = parse_output L (run_raw r)) /\
  (forall answer,
      snd (llm L question data_base model) = Ok answer ->
      exists r,
        llm_answers L question data_base model r /\
        parse_output L (run_raw r) = Ok answer /\
        calls (fst (llm L question data_base model))
        = llm_calls question data_base model r) /\
  (forall template,
      In (CFromTemplate template)
         (calls (fst (llm L question data_base model))) ->
      exists docs context selected,
        similarity_search L data_base question 25 = Ok docs /\
        snd (rerank L (pre_rerank docs question)) = Ok context /\
        incl selected docs /\
        context = concat_all (map page_content selected) /\
        template
        = (template_head ++ context ++ template_middle ++ question
           ++ template_tail)%string) /\
  (forall prompt input,
      In (CPromptInvoke prompt input)
         (calls (fst (llm L question data_base model))) ->
      input = question /\
      exists template,
        In (CFromTemplate template)
           (calls (fst (llm L question data_base model))) /\
        from_template L template = Ok prompt) /\
  (forall m text,
      In (CModelInvoke m text)
         (calls (fst (llm L question data_base model))) ->
      m = model /\
      exists docs context selected,
        similarity_search L data_base question 25 = Ok docs /\
        snd (rerank L (pre_rerank docs question)) = Ok context /\
        incl selected docs /\
        context = concat_all (map page_content selected) /\
        rendered_prompt L
          (template_head ++ context ++ template_middle ++ question
           ++ template_tail)%string question
        = Ok text) /\
  (forall raw,
      In (CParseOutput raw)
         (calls (fst (llm L question data_base model))) ->
      exists text,
        In (CModelInvoke model text)
           (calls (fst (llm L question data_base model))) /\
        model_invoke L model text = Ok raw).
Proof.
  split; [| split; [| split; [| split; [| split; [| split]]]]].
  - apply llm_calls_in_order.
  - apply llm_runs_to_the_end.
  - apply llm_complete_run.
  - intros template H.
    destruct (llm_templates L question data_base model template H)
      as (docs & context & H1 & H2 & H3).
    destruct (rerank_context_from_docs _ _ _ _ H2) as (selected & H4 & H5).
    exists docs, context, selected. auto.
  - apply llm_prompt_inputs.
  - intros m text H.
    destruct (llm_model_inputs L question data_base model m text H)
      as (Hm & docs & context & H1 & H2 & H3).
    destruct (rerank_context_from_docs _ _ _ _ H2) as (selected & H4 & H5).
    split; [exact Hm |]. exists docs, context, selected. auto.
  - apply llm_parser_inputs.
Qed.

(** ** The command-line loop *)

Lemma fst_bind {A B} (m : M A) (k : A -> M B) :
  fst (bind m k)
  = fst m ++ match snd m with Ok a => fst (k a) | Raise _ => [] end.
Proof.
  destruct m as [t [a | e]].
  - rewrite bind_ok. reflexivity.
  - rewrite bind_raise. simpl. rewrite app_nil_r. reflexivity.
Qed.

Lemma snd_bind {A B} (m : M A) (k : A -> M B) :
  snd (bind m k)
  = match snd m with Ok a => snd (k a) | Raise e => Raise e end.
Proof.
  destruct m as [t [a | e]]; [rewrite bind_ok |]; reflexivity.
Qed.

Lemma Forall_calls_bind {A B} (P : Call -> Prop) (m : M A) (k : A -> M B) :
  Forall P (calls (fst m)) ->
  (forall a, snd m = Ok a -> Forall P (calls (fst (k a)))) ->
  Forall P (calls (fst (bind m k))).
Proof.
  intros Hm Hk. rewrite fst_bind. unfold calls. rewrite map_app.
  apply Forall_app. split; [exact Hm |].
  destruct (snd m) as [a | e]; [apply Hk; reflexivity | constructor].
Qed.

Ltac one_call :=
  unfold lib, calls; cbn [fst map ev_call];
  constructor; [try reflexivity | constructor].

Lemma filter_none {A} (f : A -> bool) (l : list A) :
  Forall (fun x => f x = false) l -> filter f l = [].
Proof.
  induction 1 as [| x l Hx Hl IH]; simpl; [| rewrite Hx]; auto.
Qed.

Lemma is_quiet_spec (c : Call) :
  is_quiet c = true ->
  is_search c = false /\ is_model_build c = false /\ is_index_build c = false.
Proof. destruct c; simpl; intro H; try discriminate H; auto. Qed.

Lemma init_model_calls (L : Lib) cfg model_id :
  Forall (fun c => is_search c = false /\ is_index_build c = false)
         (calls (fst (init_model L cfg model_id))) /\
  List.length (filter is_model_build (calls (fst (init_model L cfg model_id))))
  <= 1.
Proof.
  unfold init_model, calls. rewrite bind_lib_ok. cbn [fst snd].
  answer_cases; unfold lib; simpl; (split; [repeat constructor | lia]).
Qed.

Lemma discover_calls (L : Lib) directory extensions :
  forall files,
    Forall (fun c => is_quiet c = true)
           (calls (fst (discover L directory extensions files))).
Proof.
  induction extensions as [| extension rest IH]; intro files; simpl.
  - constructor.
  - apply Forall_calls_bind.
    + one_call.
    + intros found _. apply IH.
Qed.

Lemma load_files_calls (L : Lib) files :
  forall documents,
    Forall (fun c => is_quiet c = true)
           (calls (fst (load_files L files documents))).
Proof.
  induction files as [| file rest IH]; intro documents; simpl.
  - constructor.
  - destruct (loaders (snd (splitext file))); [| apply IH].
    apply Forall_calls_bind.
    + one_call.
    + intros loaded _. apply IH.
Qed.

Lemma user_documents_calls (L : Lib) directory :
  Forall (fun c => is_quiet c = true)
         (calls (fst (user_documents L directory))).
Proof.
  unfold user_documents.
  apply Forall_calls_bind; [apply discover_calls | intros files _].
  apply Forall_calls_bind; [apply load_files_calls | intros documents _].
  one_call.
Qed.

Lemma repl_exit (L : Lib) db model stdin :
  repl L db model "exit" stdin = ret tt.
Proof. destruct stdin; reflexivity. Qed.

(** The body of the loop, with its closing [input] as the script has it. *)
Lemma repl_step (L : Lib) db model query_var stdin :
  query_var <> "exit" ->
  repl L db model query_var stdin =
  (result <- llm L query_var db model ;;
   lib (CPrintLine result) (print_line L result) ;;;
   next <- input_line query_prompt stdin ;;
   repl L db model (fst next) (snd next)).
Proof.
  intro Hq. apply String.eqb_neq in Hq.
  destruct stdin as [| line rest]; simpl; rewrite Hq;
    apply bind_ext; intro result; apply bind_ext; intros _.
  - reflexivity.
  - rewrite !bind_lib_ok. reflexivity.
Qed.

(** One turn of the loop on a query other than [exit]: the pipeline runs
    once on it; if it fails, or printing its answer fails, or no line is
    left to read, the loop ends in that exception; otherwise the answer is
    printed, the next line is read and the loop goes on with it. *)
Lemma repl_iteration (L : Lib) db model query_var stdin :
  query_var <> "exit" ->
  let run := llm L query_var db model in
  (exists e, snd run = Raise e /\
     repl L db model query_var stdin = (fst run, Raise e)) \/
  (exists text e, snd run = Ok text /\ print_line L text = Raise e /\
     repl L db model query_var stdin
     = (fst run ++ [mkEvent (CPrintLine text) (Some e)], Raise e)) \/
  (exists text, snd run = Ok text /\ print_line L text = Ok tt /\
     stdin = [] /\
     repl L db model query_var stdin
     = (fst run ++ [mkEvent (CPrintLine text) None;
                    mkEvent (CInput query_prompt) (Some EOFError)],
        Raise EOFError)) \/
  (exists text line rest, snd run = Ok text /\ print_line L text = Ok tt /\
     stdin = line :: rest /\
     repl L db model query_var stdin
     = (fst run ++ [mkEvent (CPrintLine text) None;
                    mkEvent (CInput query_prompt) None]
                ++ fst (repl L db model line rest),
        snd (repl L db model line rest))).
Proof.
  intros Hq run. rewrite (repl_step _ _ _ _ _ Hq). fold run.
  destruct run as [t [text | e]].
  - rewrite bind_ok. cbn [fst snd].
    destruct (print_line L text) as [[] | e] eqn:Ep.
    + rewrite bind_lib_ok. cbn [fst snd].
      destruct stdin as [| line rest]; simpl input_line.
      * rewrite bind_lib_raise. cbn [fst snd].
        right; right; left. exists text. auto.
      * rewrite bind_lib_ok. cbn [fst snd].
        right; right; right. exists text, line, rest. auto.
    + rewrite bind_lib_raise. cbn [fst snd].
      right; left. exists text, e. auto.
  - left. exists e. auto.
Qed.

Lemma submitted_app (l1 l2 : list Call) :
  submitted (l1 ++ l2) = submitted l1 ++ submitted l2.
Proof.
  induction l1 as [| c l1 IH]; [reflexivity |].
  destruct c; simpl; rewrite IH; reflexivity.
Qed.

Lemma printed_app (l1 l2 : list Call) :
  printed (l1 ++ l2) = printed l1 ++ printed l2.
Proof.
  induction l1 as [| c l1 IH]; [reflexivity |].
  destruct c; simpl; rewrite IH; reflexivity.
Qed.

(** A run of [llm] queries the store once, first, and prints and reads
    nothing. *)
Lemma llm_trace_summary (L : Lib) question data_base model :
  submitted (calls (fst (llm L question data_base model)))
  = [(data_base, question)] /\
  printed (calls (fst (llm L question data_base model))) = [] /\
  filter is_query_prompt (calls (fst (llm L question data_base model))) = [].
Proof.
  rewrite llm_unfold. unfold calls.
  answer_cases; unfold lib; simpl; auto.
Qed.

Lemma llm_session_calls (L : Lib) question data_base model :
  question <> "exit" ->
  Forall (session_call data_base model)
         (calls (fst (llm L question data_base model))).
Proof.
  intro Hq. rewrite llm_unfold. unfold calls.
  answer_cases; unfold lib; simpl;
    repeat (constructor; [unfold session_call; simpl; auto |]);
    constructor.
Qed.

Lemma calls_app (t1 t2 : Trace) : calls (t1 ++ t2) = calls t1 ++ calls t2.
Proof. apply map_app. Qed.

Lemma until_exit_cons (query_var : string) (lines : list string) :
  query_var <> "exit" ->
  until_exit (query_var :: lines) = query_var :: until_exit lines.
Proof. intro H. apply String.eqb_neq in H. simpl. rewrite H. reflexivity. Qed.

Ltac loop_cases L db model query_var stdin Hq :=
  let e := fresh "e" in
  let text := fresh "text" in
  let Hrun := fresh "Hrun" in
  let Hprint := fresh "Hprint" in
  let Hs := fresh "Hs" in
  let Heq := fresh "Heq" in
  destruct (repl_iteration L db model query_var stdin Hq)
    as [(e & Hrun & Heq) | [(text & e & Hrun & Hprint & Heq)
       | [(text & Hrun & Hprint & Hs & Heq)
         | (text & ?line & ?rest & Hrun & Hprint & Hs & Heq)]]];
  rewrite Heq; clear Heq; cbn [fst snd];
  try discriminate Hs;
  try (inversion Hs; subst; clear Hs).

Lemma repl_session_calls (L : Lib) db model :
  forall stdin query_var,
    Forall (session_call db model)
           (calls (fst (repl L db model query_var stdin))).
Proof.
  induction stdin as [| line0 rest0 IH]; intro query_var;
    (destruct (string_dec query_var "exit") as [-> | Hq];
     [rewrite repl_exit; apply Forall_nil |]);
    [ loop_cases L db model query_var (@nil string) Hq
    | loop_cases L db model query_var (line0 :: rest0) Hq ];
    rewrite ?calls_app, ?Forall_app; repeat split;
    try (apply llm_session_calls; exact Hq);
    try (repeat constructor; unfold session_call; simpl; now auto);
    try apply IH.
Qed.

Lemma repl_submitted_prefix (L : Lib) db model :
  forall stdin query_var,
    prefix_of (map snd (submitted (calls (fst (repl L db model query_var
                                                    stdin)))))
              (until_exit (query_var :: stdin)).
Proof.
  induction stdin as [| line0 rest0 IH]; intro query_var;
    (destruct (string_dec query_var "exit") as [-> | Hq];
     [rewrite repl_exit; apply prefix_of_nil |]);
    rewrite (until_exit_cons _ _ Hq);
    destruct (llm_trace_summary L query_var db model) as (Hsub & _ & _);
    [ loop_cases L db model query_var (@nil string) Hq
    | loop_cases L db model query_var (line0 :: rest0) Hq ];
    rewrite ?calls_app, ?submitted_app, Hsub; simpl;
    apply prefix_of_cons; try apply prefix_of_nil.
  apply IH.
Qed.

(** A session that ends without an exception. *)
Lemma repl_complete (L : Lib) db model :
  forall stdin query_var,
    snd (repl L db model query_var stdin) = Ok tt ->
    let t := calls (fst (repl L db model query_var stdin)) in
    map snd (submitted t) = until_exit (query_var :: stdin) /\
    Forall2 (fun q text => snd (llm L q db model) = Ok text)
            (until_exit (query_var :: stdin)) (printed t) /\
    List.length (filter is_query_prompt t)
    = List.length (until_exit (query_var :: stdin)) /\
    In "exit" (query_var :: stdin).
Proof.
  induction stdin as [| line0 rest0 IH]; intros query_var;
    (destruct (string_dec query_var "exit") as [-> | Hq];
     [rewrite repl_exit; intros _; simpl; repeat split; auto; constructor |]);
    rewrite (until_exit_cons _ _ Hq);
    destruct (llm_trace_summary L query_var db model) as (Hsub & Hpr & Hin);
    [ loop_cases L db model query_var (@nil string) Hq
    | loop_cases L db model query_var (line0 :: rest0) Hq ];
    try discriminate.
  intro Hok.
  destruct (IH _ Hok) as (H1 & H2 & H3 & H4).
  rewrite !calls_app, !submitted_app, !printed_app, !filter_app, Hsub, Hpr,
    Hin, !length_app.
  simpl. repeat split.
  - f_equal. exact H1.
  - constructor; [exact Hrun | exact H2].
  - rewrite ?String.eqb_refl. simpl. rewrite H3. reflexivity.
  - right. exact H4.
Qed.

Lemma submitted_in (cs : list Call) (d : PyObj) (q : string) :
  In (d, q) (submitted cs) -> exists k, In (CSimilaritySearch d q k) cs.
Proof.
  induction cs as [| c cs IH]; simpl; [intros [] |].
  destruct c; simpl; intro H;
    try (destruct (IH H) as [k Hk]; exists k; right; exact Hk).
  destruct H as [H | H].
  - inversion H; subst. eexists. left. reflexivity.
  - destruct (IH H) as [k' Hk]. exists k'. right. exact Hk.
Qed.

Lemma submitted_none (cs : list Call) :
  Forall (fun c => is_search c = false) cs -> submitted cs = [].
Proof.
  induction 1 as [| c cs Hc Hcs IH]; [reflexivity |].
  destruct c; simpl in *; try exact IH. discriminate Hc.
Qed.

Lemma main_decompose (L : Lib) (stdin : list string) :
  main L stdin =
  (s <- main_setup L stdin ;;
   repl L (fst (fst s)) (snd (fst s)) (fst (snd s)) (snd (snd s))).
Proof.
  unfold main, main_setup.
  do 6 (rewrite bind_assoc; apply bind_ext; intro).
  unfold ret. rewrite bind_pure. reflexivity.
Qed.

Lemma count_bind {A B} (f : Call -> bool) (m : M A) (k : A -> M B) :
  List.length (filter f (calls (fst (bind m k))))
  = List.length (filter f (calls (fst m)))
    + match snd m with
      | Ok a => List.length (filter f (calls (fst (k a))))
      | Raise _ => 0
      end.
Proof.
  rewrite fst_bind, calls_app, filter_app, length_app.
  destruct (snd m); reflexivity.
Qed.

Lemma count_quiet (f : Call -> bool) (cs : list Call) :
  Forall (fun c => is_quiet c = true) cs ->
  (forall c, is_quiet c = true -> f c = false) ->
  List.length (filter f cs) = 0.
Proof.
  intros H Hf. rewrite filter_none; [reflexivity |].
  eapply Forall_impl; [| exact H]. exact Hf.
Qed.

Lemma quiet_not_search c : is_quiet c = true -> is_search c = false.
Proof. intro H. apply is_quiet_spec in H. tauto. Qed.

Lemma quiet_not_model_build c : is_quiet c = true -> is_model_build c = false.
Proof. intro H. apply is_quiet_spec in H. tauto. Qed.

Lemma quiet_not_index_build c : is_quiet c = true -> is_index_build c = false.
Proof. intro H. apply is_quiet_spec in H. tauto. Qed.

Lemma init_default_model_calls (L : Lib) :
  Forall (fun c => is_search c = false /\ is_index_build c = false)
         (calls (fst (init_default_model L))) /\
  List.length (filter is_model_build (calls (fst (init_default_model L))))
  <= 1.
Proof.
  destruct (init_default_model_cases L) as [(e & _ & ->) | [_ ->]];
    cbn [fst snd calls map ev_call filter is_model_build].
  - split; [repeat constructor | simpl; lia].
  - destruct (init_model_calls L default_config default_model_id)
      as [Hq Hc].
    split; [constructor; [split; reflexivity | exact Hq] | exact Hc].
Qed.

Lemma init_model_result (L : Lib) cfg model_id model :
  snd (init_model L cfg model_id) = Ok model ->
  exists generate_text,
    In (CHuggingFacePipeline generate_text)
       (calls (fst (init_model L cfg model_id))) /\
    hugging_face_pipeline L generate_text = Ok model.
Proof.
  unfold init_model, calls. rewrite bind_lib_ok. cbn [fst snd].
  answer_cases; try discriminate.
  unfold lib. simpl. intro H.
  eexists. split; [| exact H]. do 6 right. left. reflexivity.
Qed.

Lemma init_default_model_result (L : Lib) model :
  snd (init_default_model L) = Ok model ->
  exists generate_text,
    In (CHuggingFacePipeline generate_text)
       (calls (fst (init_default_model L))) /\
    hugging_face_pipeline L generate_text = Ok model.
Proof.
  destruct (init_default_model_cases L) as [(e & _ & ->) | [_ ->]];
    cbn [fst snd]; [discriminate |].
  intro H. destruct (init_model_result _ _ _ _ H) as (g & Hin & Hg).
  exists g. split; [right; exact Hin | exact Hg].
Qed.

(** What the main block does before the loop: no query goes to the vector
    store, the model is loaded at most once and the index built at most
    once; when the loop is reached, it is reached with the index and the
    model just built, and with the second line typed as the first query. *)
Lemma main_setup_builds_once (L : Lib) (stdin : list string) :
  let t := calls (fst (main_setup L stdin)) in
  Forall (fun c => is_search c = false) t /\
  List.length (filter is_model_build t) <= 1 /\
  List.length (filter is_index_build t) <= 1 /\
  (forall db model first rest,
      snd (main_setup L stdin) = Ok (db, model, (first, rest)) ->
      (exists path, stdin = path :: first :: rest) /\
      (exists docs embeddings,
          In (CFaissFromDocuments docs embeddings) t /\
          faiss_from_documents L docs embeddings = Ok db) /\
      (exists generate_text,
          In (CHuggingFacePipeline generate_text) t /\
          hugging_face_pipeline L generate_text = Ok model)).
Proof.
  cbv zeta. unfold main_setup.
  destruct (init_default_model_calls L) as [Hq1 Hc1].
  pose proof (init_default_model_result L) as Hmodel.
  apply Forall_and_inv in Hq1. destruct Hq1 as [Hs1 Hi1].
  destruct (init_default_model L) as [t1 [model | e1]];
    cbn [fst snd] in *;
    [rewrite bind_ok | rewrite bind_raise]; cbn [fst snd];
    [| repeat split;
       [ exact Hs1
       | exact Hc1
       | rewrite filter_none; [simpl; lia | exact Hi1]
       | discriminate | discriminate | discriminate ] ].
  destruct (Hmodel model eq_refl) as [g [Hg1 Hg2]].
  pose proof (user_documents_calls L) as Hud.
  assert (Hrest :
    forall (r : M (PyObj * PyObj * (string * list string))),
      Forall (fun c => is_search c = false) (calls (fst r)) ->
      List.length (filter is_model_build (calls (fst r))) = 0 ->
      List.length (filter is_index_build (calls (fst r))) <= 1 ->
      Forall (fun c => is_search c = false) (calls (t1 ++ fst r)) /\
      List.length (filter is_model_build (calls (t1 ++ fst r))) <= 1 /\
      List.length (filter is_index_build (calls (t1 ++ fst r))) <= 1).
  { intros r H1 H2 H3. rewrite calls_app, !filter_app, !length_app.
    rewrite Forall_app. repeat split.
    - exact Hs1.
    - exact H1.
    - lia.
    - rewrite (filter_none is_index_build (calls t1)); [simpl; lia |].
      exact Hi1. }
  match goal with
  | |- context [t1 ++ fst ?r] => set (tail := r)
  end.
  assert (Htail :
    Forall (fun c => is_search c = false) (calls (fst tail)) /\
    List.length (filter is_model_build (calls (fst tail))) = 0 /\
    List.length (filter is_index_build (calls (fst tail))) <= 1 /\
    (forall db m first rest,
        snd tail = Ok (db, m, (first, rest)) ->
        m = model /\
        (exists path, stdin = path :: first :: rest) /\
        (exists docs embeddings,
            In (CFaissFromDocuments docs embeddings) (calls (fst tail)) /\
            faiss_from_documents L docs embeddings = Ok db))).
  { subst tail.
    destruct (hugging_face_embeddings L embeddings_name)
      as [embeddings | e2];
      [rewrite bind_lib_ok | rewrite bind_lib_raise]; cbn [fst snd].
    2: { simpl. split; [repeat constructor |].
         split; [reflexivity |]. split; [lia | discriminate]. }
    destruct stdin as [| path stdin1]; simpl input_line;
      [rewrite bind_lib_raise | rewrite bind_lib_ok]; cbn [fst snd].
    { simpl. split; [repeat constructor |].
      split; [reflexivity |]. split; [lia | discriminate]. }
    specialize (Hud path).
    assert (Hs3 : Forall (fun c => is_search c = false)
                         (calls (fst (user_documents L path))))
      by (eapply Forall_impl; [| exact Hud]; exact quiet_not_search).
    pose proof (count_quiet is_model_build _ Hud quiet_not_model_build) as Hm3.
    pose proof (count_quiet is_index_build _ Hud quiet_not_index_build) as Hi3.
    destruct (user_documents L path) as [t3 [docs | e3]];
      cbn [fst snd] in *;
      [rewrite bind_ok | rewrite bind_raise]; cbn [fst snd].
    2: { simpl. rewrite Hm3, Hi3.
         split; [do 2 (constructor; [reflexivity |]); exact Hs3 |].
         split; [reflexivity |]. split; [lia | discriminate]. }
    destruct (faiss_from_documents L docs embeddings) as [db | e4] eqn:E4;
      [rewrite bind_lib_ok | rewrite bind_lib_raise]; cbn [fst snd].
    2: { simpl. rewrite !calls_app, !filter_app, !length_app, Hm3, Hi3.
         split; [do 2 (constructor; [reflexivity |]);
                 apply Forall_app; split; [exact Hs3 | repeat constructor] |].
         split; [reflexivity |]. split; [simpl; lia | discriminate]. }
    destruct stdin1 as [| first stdin2]; simpl input_line;
      [rewrite bind_lib_raise | rewrite bind_lib_ok]; cbn [fst snd];
      simpl; rewrite !calls_app, !filter_app, !length_app, Hm3, Hi3;
      (split; [do 2 (constructor; [reflexivity |]);
               apply Forall_app; split; [exact Hs3 | repeat constructor] |]);
      (split; [reflexivity |]); (split; [simpl; lia |]);
      [discriminate |].
    intros db' m first' rest' H. inversion H; subst.
    split; [reflexivity |]. split; [eexists; reflexivity |].
    exists docs, embeddings. split; [| exact E4].
    right. right. apply in_or_app. right. left. reflexivity. }
  destruct Htail as (T1 & T2 & T3 & T4).
  destruct (Hrest tail T1 T2 T3) as (R1 & R2 & R3).
  repeat split; try assumption.
  - destruct (T4 _ _ _ _ H) as (_ & Hp & _). exact Hp.
  - destruct (T4 _ _ _ _ H) as (_ & _ & docs & emb & Hin & Hf).
    exists docs, emb. split; [| exact Hf].
    rewrite calls_app. apply in_or_app. right. exact Hin.
  - destruct (T4 _ _ _ _ H) as (-> & _ & _).
    exists g. split; [| exact Hg2].
    rewrite calls_app. apply in_or_app. left. exact Hg1.
Qed.

(** C4. The command-line program never submits [exit] as a query.  It is
    the set-up followed by the loop; the set-up queries nothing and builds
    the model and the index at most once each, and the loop is entered with
    these.  A loop entered on [exit] ends at once without a call.  On any
    other query, one turn runs the pipeline once on that query, prints its
    answer, reads the next line and goes on with it (or ends in the
    exception met).  Every call of the loop uses the index and the model it
    was entered with and builds nothing; the queries submitted are, in
    order and once each, the lines typed before the first [exit]. *)
Theorem command_loop_never_submits_exit (L : Lib) (stdin : list string) :
  (forall d q,
      In (d, q) (submitted (calls (fst (main L stdin)))) -> q <> "exit") /\
  main L stdin
  = (s <- main_setup L stdin ;;
     repl L (fst (fst s)) (snd (fst s)) (fst (snd s)) (snd (snd s))) /\
  (Forall (fun c => is_search c = false) (calls (fst (main_setup L stdin))) /\
   List.length (filter is_model_build (calls (fst (main_setup L stdin)))) <= 1 /\
   List.length (filter is_index_build (calls (fst (main_setup L stdin)))) <= 1 /\
   (forall db model first rest,
       snd (main_setup L stdin) = Ok (db, model, (first, rest)) ->
       (exists path, stdin = path :: first :: rest) /\
       (exists docs embeddings,
           In (CFaissFromDocuments docs embeddings)
              (calls (fst (main_setup L stdin))) /\
           faiss_from_documents L docs embeddings = Ok db) /\
       (exists generate_text,
           In (CHuggingFacePipeline generate_text)
              (calls (fst (main_setup L stdin))) /\
           hugging_face_pipeline L generate_text = Ok model))) /\
  (forall db model rest, repl L db model "exit" rest = ret tt) /\
  (forall db model query_var rest,
      query_var <> "exit" ->
      (exists e, snd (llm L query_var db model) = Raise e /\
         repl L db model query_var rest
         = (fst (llm L query_var db model), Raise e)) \/
      (exists text e,
         snd (llm L query_var db model) = Ok text /\
         print_line L text = Raise e /\
         repl L db model query_var rest
         = (fst (llm L query_var db model)
              ++ [mkEvent (CPrintLine text) (Some e)], Raise e)) \/
      (exists text,
         snd (llm L query_var db model) = Ok text /\
         print_line L text = Ok tt /\ rest = [] /\
         repl L db model query_var rest
         = (fst (llm L query_var db model)
              ++ [mkEvent (CPrintLine text) None;
                  mkEvent (CInput query_prompt) (Some EOFError)],
            Raise EOFError)) \/
      (exists text line rest',
         snd (llm L query_var db model) = Ok text /\
         print_line L text = Ok tt /\ rest = line :: rest' /\
         repl L db model query_var rest
         = (fst (llm L query_var db model)
              ++ [mkEvent (CPrintLine text) None;
                  mkEvent (CInput query_prompt) None]
              ++ fst (repl L db model line rest'),
            snd (repl L db model line rest')))) /\
  (forall db model query_var rest,
      Forall (session_call db model)
             (calls (fst (repl L db model query_var rest))) /\
      prefix_of
        (map snd (submitted (calls (fst (repl L db model query_var rest)))))
        (until_exit (query_var :: rest)) /\
      (snd (repl L db model query_var rest) = Ok tt ->
       map snd (submitted (calls (fst (repl L db model query_var rest))))
       = until_exit (query_var :: rest) /\
       Forall2 (fun q text => snd (llm L q db model) = Ok text)
               (until_exit (query_var :: rest))
               (printed (calls (fst (repl L db model query_var rest)))) /\
       List.length (filter is_query_prompt
                      (calls (fst (repl L db model query_var rest))))
       = List.length (until_exit (query_var :: rest)) /\
       In "exit" (query_var :: rest))).
Proof.
  split; [| split; [| split; [| split; [| split]]]].
  - intros d q H. rewrite main_decompose, fst_bind, calls_app, submitted_app in H.
    destruct (main_setup_builds_once L stdin) as (Hs & _).
    rewrite (submitted_none _ Hs) in H. simpl in H.
    destruct (snd (main_setup L stdin)) as [s | e]; [| destruct H].
    apply submitted_in in H. destruct H as [k H].
    pose proof (repl_session_calls L (fst (fst s)) (snd (fst s))
                  (snd (snd s)) (fst (snd s))) as Hall.
    rewrite Forall_forall in Hall. specialize (Hall _ H).
    destruct Hall as (_ & _ & _ & Hq & _). exact Hq.
  - apply main_decompose.
  - apply main_setup_builds_once.
  - intros. apply repl_exit.
  - intros db model query_var rest Hq.
    apply (repl_iteration L db model query_var rest Hq).
  - intros db model query_var rest.
    split; [apply repl_session_calls |].
    split; [apply repl_submitted_prefix |].
    apply repl_complete.
Qed.

(** ** [rerank]: the three best *)

Lemma slice_last3 {A} (l : list A) :
  slice_from (-3) l = skipn (List.length l - 3) l.
Proof.
  unfold slice_from. change (-3 <? 0)%Z with true. cbv iota.
  f_equal. lia.
Qed.

Lemma top3_skipn (sorted_indices : list nat) :
  top3 sorted_indices
  = rev (skipn (List.length sorted_indices - 3) sorted_indices).
Proof. unfold top3. rewrite slice_last3. reflexivity. Qed.

Lemma top3_length (sorted_indices : list nat) :
  List.length (top3 sorted_indices) = min 3 (List.length sorted_indices).
Proof. rewrite top3_skipn, length_rev, length_skipn. lia. Qed.

Lemma top3_incl (sorted_indices : list nat) (i : nat) :
  In i (top3 sorted_indices) -> In i sorted_indices.
Proof.
  rewrite top3_skipn, <- in_rev. intro H.
  rewrite <- (firstn_skipn (List.length sorted_indices - 3) sorted_indices).
  apply in_or_app. right. exact H.
Qed.

Lemma argsort_length scores indices :
  is_argsort scores indices -> List.length indices = List.length scores.
Proof.
  intros [Hp _]. rewrite (Permutation_length Hp). apply length_seq.
Qed.

Lemma argsort_in scores indices i :
  is_argsort scores indices -> (In i indices <-> i < List.length scores).
Proof.
  intros [Hp _]. split; intro H.
  - apply (Permutation_in _ Hp) in H. apply in_seq in H. lia.
  - apply (Permutation_in _ (Permutation_sym Hp)). apply in_seq. lia.
Qed.

Lemma argsort_NoDup scores indices :
  is_argsort scores indices -> NoDup indices.
Proof.
  intros [Hp _].
  apply (Permutation_NoDup (Permutation_sym Hp)). apply seq_NoDup.
Qed.

Lemma StronglySorted_app_inv {A} (R : A -> A -> Prop) (l1 l2 : list A) :
  StronglySorted R (l1 ++ l2) ->
  StronglySorted R l1 /\ StronglySorted R l2 /\
  (forall x y, In x l1 -> In y l2 -> R x y).
Proof.
  induction l1 as [| a l1 IH]; simpl; intro H.
  - split; [constructor |]. split; [exact H |]. intros x y [].
  - apply StronglySorted_inv in H. destruct H as [Hs Hall].
    destruct (IH Hs) as (H1 & H2 & H3).
    rewrite Forall_app in Hall. destruct Hall as [Ha1 Ha2].
    split; [constructor; assumption |]. split; [exact H2 |].
    intros x y [-> | Hx] Hy.
    + rewrite Forall_forall in Ha2. apply Ha2. exact Hy.
    + apply H3; assumption.
Qed.

Lemma StronglySorted_snoc {A} (R : A -> A -> Prop) (l : list A) (x : A) :
  StronglySorted R l -> (forall y, In y l -> R y x) ->
  StronglySorted R (l ++ [x]).
Proof.
  induction l as [| a l IH]; simpl; intros Hs Hx.
  - repeat constructor.
  - apply StronglySorted_inv in Hs. destruct Hs as [Hs Hall].
    constructor.
    + apply IH; [exact Hs | intros y Hy; apply Hx; right; exact Hy].
    + apply Forall_app. split; [exact Hall |].
      constructor; [apply Hx; left; reflexivity | constructor].
Qed.

Lemma StronglySorted_rev {A} (R : A -> A -> Prop) (l : list A) :
  StronglySorted R l -> StronglySorted (fun x y => R y x) (rev l).
Proof.
  induction l as [| a l IH]; simpl; intro Hs; [constructor |].
  apply StronglySorted_inv in Hs. destruct Hs as [Hs Hall].
  apply StronglySorted_snoc; [apply IH; exact Hs |].
  intros y Hy. apply in_rev in Hy.
  rewrite Forall_forall in Hall. apply Hall. exact Hy.
Qed.

(** The selection of [rerank] out of any list of indices sorted by score. *)
Lemma top3_selects_best scores indices (n : nat) :
  is_argsort scores indices ->
  List.length scores = n ->
  List.length (top3 indices) = min 3 n /\
  NoDup (top3 indices) /\
  Forall (fun i => i < n) (top3 indices) /\
  StronglySorted (fun i j => (score_at scores j <= score_at scores i)%Z)
                 (top3 indices) /\
  (forall i m, In i (top3 indices) -> m < n -> ~ In m (top3 indices) ->
               (score_at scores m <= score_at scores i)%Z).
Proof.
  intros Harg Hn.
  pose proof (argsort_length _ _ Harg) as Hlen.
  pose proof (argsort_NoDup _ _ Harg) as Hnd.
  destruct Harg as [Hp Hs].
  set (k := List.length indices - 3).
  assert (Hsplit : indices = firstn k indices ++ skipn k indices)
    by (symmetry; apply firstn_skipn).
  rewrite Hsplit in Hs, Hnd.
  apply StronglySorted_app_inv in Hs. destruct Hs as (_ & Hs2 & Hcross).
  split; [rewrite top3_length; lia |].
  split.
  { rewrite top3_skipn. fold k. apply NoDup_rev.
    apply NoDup_app_remove_l in Hnd. exact Hnd. }
  split.
  { apply Forall_forall. intros i Hi. apply top3_incl in Hi.
    apply (Permutation_in _ Hp) in Hi. apply in_seq in Hi. lia. }
  split.
  { rewrite top3_skipn. fold k.
    apply (StronglySorted_rev _ _ Hs2). }
  intros i m Hi Hm Hnot.
  rewrite top3_skipn in Hi, Hnot. fold k in Hi, Hnot.
  rewrite <- in_rev in Hi, Hnot.
  apply Hcross; [| exact Hi].
  assert (Hin : In m indices).
  { apply (Permutation_in _ (Permutation_sym Hp)). apply in_seq. lia. }
  rewrite Hsplit in Hin. apply in_app_or in Hin.
  destruct Hin as [Hin | Hin]; [exact Hin | contradiction].
Qed.

(** The loop of [rerank] does not fail on valid indices into a list of
    entries that have a second element. *)
Lemma build_context_total contents :
  Forall (fun item => 2 <= List.length item) contents ->
  forall indices context,
    Forall (fun i => i < List.length contents) indices ->
    exists result, build_context contents indices context = Ok result.
Proof.
  intros Hitems.
  induction indices as [| index rest IH]; intros context Hall;
    cbn [build_context].
  - eexists; reflexivity.
  - apply Forall_cons_iff in Hall. destruct Hall as [Hi Hrest].
    destruct (nth_error contents index) as [item |] eqn:Ei.
    + assert (Hitem : 2 <= List.length item).
      { rewrite Forall_forall in Hitems. apply Hitems.
        apply (nth_error_In _ _ Ei). }
      destruct (nth_error item 1) as [content |] eqn:Ec.
      * apply IH. exact Hrest.
      * apply nth_error_None in Ec. lia.
    + apply nth_error_None in Ei. lia.
Qed.

(** The reference [argsort] meets what is asked of [np.argsort]. *)
Lemma insert_index_perm scores i sorted :
  Permutation (insert_index scores i sorted) (i :: sorted).
Proof.
  induction sorted as [| j rest IH]; simpl; [apply Permutation_refl |].
  destruct (score_at scores i <=? score_at scores j)%Z.
  - apply Permutation_refl.
  - apply perm_trans with (j :: i :: rest).
    + apply perm_skip. exact IH.
    + apply perm_swap.
Qed.

Lemma insert_index_sorted scores i sorted :
  StronglySorted (fun a b => (score_at scores a <= score_at scores b)%Z)
                 sorted ->
  StronglySorted (fun a b => (score_at scores a <= score_at scores b)%Z)
                 (insert_index scores i sorted).
Proof.
  induction sorted as [| j rest IH]; simpl; intro Hs.
  - repeat constructor.
  - apply StronglySorted_inv in Hs. destruct Hs as [Hs Hall].
    destruct (score_at scores i <=? score_at scores j)%Z eqn:E.
    + apply Z.leb_le in E. constructor.
      * constructor; assumption.
      * constructor; [exact E |].
        eapply Forall_impl; [| exact Hall]. simpl. intros a Ha. lia.
    + apply Z.leb_gt in E. constructor; [apply IH; exact Hs |].
      apply (Permutation_Forall
               (Permutation_sym (insert_index_perm scores i rest))).
      constructor; [lia | exact Hall].
Qed.

Lemma insertion_argsort_is_argsort (scores : list Z) :
  is_argsort scores (insertion_argsort scores).
Proof.
  unfold is_argsort, insertion_argsort.
  generalize (seq 0 (List.length scores)) as l.
  induction l as [| i l [IHp IHs]]; simpl.
  - split; [apply Permutation_refl | constructor].
  - split.
    + apply perm_trans with (i :: fold_right (insert_index scores) [] l).
      * apply insert_index_perm.
      * apply perm_skip. exact IHp.
    + apply insert_index_sorted. exact IHs.
Qed.

(** C1, as amended.  When the cross-encoder is loaded and yields one score
    per pair, [rerank] returns the concatenation, without any other
    change, of the page contents of the [min 3 n] best-scored of the [n]
    pairs, in descending order of score: the three best when there are at
    least three pairs, all of them when there are fewer. *)
Theorem rerank_concatenates_top_min3 (L : Lib)
  (contents : list (list string)) (tokenizer model inputs : PyObj)
  (scores : list Z) :
  auto_tokenizer_from_pretrained L reranker_name None = Ok tokenizer ->
  seq_cls_from_pretrained L reranker_name = Ok model ->
  model_eval L model = Ok tt ->
  tokenize L tokenizer contents 512 = Ok inputs ->
  logits L model inputs = Ok scores ->
  List.length scores = List.length contents ->
  Forall (fun item => List.length item = 2) contents ->
  is_argsort scores (argsort L scores) ->
  exists result,
    snd (rerank L contents) = Ok result /\
    is_top_concat (min 3 (List.length contents)) contents scores result /\
    (3 <= List.length contents -> is_top_concat 3 contents scores result).
Proof.
  intros E1 E2 E3 E4 E5 Hlen Hitems Harg.
  destruct (top3_selects_best scores (argsort L scores)
              (List.length contents) Harg Hlen)
    as (Hk & Hnd & Hall & Hsorted & Hbest).
  assert (Hitems2 : Forall (fun item => 2 <= List.length item) contents).
  { eapply Forall_impl; [| exact Hitems]. simpl. intros item ->. lia. }
  destruct (build_context_total contents Hitems2 (top3 (argsort L scores)) ""
              Hall) as [result Hres].
  assert (Htop : is_top_concat (min 3 (List.length contents)) contents scores
                               result).
  { exists (top3 (argsort L scores)).
    repeat (split; [assumption |]).
    apply build_context_ok in Hres. destruct Hres as [_ ->]. reflexivity. }
  exists result. split; [| split].
  - unfold rerank.
    rewrite E1, bind_lib_ok; cbn [fst snd].
    rewrite E2, bind_lib_ok; cbn [fst snd].
    rewrite E3, bind_lib_ok; cbn [fst snd].
    rewrite E4, bind_lib_ok; cbn [fst snd].
    rewrite E5, bind_lib_ok; cbn [fst snd].
    exact Hres.
  - exact Htop.
  - intro H3. replace 3 with (min 3 (List.length contents)) by lia.
    exact Htop.
Qed.

(** Four pairs scored 2, 7, 1, 5: the contents scored 7, 5 and 2. *)
Lemma rerank_concatenates_top_min3_witness :
  let L := demo_lib demo_names demo_scores in
  let contents := [["q"; "alpha"]; ["q"; "beta"]; ["q"; "gamma"];
                   ["q"; "delta"]] in
  auto_tokenizer_from_pretrained L reranker_name None = Ok (Obj 3) /\
  seq_cls_from_pretrained L reranker_name = Ok (Obj 8) /\
  model_eval L (Obj 8) = Ok tt /\
  tokenize L (Obj 3) contents 512 = Ok (Obj 9) /\
  logits L (Obj 8) (Obj 9) = Ok demo_scores /\
  List.length demo_scores = List.length contents /\
  Forall (fun item => List.length item = 2) contents /\
  is_argsort demo_scores (argsort L demo_scores) /\
  exists result,
    snd (rerank L contents) = Ok result /\
    is_top_concat (min 3 (List.length contents)) contents demo_scores
                  result /\
    (3 <= List.length contents ->
     is_top_concat 3 contents demo_scores result).
Proof.
  intros L contents.
  assert (Hitems : Forall (fun item => List.length item = 2) contents)
    by (repeat constructor).
  assert (Harg : is_argsort demo_scores (argsort L demo_scores))
    by (apply insertion_argsort_is_argsort).
  repeat (split; [first [reflexivity | assumption] |]).
  apply (rerank_concatenates_top_min3 L contents (Obj 3) (Obj 8) (Obj 9)
           demo_scores);
    first [reflexivity | assumption].
Defined.

(** C1 as stated fails on a single pair: [rerank] returns the content of
    that pair, which is not the concatenation of the contents of three
    pairs of the list. *)
Lemma rerank_single_pair_not_three :
  snd (rerank (demo_lib demo_names [0%Z]) [["q"; "a"]]) = Ok "a" /\
  forall result, ~ is_top_concat 3 [["q"; "a"]] [0%Z] result.
Proof.
  split; [reflexivity |].
  intros result (selected & Hlen & Hnd & Hall & _).
  destruct selected as [| a [| b [| c [| d rest]]]]; try discriminate Hlen.
  apply Forall_cons_iff in Hall. destruct Hall as [Ha Hall].
  apply Forall_cons_iff in Hall. destruct Hall as [Hb _].
  simpl in Ha, Hb.
  assert (a = b) by lia. subst b.
  apply NoDup_cons_iff in Hnd. destruct Hnd as [Hnot _].
  apply Hnot. left. reflexivity.
Qed.

(** C9. The selection [sorted_indices[-3:][::-1]] of [rerank] stays in
    bounds: every index selected out of the argsorted scores is a valid
    index into [contents]; when [contents] has fewer than three entries
    the selection holds every index, each once; and the loop that reads
    [contents[index][1]] then ends without an [IndexError]. *)
Theorem top3_selection_in_bounds (scores : list Z)
  (contents : list (list string)) (sorted_indices : list nat) :
  List.length scores = List.length contents ->
  is_argsort scores sorted_indices ->
  Forall (fun index => index < List.length contents) (top3 sorted_indices) /\
  (List.length contents < 3 ->
   top3 sorted_indices = rev sorted_indices /\
   Permutation (top3 sorted_indices) (seq 0 (List.length contents))) /\
  (Forall (fun item => 2 <= List.length item) contents ->
   exists context,
     build_context contents (top3 sorted_indices) "" = Ok context).
Proof.
  intros Hlen Harg.
  assert (Hall : Forall (fun index => index < List.length contents)
                        (top3 sorted_indices)).
  { apply Forall_forall. intros i Hi. apply top3_incl in Hi.
    apply (argsort_in _ _ _ Harg) in Hi. lia. }
  split; [exact Hall |]. split.
  - intro Hshort.
    pose proof (argsort_length _ _ Harg) as Hl.
    assert (Hrev : top3 sorted_indices = rev sorted_indices).
    { rewrite top3_skipn.
      replace (List.length sorted_indices - 3) with 0 by lia.
      reflexivity. }
    split; [exact Hrev |].
    rewrite Hrev, <- Hlen.
    apply perm_trans with sorted_indices.
    + apply Permutation_sym, Permutation_rev.
    + destruct Harg as [Hp _]. exact Hp.
  - intro Hitems. apply build_context_total; assumption.
Qed.

(** Two pairs scored 4 and 9: both are selected, the better first. *)
Lemma top3_selection_in_bounds_witness :
  List.length [4%Z; 9%Z] = List.length [["q"; "a"]; ["q"; "b"]] /\
  is_argsort [4%Z; 9%Z] (insertion_argsort [4%Z; 9%Z]) /\
  Forall (fun index => index < 2) (top3 (insertion_argsort [4%Z; 9%Z])) /\
  (2 < 3 ->
   top3 (insertion_argsort [4%Z; 9%Z]) = rev (insertion_argsort [4%Z; 9%Z]) /\
   Permutation (top3 (insertion_argsort [4%Z; 9%Z])) (seq 0 2)) /\
  (Forall (fun item => 2 <= List.length item) [["q"; "a"]; ["q"; "b"]] ->
   exists context,
     build_context [["q"; "a"]; ["q"; "b"]]
                   (top3 (insertion_argsort [4%Z; 9%Z])) "" = Ok context).
Proof.
  split; [reflexivity |].
  split; [apply insertion_argsort_is_argsort |].
  apply (top3_selection_in_bounds [4%Z; 9%Z] [["q"; "a"]; ["q"; "b"]]
           (insertion_argsort [4%Z; 9%Z])).
  - reflexivity.
  - apply insertion_argsort_is_argsort.
Defined.

(** ** Paths and patterns *)

Lemma str_length_app (a b : string) :
  String.length (a ++ b) = String.length a + String.length b.
Proof. induction a as [| c a IH]; simpl; [| rewrite IH]; reflexivity. Qed.

Lemma str_take_app (a b : string) : str_take (String.length a) (a ++ b) = a.
Proof. induction a as [| c a IH]; simpl; [destruct b | rewrite IH]; reflexivity. Qed.

Lemma str_drop_app (a b : string) : str_drop (String.length a) (a ++ b) = b.
Proof. induction a as [| c a IH]; simpl; [| exact IH]; reflexivity. Qed.

Lemma endswith_spec (s suffix : string) :
  endswith s suffix = true <-> exists x, s = (x ++ suffix)%string.
Proof.
  split.
  - induction s as [| c s IH]; cbn [endswith]; intro H.
    + rewrite orb_false_r in H. apply String.eqb_eq in H. subst suffix.
      exists "". reflexivity.
    + apply orb_true_iff in H. destruct H as [H | H].
      * apply String.eqb_eq in H. exists "". exact H.
      * destruct (IH H) as [x ->]. exists (String c x). reflexivity.
  - intros [x ->]. induction x as [| c x IH]; cbn [append].
    + destruct suffix; cbn [endswith]; rewrite String.eqb_refl; reflexivity.
    + cbn [endswith]. rewrite IH. apply orb_true_r.
Qed.

Lemma rfind_lower (c : ascii) (s : string) : (-1 <= rfind c s)%Z.
Proof.
  induction s as [| d s IH]; simpl; [lia |].
  destruct (0 <=? rfind c s)%Z eqn:E; [apply Z.leb_le in E; lia |].
  destruct (Ascii.eqb d c); lia.
Qed.

Lemma rfind_absent (c : ascii) (s : string) :
  contains_char c s = false -> rfind c s = (-1)%Z.
Proof.
  induction s as [| d s IH]; simpl; [reflexivity |].
  intro H. apply orb_false_iff in H. destruct H as [Hd Hs].
  rewrite (IH Hs), Hd. reflexivity.
Qed.

(** The last [c] of [a ++ c :: b], when [b] has none, is the one shown. *)
Lemma rfind_last (c : ascii) (a b : string) :
  contains_char c b = false ->
  rfind c (a ++ String c b) = Z.of_nat (String.length a).
Proof.
  intro Hb. induction a as [| d a IH].
  - simpl. rewrite (rfind_absent _ _ Hb). simpl.
    rewrite Ascii.eqb_refl. reflexivity.
  - cbn [append rfind String.length]. rewrite IH.
    replace (0 <=? Z.of_nat (String.length a))%Z with true
      by (symmetry; apply Z.leb_le; lia).
    lia.
Qed.

Lemma contains_char_app (c : ascii) (a b : string) :
  contains_char c (a ++ b) = contains_char c a || contains_char c b.
Proof.
  induction a as [| d a IH]; simpl; [reflexivity |].
  rewrite IH. apply orb_assoc.
Qed.

Lemma has_magic_app (a b : string) :
  has_magic (a ++ b) = has_magic a || has_magic b.
Proof.
  induction a as [| d a IH]; simpl; [reflexivity |].
  rewrite IH. apply orb_assoc.
Qed.

Lemma has_magic_rstrip (c : ascii) (s : string) :
  has_magic s = false -> has_magic (rstrip c s) = false.
Proof.
  induction s as [| d s IH]; simpl; [reflexivity |].
  intro H. apply orb_false_iff in H. destruct H as [Hd Hs].
  specialize (IH Hs).
  destruct (rstrip c s) as [| r rs].
  - destruct (Ascii.eqb d c); simpl; [reflexivity |].
    rewrite Hd. reflexivity.
  - cbn [has_magic]. cbn [has_magic] in IH. rewrite Hd. exact IH.
Qed.

Lemma path_join_prefix (a b : string) :
  startswith_char b sep = false ->
  path_join a b = (join_prefix a ++ b)%string.
Proof.
  intro Hb. unfold path_join, join_prefix. rewrite Hb.
  destruct (is_empty a || endswith a "/"); [reflexivity |].
  rewrite str_app_assoc. reflexivity.
Qed.

Lemma join_prefix_shape (a : string) :
  join_prefix a = "" \/ exists a0, join_prefix a = (a0 ++ "/")%string.
Proof.
  unfold join_prefix.
  destruct (is_empty a) eqn:Ee; simpl.
  - left. destruct a; [reflexivity | discriminate Ee].
  - right. destruct (endswith a "/") eqn:E.
    + apply endswith_spec in E. exact E.
    + exists a. reflexivity.
Qed.

Lemma no_sep_no_leading_sep (s : string) :
  contains_char sep s = false -> startswith_char s sep = false.
Proof.
  destruct s as [| c s]; simpl; [reflexivity |].
  intro H. apply orb_false_iff in H. tauto.
Qed.

(** Splitting a path made of a prefix ending in a slash and of a last
    component without a slash gives the component back. *)
Lemma split_point (pre b : string) :
  (pre = "" \/ exists a0, pre = (a0 ++ "/")%string) ->
  contains_char sep b = false ->
  Z.to_nat (rfind sep (pre ++ b) + 1) = String.length pre.
Proof.
  intros [-> | [a0 ->]] Hb.
  - simpl. rewrite (rfind_absent _ _ Hb). reflexivity.
  - rewrite str_app_assoc. simpl append.
    change "/"%char with sep.
    rewrite (rfind_last sep a0 b Hb), str_length_app. simpl. lia.
Qed.

Lemma path_split_join (a b : string) :
  contains_char sep b = false ->
  path_split (path_join a b) = (split_head (join_prefix a), b).
Proof.
  intro Hb.
  rewrite (path_join_prefix a b (no_sep_no_leading_sep _ Hb)).
  unfold path_split, split_head.
  rewrite (split_point _ _ (join_prefix_shape a) Hb).
  rewrite str_take_app, str_drop_app.
  destruct (negb (is_empty (join_prefix a))
            && negb (all_char sep (join_prefix a))); reflexivity.
Qed.

Lemma glob_dirname_eq (a : string) :
  glob_dirname a = split_head (join_prefix a).
Proof.
  unfold glob_dirname. rewrite path_split_join; reflexivity.
Qed.

Lemma ascii_eqb_sym (a b : ascii) : Ascii.eqb a b = Ascii.eqb b a.
Proof.
  destruct (Ascii.eqb_spec a b) as [-> | Hab].
  - symmetry. apply Ascii.eqb_refl.
  - symmetry. apply Ascii.eqb_neq. intro H. apply Hab. symmetry. exact H.
Qed.

(** A pattern without wildcard matches its own text only. *)
Lemma fnmatch_literal (pat : string) :
  has_magic pat = false ->
  forall name, fnmatch name pat = String.eqb name pat.
Proof.
  induction pat as [| p pat IH]; intros Hm name.
  - destruct name; reflexivity.
  - cbn [has_magic] in Hm. apply orb_false_iff in Hm.
    destruct Hm as [Hp Hm]. unfold is_magic_char in Hp.
    apply orb_false_iff in Hp. destruct Hp as [Hp Hb].
    apply orb_false_iff in Hp. destruct Hp as [Hstar Hquest].
    cbn [fnmatch]. rewrite Hstar.
    destruct name as [| c name]; [reflexivity |].
    rewrite Hquest, (IH Hm). cbn [orb String.eqb].
    rewrite (ascii_eqb_sym p c). reflexivity.
Qed.

(** A star followed by plain text matches the names that end in it. *)
Lemma fnmatch_star (ext : string) :
  has_magic ext = false ->
  forall name, fnmatch name (String "*" ext) = endswith name ext.
Proof.
  intros Hm name. cbn [fnmatch].
  change (Ascii.eqb "*" "*") with true. cbv iota.
  induction name as [| c name IH].
  - cbn [endswith]. rewrite (fnmatch_literal _ Hm). reflexivity.
  - cbn [endswith]. rewrite (fnmatch_literal _ Hm), IH. reflexivity.
Qed.

Lemma path_join_empty (b : string) : path_join "" b = b.
Proof. unfold path_join. destruct (startswith_char b sep); reflexivity. Qed.

Lemma has_magic_glob_dirname (directory : string) :
  has_magic directory = false -> has_magic (glob_dirname directory) = false.
Proof.
  intro H. rewrite glob_dirname_eq. unfold split_head.
  assert (Hp : has_magic (join_prefix directory) = false).
  { unfold join_prefix.
    destruct (is_empty directory || endswith directory "/"); [exact H |].
    rewrite has_magic_app, H. reflexivity. }
  destruct (negb (is_empty (join_prefix directory))
            && negb (all_char sep (join_prefix directory)));
    [apply has_magic_rstrip |]; exact Hp.
Qed.

(** What [glob.glob] answers to a pattern of [user_documents]: the
    entries of the directory that are not hidden and end in the extension,
    as paths, or the exception of the listing. *)
Lemma glob_star_extension (L : Lib) (directory ext : string) :
  has_magic directory = false ->
  has_magic ext = false ->
  contains_char sep ext = false ->
  glob L (path_join directory ("*" ++ ext))
  = match listing L directory with
    | Ok names =>
      Ok (map (path_join (glob_dirname directory))
              (filter (fun name => endswith name ext)
                      (filter (fun name => negb (ishidden name)) names)))
    | Raise e => Raise e
    end.
Proof.
  intros Hd He Hs.
  assert (Hb : contains_char sep ("*" ++ ext) = false) by exact Hs.
  unfold glob. rewrite (path_split_join _ _ Hb), <- glob_dirname_eq.
  cbn [append].
  assert (H1 : glob1 L (glob_dirname directory) (String "*" ext)
               = match listing L directory with
                 | Ok names =>
                   Ok (filter (fun name => endswith name ext)
                         (filter (fun name => negb (ishidden name)) names))
                 | Raise e => Raise e
                 end).
  { unfold glob1, listing. cbv zeta.
    destruct (listdir L (if is_empty (glob_dirname directory) then "."
                         else glob_dirname directory)) as [names | e];
      [| reflexivity].
    change (ishidden (String "*" ext)) with false. cbv iota.
    f_equal. apply filter_ext. intro name. apply (fnmatch_star _ He). }
  destruct (is_empty (glob_dirname directory)) eqn:Ee.
  - rewrite H1. destruct (listing L directory) as [names | e];
      [| reflexivity].
    destruct (glob_dirname directory); [| discriminate Ee].
    f_equal. symmetry. erewrite map_ext; [apply map_id |].
    apply path_join_empty.
  - rewrite (has_magic_glob_dirname _ Hd), andb_false_r.
    cbn [glob_in_dirs]. rewrite H1.
    destruct (listing L directory) as [names | e]; [| reflexivity].
    rewrite app_nil_r. reflexivity.
Qed.

(** The six extensions: a dot, then letters. *)
Lemma file_extensions_shape (ext : string) :
  In ext file_extensions ->
  has_magic ext = false /\ contains_char sep ext = false /\
  (exists e, ext = String extsep e /\ contains_char extsep e = false) /\
  (exists loader, loaders ext = Some loader).
Proof.
  intro H. in_cases H; subst ext;
    (split; [reflexivity |]); (split; [reflexivity |]);
    (split; [eexists; split; reflexivity | eexists; reflexivity]).
Qed.

(** [os.path.splitext] finds the extension a file was selected by. *)
Lemma splitext_selected (dirname name ext : string) :
  In ext file_extensions ->
  contains_char sep name = false ->
  ishidden name = false ->
  endswith name ext = true ->
  snd (splitext (path_join dirname name)) = ext.
Proof.
  intros Hext Hsep Hhid Hend.
  destruct (file_extensions_shape _ Hext)
    as (_ & Hes & (e & -> & Hedot) & _).
  apply endswith_spec in Hend. destruct Hend as [x ->].
  rewrite contains_char_app in Hsep. apply orb_false_iff in Hsep.
  destruct Hsep as [Hxsep _].
  destruct x as [| c x]; [discriminate Hhid |].
  cbn in Hhid.
  rewrite (path_join_prefix _ _
             (no_sep_no_leading_sep _ ltac:(rewrite contains_char_app;
                apply orb_false_iff; split; [exact Hxsep | exact Hes]))).
  set (pre := join_prefix dirname).
  set (stem := String c x) in *.
  assert (Hname : contains_char sep (stem ++ String extsep e) = false)
    by (rewrite contains_char_app; apply orb_false_iff; split;
        [exact Hxsep | exact Hes]).
  pose proof (split_point pre _ (join_prefix_shape dirname) Hname) as Hsp.
  pose proof (rfind_lower sep (pre ++ stem ++ String extsep e)) as Hlow.
  assert (Hdot : rfind extsep (pre ++ stem ++ String extsep e)
                 = Z.of_nat (String.length (pre ++ stem))).
  { rewrite <- str_app_assoc. apply rfind_last. exact Hedot. }
  unfold splitext. rewrite Hdot.
  replace (rfind sep (pre ++ stem ++ String extsep e)
           <? Z.of_nat (String.length (pre ++ stem)))%Z with true
    by (symmetry; apply Z.ltb_lt; rewrite str_length_app;
        subst stem; simpl String.length; lia).
  rewrite Hsp, Nat2Z.id, str_drop_app.
  replace (String.length (pre ++ stem) - String.length pre)
    with (String.length stem) by (rewrite str_length_app; lia).
  rewrite str_take_app.
  assert (Hnd : has_non_dot stem = true).
  { subst stem. cbn [has_non_dot]. rewrite Hhid. reflexivity. }
  rewrite Hnd. cbn [snd].
  rewrite <- str_app_assoc. apply str_drop_app.
Qed.

(** ** [user_documents] *)

Lemma discover_result (L : Lib) (directory : string) (names : list string) :
  has_magic directory = false ->
  listing L directory = Ok names ->
  forall extensions files,
    incl extensions file_extensions ->
    snd (discover L directory extensions files)
    = Ok (files
          ++ flat_map
               (fun extension =>
                  map (path_join (glob_dirname directory))
                      (filter (fun name => endswith name extension)
                         (filter (fun name => negb (ishidden name)) names)))
               extensions).
Proof.
  intros Hd Hl.
  induction extensions as [| extension rest IH]; intros files Hincl;
    cbn [discover flat_map].
  - rewrite app_nil_r. reflexivity.
  - destruct (file_extensions_shape extension
                (Hincl _ (or_introl eq_refl))) as (Hm & Hs & _).
    rewrite (glob_star_extension L directory extension Hd Hm Hs), Hl.
    rewrite bind_lib_ok. cbn [snd].
    rewrite IH by (intros x Hx; apply Hincl; right; exact Hx).
    rewrite app_assoc. reflexivity.
Qed.

Lemma discover_selected (L : Lib) (directory : string) (names : list string) :
  has_magic directory = false ->
  listing L directory = Ok names ->
  snd (discover L directory file_extensions [])
  = Ok (selected_files names directory).
Proof.
  intros Hd Hl.
  rewrite (discover_result L directory names Hd Hl file_extensions []
             (incl_refl _)).
  reflexivity.
Qed.

(** When the listing of the directory raises, so does the first [glob],
    and [user_documents] ends there. *)
Lemma user_documents_listing_fails (L : Lib) (directory : string) (e : Exn) :
  has_magic directory = false ->
  listing L directory = Raise e ->
  user_documents L directory
  = ([mkEvent (CGlob (path_join directory "*.pdf")) (Some e)], Raise e).
Proof.
  intros Hd Hl. unfold user_documents, file_extensions. cbn [discover].
  rewrite (glob_star_extension L directory ".pdf" Hd eq_refl eq_refl), Hl.
  rewrite bind_lib_raise, bind_raise. reflexivity.
Qed.

Lemma selected_files_visible (names : list string) (directory : string) :
  selects_visible_by_extension names directory
    (selected_files names directory).
Proof.
  intro file. unfold selected_files. rewrite in_flat_map. split.
  - intros (extension & Hext & Hin).
    apply in_map_iff in Hin. destruct Hin as (name & Hfile & Hin).
    apply filter_In in Hin. destruct Hin as [Hin Hend].
    apply filter_In in Hin. destruct Hin as [Hin Hvis].
    exists name, extension.
    apply negb_true_iff in Hvis. auto.
  - intros (name & extension & Hin & Hvis & Hext & Hend & Hfile).
    exists extension. split; [exact Hext |].
    apply in_map_iff. exists name. split; [symmetry; exact Hfile |].
    apply filter_In. split; [| exact Hend].
    apply filter_In. split; [exact Hin |].
    apply negb_true_iff. exact Hvis.
Qed.

(** Every selected file has one of the six extensions, and a loader. *)
Lemma selected_files_loader (names : list string) (directory file : string) :
  (forall name, In name names -> contains_char sep name = false) ->
  In file (selected_files names directory) ->
  exists extension loader,
    In extension file_extensions /\
    snd (splitext file) = extension /\
    loaders extension = Some loader.
Proof.
  intros Hnames Hin.
  apply (selected_files_visible names directory) in Hin.
  destruct Hin as (name & extension & Hin & Hvis & Hext & Hend & ->).
  destruct (file_extensions_shape _ Hext) as (_ & _ & _ & loader & Hl).
  exists extension, loader.
  split; [exact Hext |]. split; [| exact Hl].
  apply splitext_selected; try assumption.
  apply (Hnames _ Hin).
Qed.

Lemma listing_without_sep (L : Lib) (directory : string) names :
  names_without_sep L ->
  listing L directory = Ok names ->
  forall name, In name names -> contains_char sep name = false.
Proof. intros Hn Hl name Hin. apply (Hn _ _ _ Hl Hin). Qed.

Lemma load_files_loader_calls (L : Lib) :
  forall files documents loader file,
    In (CLoaderLoad loader file) (calls (fst (load_files L files documents))) ->
    In file files /\ loaders (snd (splitext file)) = Some loader.
Proof.
  induction files as [| f rest IH]; intros documents loader file H;
    cbn [load_files] in H.
  - destruct H.
  - destruct (loaders (snd (splitext f))) as [ld |] eqn:El.
    + rewrite fst_bind, calls_app in H. apply in_app_or in H.
      destruct H as [H | H].
      * unfold lib in H. in_cases H. inversion H; subst.
        split; [left; reflexivity | exact El].
      * unfold lib in H. cbn [snd] in H.
        destruct (loader_load L ld f) as [loaded | e]; [| destruct H].
        destruct (IH _ _ _ H) as [H1 H2]. split; [right |]; assumption.
    + destruct (IH _ _ _ H) as [H1 H2]. split; [right |]; assumption.
Qed.

Lemma load_files_result (L : Lib) :
  forall files documents result,
    (forall file, In file files -> loaders (snd (splitext file)) <> None) ->
    snd (load_files L files documents) = Ok result ->
    exists loaded,
      Forall2 (loaded_by_extension L) files loaded /\
      result = documents ++ List.concat loaded.
Proof.
  induction files as [| f rest IH]; intros documents result Hl H;
    cbn [load_files] in H.
  - inversion H. exists []. split; [constructor |].
    simpl. rewrite app_nil_r. reflexivity.
  - destruct (loaders (snd (splitext f))) as [ld |] eqn:El.
    + rewrite snd_bind in H. unfold lib in H. cbn [snd] in H.
      destruct (loader_load L ld f) as [docs | e] eqn:Eload;
        [| discriminate H].
      destruct (IH _ _ (fun file Hf => Hl file (or_intror Hf)) H)
        as (loaded & Hall & ->).
      exists (docs :: loaded). split.
      * constructor; [| exact Hall]. exists ld. auto.
      * simpl. rewrite app_assoc. reflexivity.
    + exfalso. apply (Hl f (or_introl eq_refl)). exact El.
Qed.

(** Progress of the second loop: when the loader of every file answers,
    all the files are loaded. *)
Lemma load_files_all_answer (L : Lib) :
  forall files loaded documents,
    Forall2 (loaded_by_extension L) files loaded ->
    snd (load_files L files documents) = Ok (documents ++ List.concat loaded).
Proof.
  induction files as [| f rest IH]; intros loaded documents H;
    inversion H as [| f' docs rest' loaded' (ld & El & Eload) Hrest];
    subst; cbn [load_files].
  - simpl. rewrite app_nil_r. reflexivity.
  - rewrite El, Eload, bind_lib_ok. cbn [snd].
    rewrite (IH _ _ Hrest). simpl. rewrite app_assoc. reflexivity.
Qed.

Lemma discover_no_loader_call (L : Lib) directory extensions :
  forall files loader file,
    ~ In (CLoaderLoad loader file)
         (calls (fst (discover L directory extensions files))).
Proof.
  induction extensions as [| extension rest IH]; intros files loader file H;
    cbn [discover] in H.
  - destruct H.
  - rewrite fst_bind, calls_app in H. apply in_app_or in H.
    destruct H as [H | H]; [unfold lib in H; in_cases H |].
    unfold lib in H. cbn [snd] in H.
    destruct (glob L (path_join directory ("*" ++ extension)));
      [| destruct H].
    apply (IH _ _ _ H).
Qed.

(** C3, as amended.  For a directory name without wildcard, [glob] lists
    the directory once for each extension.  When the listing answers with
    the entries [names], the files that [user_documents] picks are exactly
    the entries directly inside the directory whose name does not start
    with a dot and ends in one of the six extensions.  [os.path.splitext]
    gives each of them the extension it was picked by, which has a loader;
    the loader calls of a run are calls of that loader on picked files
    only; when the loader of every picked file answers, the run returns
    what the splitter makes of the documents loaded, in order; and the
    chunk list returned is the splitting of the documents loaded from the
    picked files: no other file contributes to it.  When the listing
    raises (a name that the file system refuses, such as one with a NUL
    byte), the first [glob] raises the same, and [user_documents] ends in
    that exception without having picked or loaded anything. *)
Theorem user_documents_selects_visible_files (L : Lib) (directory : string) :
  has_magic directory = false ->
  names_without_sep L ->
  (forall names,
      listing L directory = Ok names ->
      exists files,
        snd (discover L directory file_extensions []) = Ok files /\
        selects_visible_by_extension names directory files /\
        (forall name extension,
            In name names -> ishidden name = false ->
            In extension file_extensions -> endswith name extension = true ->
            snd (splitext (path_join (glob_dirname directory) name))
            = extension /\
            exists loader, loaders extension = Some loader) /\
        (forall loader file,
            In (CLoaderLoad loader file)
               (calls (fst (user_documents L directory))) ->
            In file files /\ loaders (snd (splitext file)) = Some loader) /\
        (forall loaded,
            Forall2 (loaded_by_extension L) files loaded ->
            snd (user_documents L directory)
            = split_documents L 1000 0 (List.concat loaded)) /\
        (forall chunks,
            snd (user_documents L directory) = Ok chunks ->
            exists loaded,
              Forall2 (loaded_by_extension L) files loaded /\
              split_documents L 1000 0 (List.concat loaded) = Ok chunks)) /\
  (forall e,
      listing L directory = Raise e ->
      user_documents L directory
      = ([mkEvent (CGlob (path_join directory "*.pdf")) (Some e)], Raise e)).
Proof.
  intros Hd Hnames. split.
  2: { intros e Hl. apply (user_documents_listing_fails L directory e Hd Hl). }
  intros names Hl.
  pose proof (discover_selected L directory names Hd Hl) as Hdisc.
  pose proof (listing_without_sep L directory names Hnames Hl) as Hsep.
  exists (selected_files names directory).
  split; [exact Hdisc |].
  split; [apply selected_files_visible |].
  split.
  { intros name extension Hin Hvis Hext Hend. split.
    - apply splitext_selected; try assumption. apply (Hsep _ Hin).
    - destruct (file_extensions_shape _ Hext) as (_ & _ & _ & H). exact H. }
  split; [| split].
  - intros loader file H. unfold user_documents in H.
    rewrite fst_bind, calls_app, Hdisc in H.
    apply in_app_or in H. destruct H as [H | H].
    + exfalso. apply (discover_no_loader_call _ _ _ _ _ _ H).
    + rewrite fst_bind, calls_app in H.
      apply in_app_or in H. destruct H as [H | H].
      * apply (load_files_loader_calls _ _ _ _ _ H).
      * destruct (snd (load_files L (selected_files names directory) []));
          [| destruct H].
        unfold lib in H. in_cases H.
  - intros loaded Hall. unfold user_documents.
    rewrite snd_bind, Hdisc, snd_bind.
    rewrite (load_files_all_answer L _ _ [] Hall). reflexivity.
  - intros chunks H. unfold user_documents in H.
    rewrite snd_bind, Hdisc, snd_bind in H.
    destruct (snd (load_files L (selected_files names directory) []))
      as [documents |] eqn:El; [| discriminate H].
    apply load_files_result in El.
    + destruct El as (loaded & Hall & ->).
      exists loaded. split; [exact Hall | exact H].
    + intros file Hf Hnone.
      destruct (selected_files_loader names directory file Hsep Hf)
        as (extension & loader & _ & <- & Hl').
      rewrite Hl' in Hnone. discriminate Hnone.
Qed.

Lemma demo_names_without_sep :
  names_without_sep (demo_lib demo_names demo_scores).
Proof.
  intros d names name H Hin. simpl in H.
  destruct (String.eqb d "docs"); inversion H; subst names;
    [| destruct Hin].
  unfold demo_names in Hin. in_cases Hin; subst name; reflexivity.
Qed.

(** The directory [docs] of the example: three of its five entries are
    picked. *)
Lemma user_documents_selects_visible_files_witness :
  has_magic "docs" = false /\
  names_without_sep (demo_lib demo_names demo_scores) /\
  listing (demo_lib demo_names demo_scores) "docs" = Ok demo_names /\
  exists files,
    snd (discover (demo_lib demo_names demo_scores) "docs"
                  file_extensions []) = Ok files /\
    selects_visible_by_extension demo_names "docs" files.
Proof.
  split; [reflexivity |].
  split; [exact demo_names_without_sep |].
  split; [reflexivity |].
  destruct (proj1 (user_documents_selects_visible_files
                     (demo_lib demo_names demo_scores) "docs"
                     eq_refl demo_names_without_sep)
              demo_names eq_refl)
    as (files & Hfiles & Hsel & _).
  exists files. split; [exact Hfiles | exact Hsel].
Defined.

(** C3 as stated fails on a hidden file: the entry [.notes.txt] of the
    directory ends in [.txt], and is not among the files picked. *)
Lemma hidden_file_is_not_selected :
  listing (demo_lib demo_names demo_scores) "docs" = Ok demo_names /\
  snd (discover (demo_lib demo_names demo_scores) "docs" file_extensions [])
  = Ok ["docs/a.pdf"; "docs/d.tar.docx"; "docs/b.txt"] /\
  In ".notes.txt" demo_names /\
  endswith ".notes.txt" ".txt" = true /\
  ~ selects_by_extension demo_names "docs"
      ["docs/a.pdf"; "docs/d.tar.docx"; "docs/b.txt"].
Proof.
  split; [reflexivity |].
  split; [reflexivity |].
  split; [right; left; reflexivity |].
  split; [reflexivity |].
  intro H.
  assert (Hin : In "docs/.notes.txt"
                   ["docs/a.pdf"; "docs/d.tar.docx"; "docs/b.txt"]).
  { apply H. exists ".notes.txt", ".txt".
    split; [right; left; reflexivity |].
    split; [do 3 right; left; reflexivity |].
    split; reflexivity. }
  in_cases Hin.
Qed.

(** With a wildcard in the directory name, [glob] lists the directories
    that the name matches instead of a directory of that name; the theorem
    above leaves that case out. *)
Lemma wildcard_directory_lists_matching_directories :
  let L := with_glob_dirs (demo_lib demo_names demo_scores)
             (fun d => if String.eqb d "d*" then Ok ["docs"] else Ok []) in
  listing L "d*" = Ok [] /\
  snd (discover L "d*" file_extensions [])
  = Ok ["docs/a.pdf"; "docs/d.tar.docx"; "docs/b.txt"].
Proof. split; reflexivity. Qed.

(** A directory name with a NUL byte: the listing raises [ValueError],
    and so does [user_documents], at its first [glob]. *)
Lemma refused_directory_name_raises :
  let L := with_listdir (demo_lib demo_names demo_scores)
             (fun d => Raise (ValueError "embedded null byte")) in
  user_documents L "docs"
  = ([mkEvent (CGlob "docs/*.pdf")
              (Some (ValueError "embedded null byte"))],
     Raise (ValueError "embedded null byte")).
Proof. reflexivity. Qed.

(** * Further properties of the script *)

(** ** [init_bnb_config]: which check fails *)

(** X1. With several arguments of a wrong type, the error is the one of
    the first of them in the order of the parameters: [load_in_4bit], then
    [bnb_4bit_quant_type], then [bnb_4bit_use_double_quant], then
    [bnb_4bit_compute_dtype]; it is raised before the constructor of the
    library is called. *)
Theorem init_bnb_config_reports_first_ill_typed (L : Lib) (a b c d : PyVal) :
  (isinstance_bool a = false ->
   init_bnb_config L a b c d
   = ([], Raise (ValueError "load_in_4bit must be a boolean value."))) /\
  (isinstance_bool a = true -> isinstance_str b = false ->
   init_bnb_config L a b c d
   = ([], Raise (ValueError "bnb_4bit_quant_type must be a string."))) /\
  (isinstance_bool a = true -> isinstance_str b = true ->
   isinstance_bool c = false ->
   init_bnb_config L a b c d
   = ([], Raise (ValueError
                   "bnb_4bit_use_double_quant must be a boolean value."))) /\
  (isinstance_bool a = true -> isinstance_str b = true ->
   isinstance_bool c = true -> isinstance_type_or_str d = false ->
   init_bnb_config L a b c d
   = ([], Raise (ValueError
                   "bnb_4bit_compute_dtype must be a valid data type."))).
Proof.
  split; [| split; [| split]].
  - destruct a; simpl; intro H; try reflexivity; discriminate H.
  - destruct a; simpl; intro Ha; try discriminate Ha.
    destruct b; simpl; intro H; try reflexivity; discriminate H.
  - destruct a; simpl; intro Ha; try discriminate Ha.
    destruct b; simpl; intro Hb; try discriminate Hb.
    destruct c; simpl; intro H; try reflexivity; discriminate H.
  - destruct a; simpl; intro Ha; try discriminate Ha.
    destruct b; simpl; intro Hb; try discriminate Hb.
    destruct c; simpl; intro Hc; try discriminate Hc.
    intro Hd. rewrite Hd. reflexivity.
Qed.

(** ** [init_model]: how the pipeline is put together *)

(** X2. [init_model] makes its calls in one order: environment, model
    configuration, model, [eval], tokenizer, text-generation pipeline,
    langchain wrapper; the calls of any run are an initial segment of that
    sequence.  The pipeline is built only from the model that was loaded
    with the given quantization configuration and put in evaluation mode,
    and from the tokenizer loaded for the same model id with the same
    token, with the generation parameters of the script; the object
    returned is the wrapper of that pipeline. *)
Theorem init_model_builds_pipeline_from_loaded_model (L : Lib)
  (bnb_config : BitsAndBytesConfig) (model_id : string) :
  (exists model_config model tokenizer generate_text,
      prefix_of (calls (fst (init_model L bnb_config model_id)))
                (init_model_calls_list model_id (environ_get L "HF_AUTH")
                   bnb_config model_config model tokenizer generate_text)) /\
  (forall args,
      In (CPipeline args) (calls (fst (init_model L bnb_config model_id))) ->
      exists model_config,
        auto_config_from_pretrained L model_id (environ_get L "HF_AUTH")
        = Ok model_config /\
        causal_lm_from_pretrained L model_id true model_config bnb_config
          "auto" (environ_get L "HF_AUTH") = Ok (pa_model args) /\
        model_eval L (pa_model args) = Ok tt /\
        auto_tokenizer_from_pretrained L model_id (environ_get L "HF_AUTH")
        = Ok (pa_tokenizer args) /\
        args = mkPipelineArgs (pa_model args) (pa_tokenizer args) true
                 "text-generation" "0.01" 512 "1.1" true) /\
  (forall llm_object,
      snd (init_model L bnb_config model_id) = Ok llm_object ->
      exists model_config model tokenizer generate_text,
        pipeline L (mkPipelineArgs model tokenizer true "text-generation"
                      "0.01" 512 "1.1" true) = Ok generate_text /\
        hugging_face_pipeline L generate_text = Ok llm_object /\
        calls (fst (init_model L bnb_config model_id))
        = init_model_calls_list model_id (environ_get L "HF_AUTH") bnb_config
            model_config model tokenizer generate_text).
Proof.
  rename bnb_config into cfg.
  unfold init_model, init_model_calls_list, calls. cbv zeta.
  rewrite bind_lib_ok. cbn [fst snd].
  set (auth := environ_get L "HF_AUTH").
  lib_step (auto_config_from_pretrained L model_id auth) model_config E1.
  2: { split; [| split; [no_such_call | discriminate]].
       exists (Obj 0), (Obj 0), (Obj 0), (Obj 0).
       simpl. do 2 apply prefix_of_cons. apply prefix_of_nil. }
  lib_step (causal_lm_from_pretrained L model_id true model_config cfg "auto"
              auth) model E2.
  2: { split; [| split; [no_such_call | discriminate]].
       exists model_config, (Obj 0), (Obj 0), (Obj 0).
       simpl. do 3 apply prefix_of_cons. apply prefix_of_nil. }
  lib_step (model_eval L model) u E3.
  2: { split; [| split; [no_such_call | discriminate]].
       exists model_config, model, (Obj 0), (Obj 0).
       simpl. do 4 apply prefix_of_cons. apply prefix_of_nil. }
  destruct u.
  lib_step (auto_tokenizer_from_pretrained L model_id auth) tokenizer E4.
  2: { split; [| split; [no_such_call | discriminate]].
       exists model_config, model, (Obj 0), (Obj 0).
       simpl. do 5 apply prefix_of_cons. apply prefix_of_nil. }
  lib_step (pipeline L (mkPipelineArgs model tokenizer true "text-generation"
                          "0.01" 512 "1.1" true)) generate_text E5.
  2: { split; [| split; [| discriminate]].
       - exists model_config, model, tokenizer, (Obj 0).
         simpl. do 6 apply prefix_of_cons. apply prefix_of_nil.
       - intros args H. in_cases H. inversion H; subst args.
         cbn [pa_model pa_tokenizer]. exists model_config. auto. }
  unfold lib. cbn [fst snd].
  split; [| split].
  - exists model_config, model, tokenizer, generate_text.
    simpl. apply prefix_of_refl.
  - intros args H. in_cases H. inversion H; subst args.
    cbn [pa_model pa_tokenizer]. exists model_config. auto.
  - intros llm_object H.
    exists model_config, model, tokenizer, generate_text. auto.
Qed.

(** ** [user_documents]: the table of loaders *)

(** X3. The dictionary [loaders] and the list [file_extensions] agree: an
    extension has a loader exactly when it is one of the six listed, so the
    test [file_extension in loaders] never turns down a file found for one
    of them; [.doc] and [.docx] share the loader of Word documents. *)
Theorem loaders_cover_file_extensions (extension : string) :
  ((exists loader, loaders extension = Some loader) <->
   In extension file_extensions) /\
  loaders ".doc" = loaders ".docx".
Proof.
  split; [| reflexivity]. split.
  - intros [loader H]. unfold loaders in H. unfold file_extensions.
    repeat match type of H with
           | (if String.eqb ?x ?y then _ else _) = _ =>
             destruct (String.eqb_spec x y) as [-> | _];
               [simpl; tauto |]
           end.
    discriminate H.
  - intro H. destruct (file_extensions_shape _ H) as (_ & _ & _ & Hl).
    exact Hl.
Qed.

(** ** [user_documents]: each file once, in order *)

Lemma str_app_inv_head (a b c : string) :
  (a ++ b = a ++ c)%string -> b = c.
Proof.
  induction a as [| x a IH]; simpl; intro H; [exact H |].
  inversion H. apply IH. assumption.
Qed.

Lemma path_join_inj (dirname n1 n2 : string) :
  contains_char sep n1 = false -> contains_char sep n2 = false ->
  path_join dirname n1 = path_join dirname n2 -> n1 = n2.
Proof.
  intros H1 H2.
  rewrite (path_join_prefix _ _ (no_sep_no_leading_sep _ H1)).
  rewrite (path_join_prefix _ _ (no_sep_no_leading_sep _ H2)).
  apply str_app_inv_head.
Qed.

Lemma NoDup_map_on {A B} (f : A -> B) (l : list A) :
  (forall x y, In x l -> In y l -> f x = f y -> x = y) ->
  NoDup l -> NoDup (map f l).
Proof.
  intros Hinj Hnd. induction Hnd as [| a l Ha Hnd IH]; simpl;
    constructor.
  - intro Hin. apply in_map_iff in Hin. destruct Hin as (y & Hy & Hin).
    assert (y = a)
      by (apply Hinj; [right; exact Hin | left; reflexivity | exact Hy]).
    subst y. contradiction.
  - apply IH. intros x y Hx Hy. apply Hinj; right; assumption.
Qed.

Lemma NoDup_flat_map_disjoint {A B} (f : A -> list B) (l : list A) :
  NoDup l ->
  (forall a, In a l -> NoDup (f a)) ->
  (forall a a' b, In a l -> In a' l -> In b (f a) -> In b (f a') -> a = a') ->
  NoDup (flat_map f l).
Proof.
  intros Hnd. induction Hnd as [| a l Ha Hnd IH]; intros Hf Hdis; simpl;
    [constructor |].
  apply NoDup_app.
  - apply Hf. left. reflexivity.
  - apply IH.
    + intros x Hx. apply Hf. right. exact Hx.
    + intros x x' b Hx Hx'. apply Hdis; right; assumption.
  - intros b Hb Hin. apply in_flat_map in Hin.
    destruct Hin as (a' & Ha' & Hb').
    assert (a = a')
      by (apply (Hdis a a' b); [left; reflexivity | right | |]; assumption).
    subst a'. contradiction.
Qed.

Lemma file_extensions_NoDup : NoDup file_extensions.
Proof.
  unfold file_extensions.
  repeat (constructor; [simpl; intro H; in_cases H |]).
  constructor.
Qed.

Lemma selected_files_NoDup (names : list string) (directory : string) :
  (forall name, In name names -> contains_char sep name = false) ->
  NoDup names ->
  NoDup (selected_files names directory).
Proof.
  intros Hnames Hnd. unfold selected_files.
  apply NoDup_flat_map_disjoint.
  - apply file_extensions_NoDup.
  - intros extension _. apply NoDup_map_on.
    + intros x y Hx Hy.
      apply filter_In in Hx. destruct Hx as [Hx _].
      apply filter_In in Hx. destruct Hx as [Hx _].
      apply filter_In in Hy. destruct Hy as [Hy _].
      apply filter_In in Hy. destruct Hy as [Hy _].
      apply path_join_inj; [apply (Hnames _ Hx) | apply (Hnames _ Hy)].
    + apply NoDup_filter, NoDup_filter. exact Hnd.
  - intros e1 e2 file He1 He2 H1 H2.
    apply in_map_iff in H1. destruct H1 as (n1 & <- & H1).
    apply filter_In in H1. destruct H1 as [H1 Hend1].
    apply filter_In in H1. destruct H1 as [Hin1 Hvis1].
    apply negb_true_iff in Hvis1.
    apply in_map_iff in H2. destruct H2 as (n2 & Heq & H2).
    apply filter_In in H2. destruct H2 as [H2 Hend2].
    apply filter_In in H2. destruct H2 as [Hin2 Hvis2].
    apply negb_true_iff in Hvis2.
    pose proof (splitext_selected (glob_dirname directory) n1 e1 He1
                  (Hnames _ Hin1) Hvis1 Hend1) as S1.
    pose proof (splitext_selected (glob_dirname directory) n2 e2 He2
                  (Hnames _ Hin2) Hvis2 Hend2) as S2.
    rewrite Heq in S2. rewrite S1 in S2. exact S2.
Qed.

Lemma loaded_files_app (l1 l2 : list Call) :
  loaded_files (l1 ++ l2) = loaded_files l1 ++ loaded_files l2.
Proof.
  induction l1 as [| c l1 IH]; [reflexivity |].
  destruct c; simpl; rewrite IH; reflexivity.
Qed.

Lemma discover_only_globs (L : Lib) directory extensions :
  forall files,
    Forall (fun c => exists pathname, c = CGlob pathname)
           (calls (fst (discover L directory extensions files))).
Proof.
  induction extensions as [| extension rest IH]; intro files;
    cbn [discover].
  - constructor.
  - apply Forall_calls_bind.
    + unfold lib, calls. cbn [fst map ev_call].
      constructor; [eexists; reflexivity | constructor].
    + intros found _. apply IH.
Qed.

Lemma only_globs_loaded_nothing (cs : list Call) :
  Forall (fun c => exists pathname, c = CGlob pathname) cs ->
  loaded_files cs = [] /\ Forall (fun c => is_split c = false) cs.
Proof.
  induction 1 as [| c cs [p ->] _ [IH1 IH2]]; simpl.
  - split; constructor.
  - split; [exact IH1 | constructor; [reflexivity | exact IH2]].
Qed.

(** The loop over the files: they are loaded in order, up to the first
    failure. *)
Lemma load_files_order (L : Lib) :
  forall files documents,
    (forall file, In file files -> loaders (snd (splitext file)) <> None) ->
    prefix_of (loaded_files (calls (fst (load_files L files documents))))
              files /\
    Forall (fun c => is_split c = false)
           (calls (fst (load_files L files documents))) /\
    (forall result,
        snd (load_files L files documents) = Ok result ->
        loaded_files (calls (fst (load_files L files documents))) = files).
Proof.
  induction files as [| f rest IH]; intros documents Hl; cbn [load_files].
  - split; [apply prefix_of_nil |]. split; [constructor | reflexivity].
  - destruct (loaders (snd (splitext f))) as [ld |] eqn:El;
      [| exfalso; apply (Hl f (or_introl eq_refl)); exact El].
    destruct (loader_load L ld f) as [loaded | e];
      [rewrite bind_lib_ok | rewrite bind_lib_raise]; cbn [fst snd].
    + destruct (IH (documents ++ loaded)
                   (fun file Hf => Hl file (or_intror Hf)))
        as (H1 & H2 & H3).
      simpl. split; [apply prefix_of_cons; exact H1 |].
      split; [constructor; [reflexivity | exact H2] |].
      intros result Hr. f_equal. apply (H3 result Hr).
    + simpl. split; [apply prefix_of_cons, prefix_of_nil |].
      split; [repeat constructor | discriminate].
Qed.

(** The loop over the files stops at the first file whose loader fails,
    and nowhere else. *)
Lemma load_files_first_failure (L : Lib) :
  forall before loaded documents file after loader e,
    Forall2 (loaded_by_extension L) before loaded ->
    loaders (snd (splitext file)) = Some loader ->
    loader_load L loader file = Raise e ->
    loaded_files
      (calls (fst (load_files L (before ++ file :: after) documents)))
    = before ++ [file] /\
    snd (load_files L (before ++ file :: after) documents) = Raise e.
Proof.
  induction before as [| f rest IH];
    intros loaded documents file after loader e H El Ee;
    inversion H as [| f' docs rest' loaded' (ld & Eld & Eload) Hrest];
    subst; cbn [app load_files].
  - rewrite El, Ee, bind_lib_raise. split; reflexivity.
  - rewrite Eld, Eload, bind_lib_ok. cbn [fst snd].
    destruct (IH _ (documents ++ docs) file after loader e Hrest El Ee)
      as [H1 H2].
    split; [simpl; f_equal; exact H1 | exact H2].
Qed.

Lemma prefix_of_NoDup {A} (l1 l2 : list A) :
  prefix_of l1 l2 -> NoDup l2 -> NoDup l1.
Proof. intros [rest ->] H. apply (NoDup_app_remove_r _ _ H). Qed.

(** The run of [user_documents] on the files it picks. *)
Lemma user_documents_run (L : Lib) (directory : string)
  (names : list string) :
  has_magic directory = false ->
  names_without_sep L ->
  listing L directory = Ok names ->
  let files := selected_files names directory in
  let cs := calls (fst (user_documents L directory)) in
  prefix_of (loaded_files cs) files /\
  (forall c, In c cs -> is_split c = true ->
     loaded_files cs = files /\
     exists loaded,
       Forall2 (loaded_by_extension L) files loaded /\
       c = CSplitDocuments 1000 0 (List.concat loaded)) /\
  (forall loaded,
      Forall2 (loaded_by_extension L) files loaded ->
      loaded_files cs = files /\
      In (CSplitDocuments 1000 0 (List.concat loaded)) cs /\
      snd (user_documents L directory)
      = split_documents L 1000 0 (List.concat loaded)) /\
  (forall before file after loaded loader e,
      files = before ++ file :: after ->
      Forall2 (loaded_by_extension L) before loaded ->
      loaders (snd (splitext file)) = Some loader ->
      loader_load L loader file = Raise e ->
      loaded_files cs = before ++ [file] /\
      Forall (fun c => is_split c = false) cs /\
      snd (user_documents L directory) = Raise e).
Proof.
  intros Hd Hnames Hlist files cs. subst cs. unfold user_documents.
  pose proof (discover_selected L directory names Hd Hlist) as Hdisc.
  fold files in Hdisc.
  pose proof (listing_without_sep L directory names Hnames Hlist) as Hsep.
  destruct (only_globs_loaded_nothing _
              (discover_only_globs L directory file_extensions []))
    as [Hg1 Hg2].
  assert (Hloaders : forall file, In file files ->
                                  loaders (snd (splitext file)) <> None).
  { intros file Hf Hnone.
    destruct (selected_files_loader names directory file Hsep Hf)
      as (extension & loader & _ & <- & Hl).
    rewrite Hl in Hnone. discriminate Hnone. }
  destruct (load_files_order L files [] Hloaders) as (Hp & Hns & Hall).
  rewrite snd_bind, fst_bind, Hdisc, snd_bind, fst_bind, !calls_app,
    !loaded_files_app, Hg1.
  cbn [app].
  split; [| split; [| split]].
  - destruct (snd (load_files L files [])) as [documents |] eqn:El.
    + unfold lib. cbn [fst calls map ev_call loaded_files].
      rewrite app_nil_r, (Hall documents eq_refl). apply prefix_of_refl.
    + cbn [calls map loaded_files]. rewrite app_nil_r. exact Hp.
  - intros c Hc Hs.
    apply in_app_or in Hc. destruct Hc as [Hc | Hc].
    { rewrite Forall_forall in Hg2. rewrite (Hg2 c Hc) in Hs. discriminate. }
    apply in_app_or in Hc. destruct Hc as [Hc | Hc].
    { rewrite Forall_forall in Hns. rewrite (Hns c Hc) in Hs. discriminate. }
    destruct (snd (load_files L files [])) as [documents |] eqn:El;
      [| destruct Hc].
    unfold lib in *. cbn [fst calls map ev_call loaded_files] in *.
    rewrite app_nil_r, (Hall documents eq_refl).
    split; [reflexivity |].
    destruct Hc as [<- | []].
    destruct (load_files_result L files [] documents Hloaders El)
      as (loaded & HF & ->).
    exists loaded. split; [exact HF | reflexivity].
  - intros loaded HF.
    pose proof (load_files_all_answer L files loaded [] HF) as El.
    cbn [app] in El. rewrite El.
    unfold lib. cbn [fst snd calls map ev_call loaded_files].
    rewrite app_nil_r, (Hall _ El).
    split; [reflexivity |]. split; [| reflexivity].
    apply in_or_app. right. apply in_or_app. right. left. reflexivity.
  - intros before file after loaded loader e Hfiles HF El Ee.
    destruct (load_files_first_failure L before loaded [] file after loader e
                HF El Ee) as [H1 H2].
    rewrite <- Hfiles in H1, H2. rewrite H2.
    cbn [calls map loaded_files]. rewrite !app_nil_r.
    split; [exact H1 |]. split; [| reflexivity].
    apply Forall_app. split; [exact Hg2 | exact Hns].
Qed.

(** X4. No file is picked or loaded twice: when the listing of the
    directory answers and holds no name twice, the files found for the six
    patterns are all different (no name ends in two of the extensions), and
    so are the files handed to a loader in any run; when the listing
    raises, no file is handed to a loader at all. *)
Theorem user_documents_loads_no_file_twice (L : Lib) (directory : string) :
  has_magic directory = false ->
  names_without_sep L ->
  (forall names,
      listing L directory = Ok names ->
      NoDup names ->
      exists files,
        snd (discover L directory file_extensions []) = Ok files /\
        NoDup files /\
        NoDup (loaded_files (calls (fst (user_documents L directory))))) /\
  (forall e,
      listing L directory = Raise e ->
      snd (discover L directory file_extensions []) = Raise e /\
      loaded_files (calls (fst (user_documents L directory))) = []).
Proof.
  intros Hd Hnames. split.
  - intros names Hlist Hnd.
    exists (selected_files names directory).
    pose proof (selected_files_NoDup names directory
                  (listing_without_sep L directory names Hnames Hlist) Hnd)
      as Hsel.
    split; [apply discover_selected; assumption |].
    split; [exact Hsel |].
    destruct (user_documents_run L directory names Hd Hnames Hlist)
      as [Hp _].
    apply (prefix_of_NoDup _ _ Hp Hsel).
  - intros e Hlist.
    pose proof (user_documents_listing_fails L directory e Hd Hlist) as Hu.
    split; [| rewrite Hu; reflexivity].
    unfold file_extensions. cbn [discover].
    rewrite (glob_star_extension L directory ".pdf" Hd eq_refl eq_refl),
      Hlist, bind_lib_raise.
    reflexivity.
Qed.

Lemma demo_names_NoDup : NoDup demo_names.
Proof.
  unfold demo_names.
  repeat (constructor; [simpl; intro H; in_cases H |]).
  constructor.
Qed.

Lemma user_documents_loads_no_file_twice_witness :
  has_magic "docs" = false /\
  names_without_sep (demo_lib demo_names demo_scores) /\
  listing (demo_lib demo_names demo_scores) "docs" = Ok demo_names /\
  NoDup demo_names /\
  exists files,
    snd (discover (demo_lib demo_names demo_scores) "docs"
                  file_extensions []) = Ok files /\
    NoDup files /\
    NoDup (loaded_files
             (calls (fst (user_documents (demo_lib demo_names demo_scores)
                                         "docs")))).
Proof.
  split; [reflexivity |].
  split; [exact demo_names_without_sep |].
  split; [reflexivity |].
  split; [exact demo_names_NoDup |].
  apply (proj1 (user_documents_loads_no_file_twice
                  (demo_lib demo_names demo_scores) "docs"
                  eq_refl demo_names_without_sep)
           demo_names eq_refl demo_names_NoDup).
Defined.

(** X5. When the listing of the directory answers, [user_documents] loads
    the files it picked in their order, the files of one extension after
    those of the extension before: the files handed to a loader are an
    initial segment of the files picked.  When the loader of every picked
    file answers, all of them are loaded and the text splitter is called
    on the documents loaded from them, in order, with chunk size 1000 and
    no overlap, and its outcome is the outcome of the run.  When a loader
    fails, the files handed to a loader are those up to the first file
    whose loader fails, that file included; the splitter is not called and
    the run ends in the exception of that loader.  The splitter is called
    only once all the files are loaded. *)
Theorem user_documents_loads_in_order_then_splits (L : Lib)
  (directory : string) (names : list string) :
  has_magic directory = false ->
  names_without_sep L ->
  listing L directory = Ok names ->
  exists files,
    snd (discover L directory file_extensions []) = Ok files /\
    prefix_of (loaded_files (calls (fst (user_documents L directory))))
              files /\
    (forall c,
        In c (calls (fst (user_documents L directory))) ->
        is_split c = true ->
        loaded_files (calls (fst (user_documents L directory))) = files /\
        exists loaded,
          Forall2 (loaded_by_extension L) files loaded /\
          c = CSplitDocuments 1000 0 (List.concat loaded)) /\
    (forall loaded,
        Forall2 (loaded_by_extension L) files loaded ->
        loaded_files (calls (fst (user_documents L directory))) = files /\
        In (CSplitDocuments 1000 0 (List.concat loaded))
           (calls (fst (user_documents L directory))) /\
        snd (user_documents L directory)
        = split_documents L 1000 0 (List.concat loaded)) /\
    (forall before file after loaded loader e,
        files = before ++ file :: after ->
        Forall2 (loaded_by_extension L) before loaded ->
        loaders (snd (splitext file)) = Some loader ->
        loader_load L loader file = Raise e ->
        loaded_files (calls (fst (user_documents L directory)))
        = before ++ [file] /\
        Forall (fun c => is_split c = false)
               (calls (fst (user_documents L directory))) /\
        snd (user_documents L directory) = Raise e).
Proof.
  intros Hd Hnames Hlist.
  exists (selected_files names directory).
  split; [apply discover_selected; assumption |].
  apply (user_documents_run L directory names Hd Hnames Hlist).
Qed.

Lemma user_documents_loads_in_order_then_splits_witness :
  has_magic "docs" = false /\
  names_without_sep (demo_lib demo_names demo_scores) /\
  listing (demo_lib demo_names demo_scores) "docs" = Ok demo_names /\
  exists files,
    snd (discover (demo_lib demo_names demo_scores) "docs"
                  file_extensions []) = Ok files /\
    prefix_of
      (loaded_files
         (calls (fst (user_documents (demo_lib demo_names demo_scores)
                                     "docs"))))
      files.
Proof.
  split; [reflexivity |].
  split; [exact demo_names_without_sep |].
  split; [reflexivity |].
  destruct (user_documents_loads_in_order_then_splits
              (demo_lib demo_names demo_scores) "docs" demo_names
              eq_refl demo_names_without_sep eq_refl)
    as (files & Hfiles & Hprefix & _).
  exists files. split; [exact Hfiles | exact Hprefix].
Defined.





(** ** [rerank]: when reading [contents] fails *)

Lemma build_context_raise_iff (contents : list (list string)) :
  forall indices context e,
    build_context contents indices context = Raise e <->
    e = IndexError /\ bad_index contents indices.
Proof.
  induction indices as [| index rest IH]; intros context e;
    cbn [build_context].
  - split; [discriminate |]. intros [_ (i & [] & _)].
  - destruct (nth_error contents index) as [item |] eqn:Ei.
    + pose proof (nth_error_nth _ _ (@nil string) Ei) as Hnth.
      assert (Hlt : index < List.length contents)
        by (apply nth_error_Some; rewrite Ei; discriminate).
      destruct (nth_error item 1) as [content |] eqn:Ec.
      * assert (Hitem : 1 < List.length item)
          by (apply nth_error_Some; rewrite Ec; discriminate).
        rewrite IH. split; intros [He (i & Hi & Hbad)]; (split; [exact He |]).
        -- exists i. split; [right; exact Hi | exact Hbad].
        -- destruct Hi as [<- | Hi].
           ++ exfalso. rewrite Hnth in Hbad. lia.
           ++ exists i. split; assumption.
      * apply nth_error_None in Ec. split.
        -- intro H. inversion H. split; [reflexivity |].
           exists index. split; [left; reflexivity |].
           right. rewrite Hnth. lia.
        -- intros [-> _]. reflexivity.
    + apply nth_error_None in Ei. split.
      * intro H. inversion H. split; [reflexivity |].
        exists index. split; [left; reflexivity | left; exact Ei].
      * intros [-> _]. reflexivity.
Qed.

(** X7. Once the cross-encoder has answered, the only way [rerank] fails
    is an [IndexError], and it fails so exactly when one of the (at most
    three) selected indices cannot be read: it lies past the end of
    [contents] (more scores than entries) or the entry there has no second
    element. *)
Theorem rerank_fails_only_on_unreadable_index (L : Lib)
  (contents : list (list string)) (tokenizer model inputs : PyObj)
  (scores : list Z) :
  auto_tokenizer_from_pretrained L reranker_name None = Ok tokenizer ->
  seq_cls_from_pretrained L reranker_name = Ok model ->
  model_eval L model = Ok tt ->
  tokenize L tokenizer contents 512 = Ok inputs ->
  logits L model inputs = Ok scores ->
  forall e,
    snd (rerank L contents) = Raise e <->
    e = IndexError /\ bad_index contents (top3 (argsort L scores)).
Proof.
  intros E1 E2 E3 E4 E5 e. unfold rerank.
  rewrite E1, bind_lib_ok; cbn [fst snd].
  rewrite E2, bind_lib_ok; cbn [fst snd].
  rewrite E3, bind_lib_ok; cbn [fst snd].
  rewrite E4, bind_lib_ok; cbn [fst snd].
  rewrite E5, bind_lib_ok; cbn [fst snd].
  apply build_context_raise_iff.
Qed.

(** Two scores for a single pair: the best-scored index is 1, past the
    end. *)
Lemma rerank_fails_only_on_unreadable_index_witness :
  let L := demo_lib demo_names [1%Z; 2%Z] in
  auto_tokenizer_from_pretrained L reranker_name None = Ok (Obj 3) /\
  seq_cls_from_pretrained L reranker_name = Ok (Obj 8) /\
  model_eval L (Obj 8) = Ok tt /\
  tokenize L (Obj 3) [["q"; "a"]] 512 = Ok (Obj 9) /\
  logits L (Obj 8) (Obj 9) = Ok [1%Z; 2%Z] /\
  snd (rerank L [["q"; "a"]]) = Raise IndexError /\
  forall e,
    snd (rerank L [["q"; "a"]]) = Raise e <->
    e = IndexError /\ bad_index [["q"; "a"]] (top3 (argsort L [1%Z; 2%Z])).
Proof.
  intro L.
  repeat (split; [reflexivity |]).
  apply (rerank_fails_only_on_unreadable_index L [["q"; "a"]]
           (Obj 3) (Obj 8) (Obj 9) [1%Z; 2%Z]); reflexivity.
Defined.

(** ** [llm]: how much of the documents reaches the model *)

Lemma top3_at_most_three (indices : list nat) :
  List.length (top3 indices) <= 3.
Proof. rewrite top3_length. lia. Qed.

Lemma rerank_context_at_most_three (L : Lib) docs question context :
  snd (rerank L (pre_rerank docs question)) = Ok context ->
  exists selected,
    incl selected docs /\
    List.length selected <= 3 /\
    context = concat_all (map page_content selected).
Proof.
  unfold rerank. answer_cases; try discriminate.
  intro H.
  apply build_context_ok in H. destruct H as [Hall Hres].
  match goal with
  | E : logits L _ _ = Ok ?scores |- _ =>
    exists (map (fun i => nth i docs (doc "")) (top3 (argsort L scores)))
  end.
  assert (Hlen : List.length (pre_rerank docs question) = List.length docs)
    by (rewrite pre_rerank_map; apply length_map).
  rewrite Hlen in Hall.
  split; [| split].
  - intros d Hd. apply in_map_iff in Hd. destruct Hd as [i [<- Hi]].
    apply nth_In. rewrite Forall_forall in Hall. apply Hall. exact Hi.
  - rewrite length_map. apply top3_at_most_three.
  - rewrite Hres. simpl. rewrite map_map. f_equal.
    apply map_ext_in. intros i Hi.
    apply content_at_pre_rerank.
    rewrite Forall_forall in Hall. apply Hall. exact Hi.
Qed.

(** X8. Of the documents retrieved for a question (the vector store is
    asked for 25), [llm] puts the page contents of at most three into the
    prompt: any template it hands to the prompt library holds the contents
    of at most three of the retrieved documents, between the fixed texts,
    before the question. *)
Theorem llm_prompt_holds_at_most_three_documents (L : Lib)
  (question : string) (data_base model : PyObj) :
  (forall d q k,
      In (CSimilaritySearch d q k)
         (calls (fst (llm L question data_base model))) ->
      d = data_base /\ q = question /\ k = 25) /\
  (forall template,
      In (CFromTemplate template)
         (calls (fst (llm L question data_base model))) ->
      exists docs selected,
        similarity_search L data_base question 25 = Ok docs /\
        incl selected docs /\
        List.length selected <= 3 /\
        template
        = make_template (concat_all (map page_content selected)) question).
Proof.
  split.
  - intros d q k H.
    destruct (llm_calls_in_order L question data_base model)
      as (r & [rest Hp]).
    assert (Hin : In (CSimilaritySearch d q k)
                     (llm_calls question data_base model r))
      by (rewrite Hp; apply in_or_app; left; exact H).
    unfold llm_calls in Hin. in_cases Hin. inversion Hin. auto.
  - intros template H.
    destruct (llm_templates L question data_base model template H)
      as (docs & context & H1 & H2 & H3).
    destruct (rerank_context_at_most_three _ _ _ _ H2)
      as (selected & H4 & H5 & H6).
    exists docs, selected. subst. auto.
Qed.

(** ** The loop: what is loaded again at every query *)

Lemma llm_reranker_loads (L : Lib) question data_base model :
  List.length (filter is_reranker_load
                 (calls (fst (llm L question data_base model)))) <= 1 /\
  (forall answer,
      snd (llm L question data_base model) = Ok answer ->
      List.length (filter is_reranker_load
                     (calls (fst (llm L question data_base model)))) = 1).
Proof.
  rewrite llm_unfold. unfold calls.
  answer_cases; unfold lib; simpl; (split; [lia |]);
    intros answer H; first [discriminate H | reflexivity].
Qed.

(** X9. Unlike the language model and the index, the cross-encoder is
    loaded again by every call of [rerank]: a session loads it at most
    once per query submitted, and a session that ends without an
    exception has loaded it once for each line typed before [exit]. *)
Theorem reranker_is_loaded_again_for_every_query (L : Lib)
  (db model : PyObj) (query_var : string) (stdin : list string) :
  List.length (filter is_reranker_load
                 (calls (fst (repl L db model query_var stdin))))
  <= List.length (submitted (calls (fst (repl L db model query_var stdin)))) /\
  (snd (repl L db model query_var stdin) = Ok tt ->
   List.length (filter is_reranker_load
                  (calls (fst (repl L db model query_var stdin))))
   = List.length (until_exit (query_var :: stdin))).
Proof.
  revert query_var.
  induction stdin as [| line0 rest0 IH]; intro query_var;
    (destruct (string_dec query_var "exit") as [-> | Hq];
     [rewrite repl_exit; simpl; split; [lia | reflexivity] |]);
    rewrite (until_exit_cons _ _ Hq);
    destruct (llm_trace_summary L query_var db model) as (Hsub & _ & _);
    destruct (llm_reranker_loads L query_var db model) as (Hle & Heq);
    [ loop_cases L db model query_var (@nil string) Hq
    | loop_cases L db model query_var (line0 :: rest0) Hq ];
    rewrite ?calls_app, ?filter_app, ?submitted_app, ?length_app, Hsub;
    simpl; try (split; [lia | discriminate]).
  match goal with
  | |- context [repl L db model ?l ?r] => destruct (IH l) as [IH1 IH2]
  end.
  split; [lia |].
  intro Hok. rewrite (IH2 Hok).
  match goal with
  | H : snd (llm L query_var db model) = Ok ?t |- _ => rewrite (Heq t H)
  end.
  reflexivity.
Qed.

(** ** [query] and the main block *)

Lemma silent_summary (cs : list Call) :
  Forall (fun c => is_silent c = true) cs ->
  submitted cs = [] /\ printed cs = [].
Proof.
  induction 1 as [| c cs Hc _ [IH1 IH2]]; [split; reflexivity |].
  destruct c; simpl in *; try discriminate Hc; split; assumption.
Qed.

Lemma init_model_silent (L : Lib) cfg model_id :
  Forall (fun c => is_silent c = true)
         (calls (fst (init_model L cfg model_id))).
Proof.
  unfold init_model, calls. rewrite bind_lib_ok. cbn [fst snd].
  answer_cases; unfold lib; simpl; repeat constructor.
Qed.

Lemma init_default_model_silent (L : Lib) :
  Forall (fun c => is_silent c = true) (calls (fst (init_default_model L))).
Proof.
  destruct (init_default_model_cases L) as [(e & _ & ->) | [_ ->]];
    cbn [fst calls map ev_call].
  - repeat constructor.
  - constructor; [reflexivity | apply init_model_silent].
Qed.

Lemma discover_silent (L : Lib) directory extensions :
  forall files,
    Forall (fun c => is_silent c = true)
           (calls (fst (discover L directory extensions files))).
Proof.
  intro files. eapply Forall_impl;
    [| apply (discover_only_globs L directory extensions files)].
  intros c [p ->]. reflexivity.
Qed.

Lemma load_files_silent (L : Lib) files :
  forall documents,
    Forall (fun c => is_silent c = true)
           (calls (fst (load_files L files documents))).
Proof.
  induction files as [| file rest IH]; intro documents; simpl.
  - constructor.
  - destruct (loaders (snd (splitext file))); [| apply IH].
    apply Forall_calls_bind; [one_call | intros loaded _; apply IH].
Qed.

Lemma user_documents_silent (L : Lib) directory :
  Forall (fun c => is_silent c = true)
         (calls (fst (user_documents L directory))).
Proof.
  unfold user_documents.
  apply Forall_calls_bind; [apply discover_silent | intros files _].
  apply Forall_calls_bind; [apply load_files_silent | intros documents _].
  one_call.
Qed.

Lemma build_index_silent (L : Lib) docs_path :
  Forall (fun c => is_silent c = true) (calls (fst (build_index L docs_path))).
Proof.
  unfold build_index.
  apply Forall_calls_bind;
    [apply init_default_model_silent | intros model _].
  apply Forall_calls_bind; [one_call | intros embeddings _].
  apply Forall_calls_bind; [apply user_documents_silent | intros docs _].
  apply Forall_calls_bind; [one_call | intros db _].
  constructor.
Qed.

Lemma query_decompose (L : Lib) (query_arg docs_path : string) :
  query L query_arg docs_path =
  (s <- build_index L docs_path ;; llm L query_arg (fst s) (snd s)).
Proof.
  unfold query, build_index.
  do 4 (rewrite bind_assoc; apply bind_ext; intro).
  unfold ret. rewrite bind_pure. reflexivity.
Qed.

(** What [build_index] returns is the index built from the documents of
    the directory and the model of [init_model]. *)
Lemma build_index_result (L : Lib) docs_path db model :
  snd (build_index L docs_path) = Ok (db, model) ->
  snd (init_default_model L) = Ok model /\
  exists embeddings docs,
    hugging_face_embeddings L embeddings_name = Ok embeddings /\
    snd (user_documents L docs_path) = Ok docs /\
    faiss_from_documents L docs embeddings = Ok db.
Proof.
  unfold build_index. rewrite snd_bind.
  destruct (snd (init_default_model L)) as [m |]; [| discriminate].
  rewrite snd_bind. unfold lib at 1. cbn [snd].
  destruct (hugging_face_embeddings L embeddings_name) as [emb |];
    [| discriminate].
  rewrite snd_bind.
  destruct (snd (user_documents L docs_path)) as [docs |]; [| discriminate].
  rewrite snd_bind. unfold lib at 1. cbn [snd].
  destruct (faiss_from_documents L docs emb) as [d |] eqn:Ef;
    [| discriminate].
  unfold ret. cbn [snd]. intro H. inversion H; subst.
  split; [reflexivity |]. exists emb, docs. auto.
Qed.

(** X10. The main block loads the language model before it asks
    anything: its run starts with the run of [init_model], in which the
    user is not prompted; if the model cannot be loaded the program ends in
    that exception without a prompt; and with no line to read it ends in
    [EOFError] at the first prompt, the model and the embeddings being
    loaded already and no directory looked into. *)
Theorem main_loads_model_before_prompting (L : Lib) (stdin : list string) :
  prefix_of (fst (init_default_model L)) (fst (main L stdin)) /\
  Forall (fun c => is_input c = false) (calls (fst (init_default_model L))) /\
  (forall e,
      snd (init_default_model L) = Raise e ->
      main L stdin = (fst (init_default_model L), Raise e)) /\
  (forall model embeddings,
      snd (init_default_model L) = Ok model ->
      hugging_face_embeddings L embeddings_name = Ok embeddings ->
      main L []
      = (fst (init_default_model L)
           ++ [mkEvent (CHuggingFaceEmbeddings embeddings_name) None;
               mkEvent (CInput path_prompt) (Some EOFError)],
         Raise EOFError)).
Proof.
  split; [| split; [| split]].
  - unfold main. rewrite fst_bind. eexists. reflexivity.
  - destruct (init_default_model_cases L) as [(e & _ & ->) | [_ ->]];
      cbn [fst calls map ev_call]; constructor;
      try reflexivity; try constructor.
    unfold init_model, calls.
    rewrite bind_lib_ok. cbn [fst snd].
    answer_cases; unfold lib; simpl; repeat constructor.
  - intros e H. unfold main.
    destruct (init_default_model L) as [t [m | e0]]; simpl in H;
      [discriminate H |].
    inversion H; subst. reflexivity.
  - intros model embeddings H He. unfold main.
    destruct (init_default_model L) as [t [m | e0]]; simpl in H;
      [| discriminate H].
    rewrite bind_ok. cbn [fst snd].
    rewrite He, bind_lib_ok. cbn [fst snd].
    simpl input_line. rewrite bind_lib_raise. reflexivity.
Qed.

Lemma repl_ignores_lines_after_exit (L : Lib) db model rest rest' :
  forall lines query_var,
    repl L db model query_var (lines ++ "exit" :: rest)
    = repl L db model query_var (lines ++ "exit" :: rest').
Proof.
  induction lines as [| line lines IH]; intro query_var;
    (destruct (string_dec query_var "exit") as [-> | Hq];
     [rewrite !repl_exit; reflexivity |]);
    rewrite !(repl_step _ _ _ _ _ Hq);
    apply bind_ext; intro result; apply bind_ext; intros _;
    simpl input_line; rewrite !bind_lib_ok; cbn [fst snd].
  - rewrite !repl_exit. reflexivity.
  - rewrite IH. reflexivity.
Qed.

(** X11. Nothing typed after the first [exit] matters: the loop, and the
    whole program, run the same whatever follows that line. *)
Theorem nothing_is_read_after_exit (L : Lib) (path : string)
  (lines rest rest' : list string) :
  main L (path :: lines ++ "exit" :: rest)
  = main L (path :: lines ++ "exit" :: rest') /\
  (forall db model query_var,
      repl L db model query_var (lines ++ "exit" :: rest)
      = repl L db model query_var (lines ++ "exit" :: rest')).
Proof.
  split; [| intros; apply repl_ignores_lines_after_exit].
  unfold main.
  apply bind_ext; intro model. apply bind_ext; intro embeddings.
  simpl input_line. rewrite !bind_lib_ok. cbn [fst snd].
  assert (H : forall docs_and_rest : M (list Document), 
             bind docs_and_rest
               (fun docs =>
                  db <- lib (CFaissFromDocuments docs embeddings)
                            (faiss_from_documents L docs embeddings) ;;
                  query_in <- input_line query_prompt
                                         (lines ++ "exit" :: rest) ;;
                  repl L db model (fst query_in) (snd query_in))
             = bind docs_and_rest
                 (fun docs =>
                    db <- lib (CFaissFromDocuments docs embeddings)
                              (faiss_from_documents L docs embeddings) ;;
                    query_in <- input_line query_prompt
                                           (lines ++ "exit" :: rest') ;;
                    repl L db model (fst query_in) (snd query_in))).
  { intro m. apply bind_ext; intro docs. apply bind_ext; intro db.
    destruct lines as [| line lines]; simpl input_line;
      rewrite !bind_lib_ok; cbn [fst snd].
    - rewrite !repl_exit. reflexivity.
    - rewrite (repl_ignores_lines_after_exit L db model rest rest').
      reflexivity. }
  rewrite H. reflexivity.
Qed.

(** The run of [query] once the index and the model are built. *)
Lemma query_run (L : Lib) (query_arg docs_path : string) (db model : PyObj) :
  snd (build_index L docs_path) = Ok (db, model) ->
  snd (query L query_arg docs_path) = snd (llm L query_arg db model) /\
  submitted (calls (fst (query L query_arg docs_path))) = [(db, query_arg)].
Proof.
  intro H. rewrite query_decompose, snd_bind, fst_bind, H. cbn [fst snd].
  split; [reflexivity |].
  rewrite calls_app, submitted_app.
  destruct (silent_summary _ (build_index_silent L docs_path)) as [-> _].
  destruct (llm_trace_summary L query_arg db model) as (-> & _ & _).
  reflexivity.
Qed.

(** X12. [query] builds everything anew and then asks once: it is the
    construction of the model and of the index of the directory followed
    by one call of [llm] on them.  If the construction fails, [query] fails
    in the same way and submits nothing; otherwise it returns what [llm]
    returns and submits its argument once to the index just built,
    whatever the argument is: [query] has no test for [exit]. *)
Theorem query_builds_then_asks_once (L : Lib) (query_arg docs_path : string) :
  query L query_arg docs_path
  = (s <- build_index L docs_path ;; llm L query_arg (fst s) (snd s)) /\
  (forall e,
      snd (build_index L docs_path) = Raise e ->
      snd (query L query_arg docs_path) = Raise e /\
      submitted (calls (fst (query L query_arg docs_path))) = []) /\
  (forall db model,
      snd (build_index L docs_path) = Ok (db, model) ->
      snd (init_default_model L) = Ok model /\
      (exists embeddings docs,
          hugging_face_embeddings L embeddings_name = Ok embeddings /\
          snd (user_documents L docs_path) = Ok docs /\
          faiss_from_documents L docs embeddings = Ok db) /\
      snd (query L query_arg docs_path) = snd (llm L query_arg db model) /\
      submitted (calls (fst (query L query_arg docs_path)))
      = [(db, query_arg)]).
Proof.
  split; [apply query_decompose |]. split.
  - intros e H. rewrite query_decompose, snd_bind, fst_bind, H.
    split; [reflexivity |].
    rewrite app_nil_r.
    apply (silent_summary _ (build_index_silent L docs_path)).
  - intros db model H.
    destruct (build_index_result L docs_path db model H) as [H1 H2].
    destruct (query_run L query_arg docs_path db model H) as [H3 H4].
    auto.
Qed.
